(** * TruffleHog scan pipeline: syslog source, UTF-8 sanitizer, detectors

    A shallow embedding of the Go sources
      - pkg/sources/syslog/syslog.go          (module [Syslog])
      - pkg/sanitizer (func UTF8)             (module [Sanitizer], over
        Go's unicode/utf8 and strings in [Utf8] and [Strings])
      - pkg/detectors/{abuseipdb,walkscore,okta,verifier,paypaloauth,
        currencycloud,text2data}              (module [Detectors], over
        Go's regexp in [Regexp])
    together with [Chunks] and the accept loop of the syslog source
    ([SyslogChunks]), the sanitizer as its description words it
    ([SanitizerSpec]), the requests of the detectors in full
    ([DetectorWire]) and what becomes of a candidate after its exchange
    ([DetectorVerdicts]), followed by the properties proved about them
    ([SyslogProps], [SanitizerProps], [DetectorProps], [RegexpProps],
    [PreFilterProps], then [SyslogExtra], [SanitizerExtra], [RegexpExtra],
    [DetectorExtra]).

    Conventions.  Go [string] values that are only compared or concatenated
    are Rocq [string]s; payloads ([[]byte]) and the strings the sanitizer
    walks byte by byte are [list byte].  A Go [error] result is an
    [option error] ([None] is [nil]).  Everything the code reaches through
    the network or through a third-party parser is an explicit argument
    (an oracle) of the function that uses it. *)

From Stdlib Require Import List String Ascii Bool Arith ZArith NArith Lia.
From Stdlib.Strings Require Import Byte.
From Stdlib Require Import DecimalString.
Import ListNotations.

Local Open Scope string_scope.
Local Open Scope list_scope.

(* ================================================================== *)
(** * Errors (fmt.Errorf, go-errors WrapPrefix)                        *)
(* ================================================================== *)

Module GoError.

(** [fmt.Errorf(msg)] builds a leaf error; [errors.WrapPrefix(err, p, 0)]
    of go-errors wraps [err] and renders as [p ++ ": " ++ err.Error()]. *)
Inductive error : Type :=
| Errorf (msg : string)
| WrapPrefix (err : error) (prefix : string).

Fixpoint Error (e : error) : string :=
  match e with
  | Errorf msg => msg
  | WrapPrefix err prefix =>
      if String.eqb prefix "" then Error err
      else prefix ++ ": " ++ Error err
  end.

(** The innermost error of a chain of wraps. *)
Fixpoint Cause (e : error) : error :=
  match e with
  | Errorf msg => Errorf msg
  | WrapPrefix err _ => Cause err
  end.

End GoError.

(* ================================================================== *)
(** * pkg/sources/syslog/syslog.go                                     *)
(* ================================================================== *)

Module Syslog.
Import GoError.

Definition nilString : string := "".

(** [sourcespb.Syslog]: the connection payload, with the fields the
    source reads. *)
Record Syslog_conn : Type := mkConn {
  Protocol : string;
  ListenAddress : string;
  TlsCert : string;
  TlsKey : string;
  Format : string
}.

(** [anypb.Any]: a tagged payload; [UnmarshalTo] succeeds only on the
    variant the receiver expects. *)
Inductive Any : Type :=
| AnySyslog (c : Syslog_conn)
| AnyOther (typeUrl : string).

Definition UnmarshalTo (connection : Any) : Syslog_conn + error :=
  match connection with
  | AnySyslog c => inl c
  | AnyOther u => inr (Errorf ("mismatched message type: got " ++ u))
  end.

(** [source_metadatapb.MetaData]: the tagged union of per-source metadata;
    the syslog source only ever builds the [Syslog] variant. *)
Record Syslog_meta : Type := mkMeta {
  Hostname : string;
  Appname : string;
  Procid : string;
  Timestamp : string;
  Facility : string;
  Client : string
}.

Inductive MetaData : Type :=
| MetaData_Syslog (m : Syslog_meta).

Inductive SourceType : Type :=
| SOURCE_TYPE_GIT
| SOURCE_TYPE_S3
| SOURCE_TYPE_SYSLOG.

(** [sources.Chunk], with the fields the syslog source fills in;
    [SourceMetadata] is a pointer and may be nil. *)
Record Chunk : Type := mkChunk {
  SourceName : string;
  SourceID : Z;
  ChunkSourceType : SourceType;
  SourceMetadata : option MetaData;
  Data : list byte;
  Verify : bool
}.

(** [type Syslog struct]; the weighted semaphore is represented by its
    capacity. *)
Record SyslogT : Type := mkSyslog {
  sourceType : SourceType;
  sourceName : string;
  sourceID : Z;
  jobID : Z;
  sourceMetadataFunc :
    string -> string -> string -> string -> string -> string -> MetaData;
  sl_verify : bool;
  concurrency : Z
}.

Definition NewSyslog (sourceType : SourceType) (jobID sourceID : Z)
    (sourceName : string) (verify : bool) (concurrency : Z)
    (f : string -> string -> string -> string -> string -> string -> MetaData)
    : SyslogT :=
  mkSyslog sourceType sourceName sourceID jobID f verify concurrency.

(** [type Source struct]; pointer fields are options. *)
Record Source : Type := mkSource {
  name : string;
  sourceId : Z;
  jobId : Z;
  verify : bool;
  syslog : option SyslogT;
  conn : option Syslog_conn
}.

Definition emptySource : Source := mkSource "" 0 0 false None None.

Definition Type_ (s : Source) : SourceType := SOURCE_TYPE_SYSLOG.

Definition tlsEnabled (c : Syslog_conn) : bool :=
  negb (TlsCert c =? nilString) || negb (TlsKey c =? nilString).

(** [verifyConnectionConfig] mutates [s.conn] in place and returns an
    error; the embedding returns the connection as it is left behind
    together with the error. *)
Definition verifyConnectionConfig (c : Syslog_conn)
    : Syslog_conn * option error :=
  let tls := tlsEnabled c in
  let c1 :=
    if Protocol c =? nilString then
      if tls then mkConn "tcp" (ListenAddress c) (TlsCert c) (TlsKey c) (Format c)
      else mkConn "udp" (ListenAddress c) (TlsCert c) (TlsKey c) (Format c)
    else c in
  if (Protocol c1 =? "udp") && tls then
    (c1, Some (Errorf "TLS is not supported over UDP"))
  else
    let c2 :=
      if ListenAddress c1 =? nilString then
        mkConn (Protocol c1) ":5140" (TlsCert c1) (TlsKey c1) (Format c1)
      else c1 in
    let c3 :=
      if Format c2 =? nilString then
        mkConn (Protocol c2) (ListenAddress c2) (TlsCert c2) (TlsKey c2) "rfc3164"
      else c2 in
    (c3, None).

Definition syslogMetadata
    (hostname appname procID timestamp facility client : string) : MetaData :=
  MetaData_Syslog (mkMeta hostname appname procID timestamp facility client).

(** [Init]; [numCPU] stands for [runtime.NumCPU()].  The [concurrency]
    argument of the Go method is not used by its body. *)
Definition Init (numCPU : Z) (s : Source) (name : string) (jobId sourceId : Z)
    (verify : bool) (connection : Any) (concurrency : Z)
    : Source * option error :=
  let s1 := mkSource name sourceId jobId verify (syslog s) (conn s) in
  match UnmarshalTo connection with
  | inr err => (s1, Some (WrapPrefix err "error unmarshalling connection"))
  | inl c =>
      let (c', r) := verifyConnectionConfig c in
      let s2 := mkSource name sourceId jobId verify (syslog s1) (Some c') in
      match r with
      | Some err => (s2, Some (WrapPrefix err "invalid configuration"))
      | None =>
          let sl := NewSyslog (Type_ s2) jobId sourceId name verify numCPU
                      syslogMetadata in
          (mkSource name sourceId jobId verify (Some sl) (Some c'), None)
      end
  end.

(** The listener [Chunks] opens, by the order of its [switch]. *)
Inductive Transport : Type :=
| TLSListener
| TCPListener
| UDPListener.

Definition chooseTransport (c : Syslog_conn) : Transport + error :=
  if tlsEnabled c then inl TLSListener
  else if Protocol c =? "tcp" then inl TCPListener
  else if Protocol c =? "udp" then inl UDPListener
  else inr (Errorf "unknown connection type").

(** ** Third-party parsers

    [rfc5424.Message.UnmarshalBinary] and [rfc3164.Parser.Parse] belong to
    imported packages; they are oracles from the bytes to the fields the
    source reads, or the error the parser returns.  Timestamps are carried by
    their [String()] rendering.  A parser that panics ends the program; the
    oracles do not express this, so a read loop below gives the chunks the
    program emits as long as no parser panics, and the chunks it emits
    until then are an initial segment of them. *)
Record rfc5424_Message : Type := mkMsg5424 {
  msg_Hostname : string;
  msg_AppName : string;
  msg_ProcessID : string;
  msg_Timestamp : string
}.

Record rfc3164_Dump : Type := mkDump3164 {
  dump_hostname : string;
  dump_timestamp : string;
  dump_facility : Z
}.

Record Parsers : Type := mkParsers {
  rfc5424_UnmarshalBinary : list byte -> rfc5424_Message + error;
  rfc3164_Parse : list byte -> rfc3164_Dump + error
}.

(** [strconv.Itoa]. *)
Definition Itoa (z : Z) : string := NilZero.string_of_int (Z.to_int z).

(** [parseSyslogMetadata]: the [metadata] variable starts as a nil pointer
    and is only assigned after a successful parse.  Here and below [c] and
    [sl] stand for [s.conn] and [s.syslog] as [Init] has set them. *)
Definition parseSyslogMetadata (P : Parsers) (s : Source) (c : Syslog_conn)
    (sl : SyslogT) (input : list byte) (remote : string)
    : option MetaData * option error :=
  let metadata : option MetaData := None in
  if Format c =? "rfc5424" then
    match rfc5424_UnmarshalBinary P input with
    | inr err =>
        (metadata, Some (WrapPrefix err "could not parse syslog as rfc5424"))
    | inl message =>
        (Some (sourceMetadataFunc sl (msg_Hostname message) (msg_AppName message)
                 (msg_ProcessID message) (msg_Timestamp message) nilString remote),
         None)
    end
  else if Format c =? "rfc3164" then
    match rfc3164_Parse P input with
    | inr err =>
        (metadata, Some (WrapPrefix err "could not parse syslog as rfc3164"))
    | inl data =>
        (Some (sourceMetadataFunc sl (dump_hostname data) nilString nilString
                 (dump_timestamp data) (Itoa (dump_facility data)) remote),
         None)
    end
  else (metadata, None).

(** ** Reads

    [make([]byte, n)] is [n] zero bytes.  A read copies the bytes that
    arrived over the front of the buffer, at most [len(buf)] of them, and
    leaves the rest of the buffer as it was; the count it returns is
    discarded by both callers ([_, err = conn.Read(input)] and
    [_, remote, err := netListener.ReadFrom(input)]). *)
Definition make (n : nat) : list byte := repeat x00 n.

Definition readInto (buf payload : list byte) : list byte :=
  (firstn (List.length buf) payload ++ skipn (List.length payload) buf)%list.

Definition tcpBufferSize : nat := N.to_nat 8096.
Definition udpBufferSize : nat := N.to_nat 65535.

(** One turn of a read loop as the environment decides it: whether the
    context is already cancelled, and what the read returns. *)
Inductive ReadResult : Type :=
| ReadOk (payload : list byte) (remote : string)
| ReadEOF
| ReadErr.

Record Turn : Type := mkTurn {
  ctxDone : bool;
  result : ReadResult
}.

Definition mkSyslogChunk (s : Source) (sl : SyslogT)
    (metadata : option MetaData) (input : list byte) : Chunk :=
  mkChunk (sourceName sl) (sourceID sl) (sourceType sl) metadata input (verify s).

(** [monitorConnection]: the chunks sent on [chunksChan] while the
    connection goes through [turns]; [remoteAddr] is [conn.RemoteAddr()]. *)
Fixpoint monitorConnection (P : Parsers) (s : Source) (c : Syslog_conn)
    (sl : SyslogT) (remoteAddr : string) (turns : list Turn) : list Chunk :=
  match turns with
  | [] => []
  | t :: rest =>
      if ctxDone t then []
      else
        let input := make tcpBufferSize in
        match result t with
        | ReadEOF => []
        | ReadErr => monitorConnection P s c sl remoteAddr rest
        | ReadOk payload _ =>
            let input := readInto input payload in
            let (metadata, _) := parseSyslogMetadata P s c sl input remoteAddr in
            mkSyslogChunk s sl metadata input
              :: monitorConnection P s c sl remoteAddr rest
        end
  end.

(** [acceptUDPConnections]: the chunks sent on [chunksChan] while the
    packet listener goes through [turns]. *)
Fixpoint acceptUDPConnections (P : Parsers) (s : Source) (c : Syslog_conn)
    (sl : SyslogT) (turns : list Turn) : list Chunk :=
  match turns with
  | [] => []
  | t :: rest =>
      if ctxDone t then []
      else
        let input := make udpBufferSize in
        match result t with
        | ReadEOF => []
        | ReadErr => acceptUDPConnections P s c sl rest
        | ReadOk payload remote =>
            let input := readInto input payload in
            let (metadata, _) := parseSyslogMetadata P s c sl input remote in
            mkSyslogChunk s sl metadata input
              :: acceptUDPConnections P s c sl rest
        end
  end.

(** The number of successful reads made before cancellation or EOF. *)
Definition successfulReads (turns : list Turn) : nat :=
  (fix go (ts : list Turn) : nat :=
     match ts with
     | [] => 0
     | t :: rest =>
         if ctxDone t then 0
         else match result t with
              | ReadOk _ _ => S (go rest)
              | ReadEOF => 0
              | ReadErr => go rest
              end
     end) turns.

(** ** Sample values for the concrete instances of the properties *)

Definition udpTlsConn : Syslog_conn := mkConn "udp" "" "CERT" "" "".

Definition failingParsers : Parsers :=
  mkParsers (fun _ => inr (Errorf "bad message"))
            (fun _ => inr (Errorf "bad message")).

Definition plainUdpConn : Syslog_conn := mkConn "udp" ":5140" "" "" "rfc3164".

Definition sampleSyslog : SyslogT :=
  NewSyslog SOURCE_TYPE_SYSLOG 0 0 "syslog" false 4 syslogMetadata.

Definition sampleSource : Source :=
  mkSource "syslog" 0 0 false (Some sampleSyslog) (Some plainUdpConn).

(** The two bytes of "hi". *)
Definition hiPacket : list byte := [x68; x69].

(** The same listener configured for RFC 5424, whose parser rejects
    [hiPacket]: the message does not start with a priority. *)
Definition rfc5424Conn : Syslog_conn := mkConn "udp" ":5140" "" "" "rfc5424".

Definition rfc5424Source : Source :=
  mkSource "syslog" 0 0 false (Some sampleSyslog) (Some rfc5424Conn).

End Syslog.

(* ================================================================== *)
(** * pkg/sanitizer                                                    *)
(* ================================================================== *)

(** Go's [unicode/utf8] and [strings] functions that [sanitizer.UTF8]
    calls, over strings as byte sequences. *)
Module Utf8.

Local Open Scope N_scope.

Definition RuneError : N := 0xFFFD.
Definition RuneSelf : N := 0x80.

Definition maskx : N := 0x3F.
Definition mask2 : N := 0x1F.
Definition mask3 : N := 0x0F.
Definition mask4 : N := 0x07.

Definition locb : N := 0x80.
Definition hicb : N := 0xBF.

(** The entries of the table [first]: the low three bits are the size of
    the encoding, the high four bits index [acceptRanges]. *)
Definition xx : N := 0xF1.
Definition as_ : N := 0xF0.
Definition s1 : N := 0x02.
Definition s2 : N := 0x13.
Definition s3 : N := 0x03.
Definition s4 : N := 0x23.
Definition s5 : N := 0x34.
Definition s6 : N := 0x04.
Definition s7 : N := 0x44.

(** [first[b]], the 256-entry table given by its ranges. *)
Definition first (b : N) : N :=
  if b <? 0x80 then as_
  else if b <? 0xC2 then xx
  else if b <? 0xE0 then s1
  else if b =? 0xE0 then s2
  else if b <? 0xED then s3
  else if b =? 0xED then s4
  else if b <? 0xF0 then s3
  else if b =? 0xF0 then s5
  else if b <? 0xF4 then s6
  else if b =? 0xF4 then s7
  else xx.

(** [acceptRanges[i]] as the pair [(lo, hi)]. *)
Definition acceptRanges (i : N) : N * N :=
  if i =? 0 then (locb, hicb)
  else if i =? 1 then (0xA0, hicb)
  else if i =? 2 then (locb, 0x9F)
  else if i =? 3 then (0x90, hicb)
  else if i =? 4 then (locb, 0x8F)
  else (0, 0).

Definition at_ (s : list byte) (i : nat) : N := Byte.to_N (nth i s x00).

(** The body of [utf8.DecodeRuneInString] over the length [n] of the
    string and its first four bytes [s0], [b1], [b2], [b3] (each read by
    the Go code only after the length check that guards it).  For
    [x >= as] the Go code selects between the byte and [RuneError] with a
    mask made from the lowest bit of [x], which is set for [xx] only. *)
Definition decodeBytes (n : nat) (s0 b1 b2 b3 : N) : N * nat :=
  if (n <? 1)%nat then (RuneError, 0%nat)
  else
    let x := first s0 in
    if as_ <=? x then
      (if N.odd x then RuneError else s0, 1%nat)
    else
      let sz := N.to_nat (N.land x 7) in
      let accept := acceptRanges (N.shiftr x 4) in
      if (n <? sz)%nat then (RuneError, 1%nat)
      else if (b1 <? fst accept) || (snd accept <? b1) then (RuneError, 1%nat)
      else if (sz <=? 2)%nat then
        (N.lor (N.shiftl (N.land s0 mask2) 6) (N.land b1 maskx), 2%nat)
      else if (b2 <? locb) || (hicb <? b2) then (RuneError, 1%nat)
      else if (sz <=? 3)%nat then
        (N.lor (N.lor (N.shiftl (N.land s0 mask3) 12)
                      (N.shiftl (N.land b1 maskx) 6))
               (N.land b2 maskx), 3%nat)
      else if (b3 <? locb) || (hicb <? b3) then (RuneError, 1%nat)
      else
        (N.lor (N.lor (N.lor (N.shiftl (N.land s0 mask4) 18)
                             (N.shiftl (N.land b1 maskx) 12))
                      (N.shiftl (N.land b2 maskx) 6))
               (N.land b3 maskx), 4%nat).

(** [utf8.DecodeRuneInString]: the rune and its width in bytes. *)
Definition DecodeRuneInString (s : list byte) : N * nat :=
  decodeBytes (List.length s) (at_ s 0) (at_ s 1) (at_ s 2) (at_ s 3).

(** The well-formed byte sequences of the Unicode Standard (table 3-7):
    the encodings of one code point on two to four bytes. *)
Definition cont (b : N) : bool := (0x80 <=? b) && (b <=? 0xBF).

Definition unitOK2 (s0 b1 : N) : bool :=
  (0xC2 <=? s0) && (s0 <=? 0xDF) && cont b1.

Definition unitOK3 (s0 b1 b2 : N) : bool :=
  ((s0 =? 0xE0) && (0xA0 <=? b1) && (b1 <=? 0xBF)
   || (0xE1 <=? s0) && (s0 <=? 0xEC) && cont b1
   || (s0 =? 0xED) && (0x80 <=? b1) && (b1 <=? 0x9F)
   || (0xEE <=? s0) && (s0 <=? 0xEF) && cont b1)
  && cont b2.

Definition unitOK4 (s0 b1 b2 b3 : N) : bool :=
  ((s0 =? 0xF0) && (0x90 <=? b1) && (b1 <=? 0xBF)
   || (0xF1 <=? s0) && (s0 <=? 0xF3) && cont b1
   || (s0 =? 0xF4) && (0x80 <=? b1) && (b1 <=? 0x8F))
  && cont b2 && cont b3.

Definition wellFormedUnit (u : list byte) : bool :=
  match u with
  | [c0; c1] => unitOK2 (Byte.to_N c0) (Byte.to_N c1)
  | [c0; c1; c2] => unitOK3 (Byte.to_N c0) (Byte.to_N c1) (Byte.to_N c2)
  | [c0; c1; c2; c3] =>
      unitOK4 (Byte.to_N c0) (Byte.to_N c1) (Byte.to_N c2) (Byte.to_N c3)
  | _ => false
  end.

(** A string is valid UTF-8 when it is a sequence of ASCII bytes and
    well-formed multi-byte units. *)
Inductive ValidUTF8 : list byte -> Prop :=
| valid_nil : ValidUTF8 []
| valid_ascii (b : byte) (t : list byte) :
    Byte.to_N b < RuneSelf -> ValidUTF8 t -> ValidUTF8 (b :: t)
| valid_unit (u t : list byte) :
    wellFormedUnit u = true -> ValidUTF8 t -> ValidUTF8 (u ++ t).

End Utf8.

Module Strings.
Import Utf8.

(** The [for i, c := range s] loop that opens [strings.ToValidUTF8]: the
    index of the first byte at which decoding yields [RuneError] with
    width 1, if any.  [s] is the part of the string from index [i] on. *)
Fixpoint firstInvalid (fuel : nat) (s : list byte) (i : nat) : option nat :=
  match fuel with
  | O => None
  | S fuel' =>
      match s with
      | [] => None
      | _ :: _ =>
          let (c, w) := DecodeRuneInString s in
          if negb (c =? RuneError)%N then firstInvalid fuel' (skipn w s) (i + w)
          else
            let (_, wid) := DecodeRuneInString s in
            if (wid =? 1)%nat then Some i
            else firstInvalid fuel' (skipn w s) (i + w)
      end
  end.

(** The second loop of [strings.ToValidUTF8], from index [i] on; [invalid]
    records that the previous byte belonged to an invalid sequence. *)
Fixpoint toValidLoop (fuel : nat) (s replacement : list byte) (invalid : bool)
    : list byte :=
  match fuel with
  | O => []
  | S fuel' =>
      match s with
      | [] => []
      | c :: t =>
          if (Byte.to_N c <? RuneSelf)%N then
            c :: toValidLoop fuel' t replacement false
          else
            let (_, wid) := DecodeRuneInString s in
            if (wid =? 1)%nat then
              if negb invalid then
                replacement ++ toValidLoop fuel' t replacement true
              else toValidLoop fuel' t replacement true
            else
              firstn wid s ++ toValidLoop fuel' (skipn wid s) replacement false
      end
  end.

(** [strings.ToValidUTF8]: the fast path returns [s] itself; otherwise the
    prefix before the first invalid byte is copied and the second loop runs
    over the rest. *)
Definition ToValidUTF8 (s replacement : list byte) : list byte :=
  match firstInvalid (List.length s) s 0 with
  | None => s
  | Some i =>
      firstn i s ++ toValidLoop (List.length (skipn i s)) (skipn i s) replacement false
  end.

Fixpoint hasPrefix (s prefix : list byte) {struct prefix} : bool :=
  match prefix, s with
  | [], _ => true
  | p :: prefix', c :: s' => Byte.eqb p c && hasPrefix s' prefix'
  | _ :: _, [] => false
  end.

Definition bytes_eqb (a b : list byte) : bool :=
  (List.length a =? List.length b)%nat && hasPrefix a b.

(** [strings.Replace] for a non-empty [old]: the first [n] non-overlapping
    instances of [old], from the left, are replaced by [new]; a negative
    [n] puts no limit. *)
Fixpoint replaceLoop (fuel : nat) (s old new : list byte) (n : Z) : list byte :=
  match fuel with
  | O => s
  | S fuel' =>
      if (n =? 0)%Z then s
      else
        match s with
        | [] => []
        | c :: t =>
            if hasPrefix s old then
              new ++ replaceLoop fuel' (skipn (List.length old) s) old new (n - 1)
            else c :: replaceLoop fuel' t old new n
        end
  end.

(** [strings.Replace] for an empty [old]: [new] is inserted at the
    beginning of the string and after each UTF-8 sequence, up to [n]
    times. *)
Fixpoint insertLoop (fuel : nat) (s new : list byte) (n : Z) : list byte :=
  match fuel with
  | O => s
  | S fuel' =>
      if (n =? 0)%Z then s
      else
        new ++
        match s with
        | [] => []
        | _ :: _ =>
            let (_, wid) := DecodeRuneInString s in
            firstn wid s ++ insertLoop fuel' (skipn wid s) new (n - 1)
        end
  end.

Definition Replace (s old new : list byte) (n : Z) : list byte :=
  if bytes_eqb old new || (n =? 0)%Z then s
  else
    match old with
    | [] => insertLoop (S (List.length s)) s new n
    | _ :: _ => replaceLoop (List.length s) s old new n
    end.

End Strings.

Module Sanitizer.
Import Strings.

(** The bytes of "❗" (U+2757). *)
Definition replacement : list byte := [xe2; x9d; x97].

(** The bytes [UTF8] keeps: all but NUL. *)
Definition notNUL (c : byte) : bool := negb (Byte.eqb x00 c).

(** [func UTF8(in string) string]. *)
Definition UTF8 (input : list byte) : list byte :=
  Replace (ToValidUTF8 input replacement) [x00] [] (-1).

End Sanitizer.

(* ================================================================== *)
(** * Regular expressions (Go's regexp, leftmost-first)                *)
(* ================================================================== *)

(** The part of Go's [regexp] syntax the detectors' patterns use, as an
    abstract syntax tree, with the matching order of a backtracking search
    (Go's leftmost-first semantics).  Character classes are classes of
    bytes: the patterns of the detectors only name ASCII characters. *)
Module Regexp.

Inductive regexp : Type :=
| Empty
| Class (f : ascii -> bool)
| Seq (a b : regexp)
| Alt (a b : regexp)
| Repeat (a : regexp) (lo hi : nat)
| Star (a : regexp)
| WordBoundary
| Group (i : nat) (a : regexp).

Definition Plus (a : regexp) : regexp := Seq a (Star a).

Definition code (c : ascii) : nat := nat_of_ascii c.

Definition inRange (lo hi c : ascii) : bool :=
  (code lo <=? code c)%nat && (code c <=? code hi)%nat.

Definition isChar (x : ascii) : ascii -> bool := fun c => Ascii.eqb x c.

Definition lower : ascii -> bool := inRange "a" "z".
Definition upper : ascii -> bool := inRange "A" "Z".
Definition digit : ascii -> bool := inRange "0" "9".

Definition anyOf (fs : list (ascii -> bool)) : ascii -> bool :=
  fun c => existsb (fun f => f c) fs.

(** [\w], which [\b] is defined by. *)
Definition isWordChar (c : ascii) : bool :=
  lower c || upper c || digit c || isChar "_" c.

Fixpoint literal (s : string) : regexp :=
  match s with
  | EmptyString => Empty
  | String c s' => Seq (Class (isChar c)) (literal s')
  end.

(** The number of capturing groups ([NumSubexp]). *)
Fixpoint numSubexp (r : regexp) : nat :=
  match r with
  | Empty | Class _ | WordBoundary => 0
  | Seq a b | Alt a b => Nat.max (numSubexp a) (numSubexp b)
  | Repeat a _ _ | Star a => numSubexp a
  | Group i a => Nat.max i (numSubexp a)
  end.

(** A position of the matcher in the input: the offset, the byte before
    it, the bytes from it on, and the groups closed so far (most recent
    first). *)
Record mstate : Type := mkState {
  pos : nat;
  prev : option ascii;
  rest : list ascii;
  caps : list (nat * (nat * nat))
}.

Definition wordBefore (st : mstate) : bool :=
  match prev st with Some c => isWordChar c | None => false end.

Definition wordAfter (st : mstate) : bool :=
  match rest st with c :: _ => isWordChar c | [] => false end.

(** Backtracking match of [r] at [st], then of the continuation [k]; the
    first alternative that lets the whole match succeed wins, repetitions
    are greedy. *)
Fixpoint matchRe (r : regexp) (st : mstate) (k : mstate -> option mstate)
    {struct r} : option mstate :=
  match r with
  | Empty => k st
  | Class f =>
      match rest st with
      | c :: t =>
          if f c then k (mkState (S (pos st)) (Some c) t (caps st)) else None
      | [] => None
      end
  | Seq a b => matchRe a st (fun st' => matchRe b st' k)
  | Alt a b =>
      match matchRe a st k with
      | Some x => Some x
      | None => matchRe b st k
      end
  | Repeat a lo hi =>
      (fix rep (lo hi : nat) (st : mstate) (k : mstate -> option mstate)
           {struct hi} : option mstate :=
         match hi with
         | O => match lo with O => k st | S _ => None end
         | S hi' =>
             match lo with
             | S lo' => matchRe a st (fun st' => rep lo' hi' st' k)
             | O =>
                 match matchRe a st
                         (fun st' => if (pos st' =? pos st)%nat then None
                                     else rep O hi' st' k) with
                 | Some x => Some x
                 | None => k st
                 end
             end
         end) lo hi st k
  | Star a =>
      (fix star (fuel : nat) (st : mstate) (k : mstate -> option mstate)
           {struct fuel} : option mstate :=
         match fuel with
         | O => k st
         | S fuel' =>
             match matchRe a st
                     (fun st' => if (pos st' =? pos st)%nat then None
                                 else star fuel' st' k) with
             | Some x => Some x
             | None => k st
             end
         end) (List.length (rest st)) st k
  | WordBoundary =>
      if xorb (wordBefore st) (wordAfter st) then k st else None
  | Group i a =>
      matchRe a st
        (fun st' => k (mkState (pos st') (prev st') (rest st')
                         ((i, (pos st, pos st')) :: caps st')))
  end.

(** The words an expression denotes; a word boundary consumes nothing and
    is taken here as the empty word, whatever surrounds it. *)
Fixpoint power (L : list ascii -> Prop) (n : nat) (w : list ascii) : Prop :=
  match n with
  | O => w = []
  | S n' => exists u v, w = (u ++ v)%list /\ L u /\ power L n' v
  end.

Fixpoint lang (r : regexp) (w : list ascii) : Prop :=
  match r with
  | Empty => w = []
  | Class f => exists c, w = [c] /\ f c = true
  | Seq a b => exists u v, w = (u ++ v)%list /\ lang a u /\ lang b v
  | Alt a b => lang a w \/ lang b w
  | Repeat a lo hi => exists n, (lo <= n <= hi)%nat /\ power (lang a) n w
  | Star a => exists n, power (lang a) n w
  | WordBoundary => w = []
  | Group _ a => lang a w
  end.

(** The matcher is sound for [r] when what it consumes before it calls its
    continuation is a word of [r]. *)
Definition Sound (r : regexp) : Prop :=
  forall st k res,
    matchRe r st k = Some res ->
    exists w st1, rest st = (w ++ rest st1)%list /\ lang r w /\ k st1 = Some res.

(** The leftmost match starting at or after the current position: where
    it starts and the state it ends in. *)
Fixpoint search (r : regexp) (p : nat) (pv : option ascii) (rs : list ascii)
    {struct rs} : option (nat * mstate) :=
  match matchRe r (mkState p pv rs []) (fun st => Some st) with
  | Some st1 => Some (p, st1)
  | None =>
      match rs with
      | [] => None
      | c :: t => search r (S p) (Some c) t
      end
  end.

(** [Regexp.allMatches] with [n = -1]: successive non-overlapping matches;
    after an empty match the search moves on by one byte, and an empty
    match right after the previous match is not delivered. *)
Fixpoint allMatches (fuel : nat) (r : regexp) (p : nat) (pv : option ascii)
    (rs : list ascii) (prevMatchEnd : option nat) : list (nat * mstate) :=
  match fuel with
  | O => []
  | S fuel' =>
      match search r p pv rs with
      | None => []
      | Some (start, st1) =>
          if (pos st1 =? p)%nat then
            let accept :=
              match prevMatchEnd with
              | Some e => negb (start =? e)%nat
              | None => true
              end in
            (if accept then [(start, st1)] else [])
            ++ match rs with
               | [] => []
               | c :: t => allMatches fuel' r (S p) (Some c) t (Some (pos st1))
               end
          else
            (start, st1)
            :: allMatches fuel' r (pos st1) (prev st1) (rest st1) (Some (pos st1))
      end
  end.

Definition slice (s : string) (from to : nat) : string :=
  substring from (to - from) s.

Definition groupText (s : string) (st : mstate) (i : nat) : string :=
  match find (fun e => (fst e =? i)%nat) (caps st) with
  | Some (_, (from, to)) => slice s from to
  | None => ""
  end.

(** [re.FindAllString(s, -1)] (and [re.FindAll] on the same bytes). *)
Definition FindAllString (r : regexp) (s : string) : list string :=
  map (fun m => slice s (fst m) (pos (snd m)))
      (allMatches (S (String.length s)) r 0 None (list_ascii_of_string s) None).

(** [re.FindAllStringSubmatch(s, -1)]: per match, the whole match followed
    by the text of each capturing group. *)
Definition FindAllStringSubmatch (r : regexp) (s : string) : list (list string) :=
  map (fun m => slice s (fst m) (pos (snd m))
                :: map (groupText s (snd m)) (seq 1 (numSubexp r)))
      (allMatches (S (String.length s)) r 0 None (list_ascii_of_string s) None).

End Regexp.

(* ================================================================== *)
(** * pkg/detectors: the detectors and what they call                  *)
(* ================================================================== *)

Module Detectors.
Import GoError Regexp.
Local Open Scope string_scope.

(** ** Go library functions on strings *)

(** [strings.Contains]. *)
Fixpoint Contains (s substr : string) : bool :=
  if String.prefix substr s then true
  else match s with
       | EmptyString => false
       | String _ s' => Contains s' substr
       end.

Definition toLowerChar (c : ascii) : ascii :=
  if upper c then ascii_of_nat (code c + 32) else c.

(** [strings.ToLower] / [bytes.ToLower] on ASCII letters. *)
Fixpoint ToLower (s : string) : string :=
  match s with
  | EmptyString => EmptyString
  | String c s' => String (toLowerChar c) (ToLower s')
  end.

Definition isSpace (c : ascii) : bool :=
  let n := code c in
  (n =? 9)%nat || (n =? 10)%nat || (n =? 11)%nat || (n =? 12)%nat
  || (n =? 13)%nat || (n =? 32)%nat.

Fixpoint trimLeft (s : string) : string :=
  match s with
  | EmptyString => EmptyString
  | String c s' => if isSpace c then trimLeft s' else s
  end.

Fixpoint trimRight (s : string) : string :=
  match s with
  | EmptyString => EmptyString
  | String c s' =>
      let t := trimRight s' in
      if isSpace c && (t =? "") then EmptyString else String c t
  end.

(** [strings.TrimSpace] for the ASCII white space (tab, line feed,
    vertical tab, form feed, carriage return, space). *)
Definition TrimSpace (s : string) : string := trimRight (trimLeft s).

(** The one-character string made of a double quote. *)
Definition dq : string := String "034"%char EmptyString.

(** ** Results *)

Inductive DetectorType : Type :=
| DetectorType_AbuseIPDB
| DetectorType_WalkScore
| DetectorType_Okta
| DetectorType_Verifier
| DetectorType_PaypalOauth
| DetectorType_CurrencyCloud
| DetectorType_Text2Data.

(** [detectors.Result]. *)
Record Result : Type := mkResult {
  DetectorType_ : DetectorType;
  Verified : bool;
  Raw : string;
  Redacted : string;
  ExtraData : list (string * string)
}.

(** The struct literal of every detector: type and raw set, the other
    fields zero. *)
Definition newResult (t : DetectorType) (raw : string) : Result :=
  mkResult t false raw "" [].

Definition setVerified (r : Result) (v : bool) : Result :=
  mkResult (DetectorType_ r) v (Raw r) (Redacted r) (ExtraData r).

(** Modelled from the spec: the instance [detectors.CleanResults] keeps
    for one raw value, "the verified version if any instance of a given raw
    value was verified, else one arbitrary unverified instance" (here the
    first one). *)
Definition pickResult (raw : string) (rs : list Result) : option Result :=
  match find (fun r => (Raw r =? raw) && Verified r) rs with
  | Some v => Some v
  | None => find (fun r => Raw r =? raw) rs
  end.

(** Modelled from the spec: [detectors.CleanResults], whose source is in
    pkg/detectors outside the detector packages.  "Within a single
    from_data call, results are de-duplicated by raw; the cleaner keeps the
    verified version if any instance of a given raw value was verified,
    else one arbitrary unverified instance." *)
Definition CleanResults (rs : list Result) : list Result :=
  flat_map (fun raw => match pickResult raw rs with
                       | Some r => [r]
                       | None => []
                       end)
           (nodup string_dec (map Raw rs)).

(** ** HTTP *)

Record Request : Type := mkRequest {
  Method : string;
  URL : string;
  Header : list (string * string);
  RequestBody : option string
}.

Definition Header_Add (req : Request) (k v : string) : Request :=
  mkRequest (Method req) (URL req) (Header req ++ [(k, v)])%list (RequestBody req).

Definition Header_Set (req : Request) (k v : string) : Request :=
  mkRequest (Method req) (URL req)
    (filter (fun kv => negb (fst kv =? k)) (Header req) ++ [(k, v)])%list
    (RequestBody req).

(** A response: its status code and what [ioutil.ReadAll(res.Body)]
    returns. *)
Record Response : Type := mkResponse {
  StatusCode : Z;
  Body : string + error
}.

(** ** The environment of a detector

    What the detectors reach outside their own packages:
    - [withPrefix kws r]: the expression compiled from
      [detectors.PrefixRegex(kws)] followed by the pattern [r];
    - [IsKnownFalsePositive] and [DefaultFalsePositives], the shared
      classifier and its word list;
    - [requestError method url]: the error of
      [http.NewRequestWithContext], if any;
    - [transport n req]: what [client.Do(req)] returns for the [n]-th
      request of the scan (a response, or a network error);
    - [QueryEscape] and [base64Encode] of the standard library. *)
Record Env : Type := mkEnv {
  withPrefix : list string -> regexp -> regexp;
  IsKnownFalsePositive : string -> list string -> bool -> bool;
  DefaultFalsePositives : list string;
  requestError : string -> string -> option error;
  transport : nat -> Request -> Response + error;
  QueryEscape : string -> string;
  base64Encode : string -> string
}.

(** The requests made so far, each with what came back. *)
Abbreviation Net := (list (Request * (Response + error))).

Definition NewRequestWithContext (E : Env) (method url : string)
    (body : option string) : Request + error :=
  match requestError E method url with
  | Some err => inr err
  | None => inl (mkRequest method url [] body)
  end.

Definition Do (E : Env) (req : Request) (net : Net)
    : (Response + error) * Net :=
  let o := transport E (List.length net) req in
  (o, (net ++ [(req, o)])%list).

Definition is2xx (status : Z) : bool :=
  (200 <=? status)%Z && (status <? 300)%Z.

(** The state of a [FromData] loop: the results appended so far and the
    requests made so far. *)
Abbreviation LoopState := (list Result * Net)%type.

Definition emit (st : LoopState) (r : Result) : LoopState :=
  ((fst st ++ [r])%list, snd st).

(** What [FromData] returns, and the requests it has made. *)
Abbreviation Outcome := ((list Result * option error) * Net)%type.

Definition results (o : Outcome) : list Result := fst (fst o).
Definition err (o : Outcome) : option error := snd (fst o).
Definition requests (o : Outcome) : Net := snd o.

(** *** abuseipdb *)
Module Abuseipdb.

Definition keyPat (E : Env) : regexp :=
  withPrefix E ["abuseipdb"]
    (Seq WordBoundary
       (Seq (Group 1 (Repeat (Class (anyOf [lower; digit])) 80 80))
            WordBoundary)).

Definition Keywords : list string := ["abuseipdb"].

(** The body of the loop over [matches]. *)
Definition candidate (E : Env) (verify : bool) (st : LoopState)
    (m : list string) : LoopState :=
  if negb (List.length m =? 2)%nat then st
  else
    let resMatch := TrimSpace (nth 1 m "") in
    let s1 := newResult DetectorType_AbuseIPDB resMatch in
    if verify then
      match NewRequestWithContext E "GET"
              "https://api.abuseipdb.com/api/v2/check?ipAddress=118.25.6.39"
              None with
      | inr _ => st
      | inl req =>
          let req := Header_Add req "Key" resMatch in
          let (res, net) := Do E req (snd st) in
          match res with
          | inr _ => emit (fst st, net) s1
          | inl res =>
              match Body res with
              | inr _ => emit (fst st, net) s1
              | inl bodyString =>
                  let validResponse := Contains bodyString "ipAddress" in
                  if is2xx (StatusCode res) then
                    if validResponse then emit (fst st, net) (setVerified s1 true)
                    else emit (fst st, net) (setVerified s1 false)
                  else if IsKnownFalsePositive E resMatch
                            (DefaultFalsePositives E) true
                  then (fst st, net)
                  else emit (fst st, net) s1
              end
          end
      end
    else emit st s1.

Definition FromData (E : Env) (verify : bool) (data : string) (net : Net)
    : Outcome :=
  let matches := FindAllStringSubmatch (keyPat E) data in
  let st := fold_left (candidate E verify) matches ([], net) in
  ((CleanResults (fst st), None), snd st).

End Abuseipdb.

(** *** walkscore *)
Module Walkscore.

Definition keyPat (E : Env) : regexp :=
  withPrefix E ["walkscore"]
    (Seq WordBoundary
       (Seq (Group 1 (Repeat (Class (anyOf [digit; lower])) 32 32))
            WordBoundary)).

Definition Keywords : list string := ["walkscore"].

Definition candidate (E : Env) (verify : bool) (st : LoopState)
    (m : list string) : LoopState :=
  if negb (List.length m =? 2)%nat then st
  else
    let resMatch := TrimSpace (nth 1 m "") in
    let s1 := newResult DetectorType_WalkScore resMatch in
    if verify then
      match NewRequestWithContext E "GET"
              ("https://transit.walkscore.com/transit/search/stops/?lat=47.6101359&lon=-122.3420567&wsapikey="
               ++ resMatch) None with
      | inr _ => st
      | inl req =>
          let req := Header_Add req "Content-Type" "application/json" in
          let (res, net) := Do E req (snd st) in
          match res with
          | inr _ => emit (fst st, net) s1
          | inl res =>
              match Body res with
              | inr _ => (fst st, net)
              | inl body =>
                  if is2xx (StatusCode res) && Contains body "distance" then
                    emit (fst st, net) (setVerified s1 true)
                  else if IsKnownFalsePositive E resMatch
                            (DefaultFalsePositives E) true
                  then (fst st, net)
                  else emit (fst st, net) s1
              end
          end
      end
    else emit st s1.

Definition FromData (E : Env) (verify : bool) (data : string) (net : Net)
    : Outcome :=
  let matches := FindAllStringSubmatch (keyPat E) data in
  let st := fold_left (candidate E verify) matches ([], net) in
  ((CleanResults (fst st), None), snd st).

End Walkscore.

(** *** verifier *)
Module Verifier.

Definition keyPat (E : Env) : regexp :=
  withPrefix E ["verifier"]
    (Seq WordBoundary
       (Seq (Group 1 (Repeat (Class (anyOf [lower; digit])) 96 96))
            WordBoundary)).

(** [[a-zA-Z-0-9-]{5,16}\@[a-zA-Z-0-9]{4,16}\.[a-zA-Z-0-9]{3,6}]. *)
Definition emailPat (E : Env) : regexp :=
  let c := Class (anyOf [lower; upper; isChar "-"; digit]) in
  withPrefix E ["verifier"]
    (Seq WordBoundary
       (Seq (Group 1
               (Seq (Repeat c 5 16)
                  (Seq (Class (isChar "@"))
                     (Seq (Repeat c 4 16)
                        (Seq (Class (isChar ".")) (Repeat c 3 6))))))
            WordBoundary)).

Definition Keywords : list string := ["verifier"].

(** The body of the inner loop, over [idMatches]. *)
Definition candidate (E : Env) (verify : bool) (resMatch : string)
    (st : LoopState) (idMatch : list string) : LoopState :=
  if negb (List.length idMatch =? 2)%nat then st
  else
    let userPatMatch := TrimSpace (nth 1 idMatch "") in
    let s1 := newResult DetectorType_Verifier resMatch in
    if verify then
      match NewRequestWithContext E "GET"
              ("https://verifier.meetchopra.com/verify/" ++ userPatMatch
               ++ "?token=" ++ resMatch) None with
      | inr _ => st
      | inl req =>
          let (res, net) := Do E req (snd st) in
          match res with
          | inr _ => emit (fst st, net) s1
          | inl res =>
              if is2xx (StatusCode res) then
                emit (fst st, net) (setVerified s1 true)
              else if IsKnownFalsePositive E resMatch
                        (DefaultFalsePositives E) true
              then (fst st, net)
              else emit (fst st, net) s1
          end
      end
    else emit st s1.

(** The body of the outer loop, over [matches]. *)
Definition perMatch (E : Env) (verify : bool) (idMatches : list (list string))
    (st : LoopState) (m : list string) : LoopState :=
  if negb (List.length m =? 2)%nat then st
  else
    let resMatch := TrimSpace (nth 1 m "") in
    fold_left (candidate E verify resMatch) idMatches st.

Definition FromData (E : Env) (verify : bool) (data : string) (net : Net)
    : Outcome :=
  let matches := FindAllStringSubmatch (keyPat E) data in
  let idMatches := FindAllStringSubmatch (emailPat E) data in
  let st := fold_left (perMatch E verify idMatches) matches ([], net) in
  ((CleanResults (fst st), None), snd st).

End Verifier.

(** *** paypaloauth *)
Module Paypaloauth.

Definition idChar : regexp :=
  Class (anyOf [upper; lower; digit; isChar "_"; isChar "."]).

(** [\b([A-Za-z0-9_\.]{7}-[A-Za-z0-9_\.]{72})\b] *)
Definition idPat : regexp :=
  Seq WordBoundary
    (Seq (Group 1 (Seq (Repeat idChar 7 7)
                     (Seq (Class (isChar "-")) (Repeat idChar 72 72))))
         WordBoundary).

(** [\b([A-Za-z0-9_\.]{69}-[A-Za-z0-9_\.]{10})\b] *)
Definition keyPat : regexp :=
  Seq WordBoundary
    (Seq (Group 1 (Seq (Repeat idChar 69 69)
                     (Seq (Class (isChar "-")) (Repeat idChar 10 10))))
         WordBoundary).

Definition Keywords : list string := ["paypal"].

Definition candidate (E : Env) (verify : bool) (resMatch : string)
    (st : LoopState) (idMatch : list string) : LoopState :=
  if negb (List.length idMatch =? 2)%nat then st
  else
    let residMatch := TrimSpace (nth 1 idMatch "") in
    let s1 := newResult DetectorType_PaypalOauth resMatch in
    if verify then
      let data := residMatch ++ ":" ++ resMatch in
      let encoded := base64Encode E data in
      let payload := "grant_type=client_credentials" in
      match NewRequestWithContext E "POST"
              "https://api-m.sandbox.paypal.com/v1/oauth2/token"
              (Some payload) with
      | inr _ => st
      | inl req =>
          let req := Header_Add req "Accept" "application/json" in
          let req := Header_Add req "Accept-Language" "en_US" in
          let req := Header_Add req "Content-Type"
                       "application/x-www-form-urlencoded" in
          let req := Header_Add req "Authorization" ("Basic " ++ encoded) in
          let (res, net) := Do E req (snd st) in
          match res with
          | inr _ => emit (fst st, net) s1
          | inl res =>
              if is2xx (StatusCode res) then
                emit (fst st, net) (setVerified s1 true)
              else if IsKnownFalsePositive E resMatch
                        (DefaultFalsePositives E) true
              then (fst st, net)
              else emit (fst st, net) s1
          end
      end
    else emit st s1.

Definition perMatch (E : Env) (verify : bool) (idmatches : list (list string))
    (st : LoopState) (m : list string) : LoopState :=
  if negb (List.length m =? 2)%nat then st
  else
    let resMatch := TrimSpace (nth 1 m "") in
    fold_left (candidate E verify resMatch) idmatches st.

Definition FromData (E : Env) (verify : bool) (data : string) (net : Net)
    : Outcome :=
  let matches := FindAllStringSubmatch keyPat data in
  let idmatches := FindAllStringSubmatch idPat data in
  let st := fold_left (perMatch E verify idmatches) matches ([], net) in
  ((CleanResults (fst st), None), snd st).

End Paypaloauth.

(** *** currencycloud *)
Module Currencycloud.

Definition keyPat (E : Env) : regexp :=
  withPrefix E ["currencycloud"]
    (Seq WordBoundary
       (Seq (Group 1 (Repeat (Class (anyOf [digit; lower])) 64 64))
            WordBoundary)).

(** [\b([a-zA-Z0-9._-]+@[a-zA-Z0-9._-]+\.[a-z]+)\b] *)
Definition emailPat : regexp :=
  let c := Class (anyOf [lower; upper; digit; isChar "."; isChar "_";
                         isChar "-"]) in
  Seq WordBoundary
    (Seq (Group 1
            (Seq (Plus c)
               (Seq (Class (isChar "@"))
                  (Seq (Plus c)
                     (Seq (Class (isChar ".")) (Plus (Class lower)))))))
         WordBoundary).

Definition Keywords : list string := ["currencycloud"].

(** The JSON text sent to the authentication end point (as in the
    source, without a closing brace). *)
Definition loginPayload (resEmailMatch resMatch : string) : string :=
  "{" ++ dq ++ "login_id" ++ dq ++ ":" ++ dq ++ resEmailMatch ++ dq
  ++ "," ++ dq ++ "api_key" ++ dq ++ ":" ++ dq ++ resMatch ++ dq.

Definition candidate (E : Env) (verify : bool) (resMatch : string)
    (st : LoopState) (emailmatch : list string) : LoopState :=
  if negb (List.length emailmatch =? 2)%nat then st
  else
    let resEmailMatch := TrimSpace (nth 1 emailmatch "") in
    let s1 := newResult DetectorType_CurrencyCloud resMatch in
    if verify then
      let payload := loginPayload resEmailMatch resMatch in
      match NewRequestWithContext E "POST"
              "https://devapi.currencycloud.com/v2/authenticate/api"
              (Some payload) with
      | inr _ => st
      | inl req =>
          let req := Header_Add req "Content-Type" "application/json" in
          let (res, net) := Do E req (snd st) in
          match res with
          | inr _ => emit (fst st, net) s1
          | inl res =>
              match Body res with
              | inr _ => (fst st, net)
              | inl body =>
                  if Contains body "auth_token" then
                    emit (fst st, net) (setVerified s1 true)
                  else if IsKnownFalsePositive E resMatch
                            (DefaultFalsePositives E) true
                  then (fst st, net)
                  else emit (fst st, net) s1
              end
          end
      end
    else emit st s1.

Definition perMatch (E : Env) (verify : bool)
    (emailMatches : list (list string)) (st : LoopState) (m : list string)
    : LoopState :=
  if negb (List.length m =? 2)%nat then st
  else
    let resMatch := TrimSpace (nth 1 m "") in
    fold_left (candidate E verify resMatch) emailMatches st.

Definition FromData (E : Env) (verify : bool) (data : string) (net : Net)
    : Outcome :=
  let matches := FindAllStringSubmatch (keyPat E) data in
  let emailMatches := FindAllStringSubmatch emailPat data in
  let st := fold_left (perMatch E verify emailMatches) matches ([], net) in
  ((CleanResults (fst st), None), snd st).

End Currencycloud.

(** *** text2data *)
Module Text2data.

Definition hexUpper : regexp := Class (anyOf [digit; inRange "A" "F"]).

(** [[0-9A-F]{8}-[0-9A-F]{4}-[0-9A-F]{4}-[0-9A-F]{4}-[0-9A-F]{12}] *)
Definition keyPat (E : Env) : regexp :=
  let dash := Class (isChar "-") in
  withPrefix E ["text2data"]
    (Seq WordBoundary
       (Seq (Group 1
               (Seq (Repeat hexUpper 8 8)
                  (Seq dash
                     (Seq (Repeat hexUpper 4 4)
                        (Seq dash
                           (Seq (Repeat hexUpper 4 4)
                              (Seq dash
                                 (Seq (Repeat hexUpper 4 4)
                                    (Seq dash (Repeat hexUpper 12 12))))))))))
            WordBoundary)).

Definition Keywords : list string := ["text2data"].

Definition documentText : string :=
  "Excellent location, opposite a very large mall with wide variety of shops, restaurants and more.".

(** [url.Values.Encode] of the two values added, keys in order. *)
Definition encodeValues (E : Env) (resMatch : string) : string :=
  "DocumentText=" ++ QueryEscape E documentText
  ++ "&PrivateKey=" ++ QueryEscape E resMatch.

Definition positiveSentiment : string :=
  dq ++ "DocSentimentResultString" ++ dq ++ ":" ++ dq ++ "positive" ++ dq.

Definition candidate (E : Env) (verify : bool) (st : LoopState)
    (m : list string) : LoopState :=
  if negb (List.length m =? 2)%nat then st
  else
    let resMatch := TrimSpace (nth 1 m "") in
    let s1 := newResult DetectorType_Text2Data resMatch in
    if verify then
      match NewRequestWithContext E "POST" "http://api.text2data.com/v3/Analyze"
              (Some (encodeValues E resMatch)) with
      | inr _ => st
      | inl req =>
          let req := Header_Add req "Accept" "application/json" in
          let req := Header_Add req "Content-Type"
                       "application/x-www-form-urlencoded" in
          let (res, net) := Do E req (snd st) in
          match res with
          | inr _ => emit (fst st, net) s1
          | inl res =>
              match Body res with
              | inr _ => emit (fst st, net) s1
              | inl bodyString =>
                  let validResponse := Contains bodyString positiveSentiment in
                  if is2xx (StatusCode res) && validResponse then
                    emit (fst st, net) (setVerified s1 true)
                  else if IsKnownFalsePositive E resMatch
                            (DefaultFalsePositives E) true
                  then (fst st, net)
                  else emit (fst st, net) s1
              end
          end
      end
    else emit st s1.

Definition FromData (E : Env) (verify : bool) (data : string) (net : Net)
    : Outcome :=
  let matches := FindAllStringSubmatch (keyPat E) data in
  let st := fold_left (candidate E verify) matches ([], net) in
  ((CleanResults (fst st), None), snd st).

End Text2data.

(** *** okta *)

(** A loop whose body may [return]: either the loop goes on with a new
    state, or the function returns with the results so far and an
    error. *)
Inductive Flow : Type :=
| Running (st : LoopState)
| Returned (st : LoopState) (e : error).

Fixpoint forEach {A : Type} (body : LoopState -> A -> Flow) (xs : list A)
    (st : LoopState) : Flow :=
  match xs with
  | [] => Running st
  | x :: xs' =>
      match body st x with
      | Running st' => forEach body xs' st'
      | Returned st' e => Returned st' e
      end
  end.

Definition flowState (f : Flow) : LoopState :=
  match f with
  | Running st => st
  | Returned st _ => st
  end.

Module Okta.

(** [[a-z0-9-]{1,40}\.okta(?:preview|-emea){0,1}\.com] *)
Definition domainPat : regexp :=
  Seq (Repeat (Class (anyOf [lower; digit; isChar "-"])) 1 40)
    (Seq (literal ".okta")
       (Seq (Repeat (Alt (literal "preview") (literal "-emea")) 0 1)
            (literal ".com"))).

(** [00[a-zA-Z0-9_-]{40}] *)
Definition tokenPat : regexp :=
  Seq (literal "00")
      (Repeat (Class (anyOf [lower; upper; digit; isChar "_"; isChar "-"]))
              40 40).

Definition Keywords : list string := ["okta"].

(** The body of the inner loop, over the domain matches. *)
Definition candidate (E : Env) (verify : bool) (token : string)
    (st : LoopState) (domain : string) : Flow :=
  let s := newResult DetectorType_Okta token in
  let checked : (Result * Net) + (LoopState * error) :=
    if verify then
      let url := "https://" ++ domain ++ "/api/v1/groups?limit=1" in
      match NewRequestWithContext E "GET" url None with
      | inr e => inr (st, e)
      | inl req =>
          let req := Header_Set req "Accept" "application/json" in
          let req := Header_Set req "Content-Type" "application/json" in
          let req := Header_Set req "Authorization" ("SSWS " ++ token) in
          let (resp, net) := Do E req (snd st) in
          match resp with
          | inr e => inr ((fst st, net), e)
          | inl resp =>
              if is2xx (StatusCode resp) then inl (setVerified s true, net)
              else inl (s, net)
          end
      end
    else inl (s, snd st) in
  match checked with
  | inr (st', e) => Returned st' e
  | inl (s, net) =>
      if negb (Verified s)
         && IsKnownFalsePositive E (Raw s) (DefaultFalsePositives E) true
      then Running (fst st, net)
      else Running (emit (fst st, net) s)
  end.

Definition perToken (E : Env) (verify : bool) (data : string)
    (st : LoopState) (token : string) : Flow :=
  forEach (candidate E verify token) (FindAllString domainPat data) st.

(** [FromData] returns the named result [results] as it stands, without
    cleaning. *)
Definition FromData (E : Env) (verify : bool) (data : string) (net : Net)
    : Outcome :=
  match forEach (perToken E verify data) (FindAllString tokenPat data)
          ([], net) with
  | Running st => ((fst st, None), snd st)
  | Returned st e => ((fst st, Some e), snd st)
  end.

End Okta.

(** ** The keyword pre-filter *)

(** Modelled from the spec: the pre-filter of the scan engine, which
    lives in pkg/engine.  "A chunk is a candidate for this detector iff its
    lowercased data contains at least one keyword." *)
Definition passesPreFilter (keywords : list string) (data : string) : bool :=
  existsb (fun kw => Contains (ToLower data) kw) keywords.

(** What the keyword pre-filter needs from [detectors.PrefixRegex]: an
    expression built with the keywords [kws] only matches in data that
    passes the pre-filter for [kws]. *)
Definition PrefixSound (E : Env) (kws : list string) : Prop :=
  forall (r : regexp) (data : string),
    FindAllStringSubmatch (withPrefix E kws r) data <> [] ->
    passesPreFilter kws data = true.

(** Pre-filter soundness (P1) of a detector with keywords [kws]. *)
Definition PreFilterSound (kws : list string)
    (fromData : bool -> string -> Net -> Outcome) : Prop :=
  forall (verify : bool) (data : string) (net : Net),
    results (fromData verify data net) <> [] ->
    passesPreFilter kws data = true.

(** ** A sample environment

    Used for the concrete instances of the properties.  The sample
    [withPrefix] follows the spec's description of the patterns ("each
    credential pattern is bracketed by a prefix-keyword lookalike and word
    boundaries"): one of the keywords, up to 40 arbitrary bytes, then the
    pattern.  The sample classifier rejects a match that contains one of
    the listed words. *)
Definition anyChar : regexp := Class (fun _ => true).

Definition sampleWithPrefix (kws : list string) (r : regexp) : regexp :=
  Seq (fold_right (fun kw acc => Alt (literal kw) acc)
                  (Class (fun _ => false)) kws)
      (Seq (Repeat anyChar 0 40) r).

Definition sampleIsKnownFalsePositive (m : string) (falsePositives : list string)
    (wordCheck : bool) : bool :=
  existsb (fun fp => Contains (ToLower m) fp) falsePositives.

Definition sampleFalsePositives : list string :=
  ["example"; "xxxxxx"; "aaaaaa"; "abcde"; "00000"; "sample"; "www"].

(** Every request is answered by [answer]. *)
Definition sampleEnv (answer : Response + error) : Env :=
  mkEnv sampleWithPrefix sampleIsKnownFalsePositive sampleFalsePositives
    (fun _ _ => None) (fun _ _ => answer) (fun s => s) (fun s => s).

(** No request can be built. *)
Definition noRequestEnv : Env :=
  mkEnv sampleWithPrefix sampleIsKnownFalsePositive sampleFalsePositives
    (fun _ _ => Some (Errorf "net/http: invalid method")) 
    (fun _ _ => inr (Errorf "unreachable")) (fun s => s) (fun s => s).

Fixpoint repeatChar (c : ascii) (n : nat) : string :=
  match n with
  | O => EmptyString
  | S n' => String c (repeatChar c n')
  end.

(** Sample inputs. *)
Definition answer (status : Z) (body : string) : Response + error :=
  inl (mkResponse status (inl body)).

Definition walkscoreKey : string := repeatChar "a" 32.
Definition walkscoreData : string := "walkscore key: " ++ walkscoreKey ++ " end".

Definition verifierKey : string := repeatChar "k" 90 ++ "123456".
Definition verifierData : string :=
  "verifier " ++ verifierKey ++ " verifier alice@corp.com".

Definition abuseipdbKey : string := repeatChar "q" 70 ++ "0123456789".
Definition abuseipdbData : string := "abuseipdb: " ++ abuseipdbKey.

Definition oktaToken : string := "00" ++ repeatChar "Z" 40.
Definition oktaData : string := "dev-1.okta.com " ++ oktaToken.

Definition paypalId : string := repeatChar "a" 7 ++ "-" ++ repeatChar "a" 72.
Definition paypalKey : string := repeatChar "b" 69 ++ "-" ++ repeatChar "b" 10.
Definition paypalData : string := paypalId ++ " " ++ paypalKey.

Definition currencycloudKey : string := repeatChar "k" 30 ++ repeatChar "7" 34.
Definition currencycloudData : string :=
  "currencycloud " ++ currencycloudKey ++ " bob@corp.io".

End Detectors.

(** ** What one turn of a detector's loop may do

    [Step ... raw st st']: from [st], the candidate with credential [raw]
    leaves the loop in [st'].  The parameters describe the detector:
    [success] tells which responses it takes as a confirmation,
    [link req raw] that the request [req] carries the credential [raw],
    [bypass o] that after the outcome [o] an unconfirmed candidate is
    emitted without asking the classifier, and [plainBypass] that without
    verification candidates are emitted without asking the classifier. *)
Module DetectorSteps.
Import GoError Detectors.
Local Open Scope string_scope.

Definition rejected (E : Env) (raw : string) : bool :=
  IsKnownFalsePositive E raw (DefaultFalsePositives E) true.

Definition isNetworkError (o : Response + error) : Prop :=
  match o with
  | inl _ => False
  | inr _ => True
  end.

Section Steps.
Variable E : Env.
Variable success : Response -> bool.
Variable link : Request -> string -> Prop.
Variable bypass : Response + error -> Prop.
Variable plainBypass : Prop.
Variable t : DetectorType.
Variable verify : bool.

Definition outcome (st : LoopState) (req : Request) : Response + error :=
  transport E (List.length (snd st)) req.

Definition exchanged (st : LoopState) (req : Request) : Net :=
  (snd st ++ [(req, outcome st req)])%list.

Definition notConfirmed (o : Response + error) : Prop :=
  match o with
  | inl res => success res = false
  | inr _ => True
  end.

Inductive Step (raw : string) (st : LoopState) : LoopState -> Prop :=
| StepSkip : Step raw st st
| StepPlain :
    verify = false ->
    plainBypass \/ rejected E raw = false ->
    Step raw st (emit st (newResult t raw))
| StepDropped (req : Request) :
    verify = true ->
    link req raw ->
    notConfirmed (outcome st req) ->
    Step raw st (fst st, exchanged st req)
| StepUnverified (req : Request) :
    verify = true ->
    link req raw ->
    notConfirmed (outcome st req) ->
    bypass (outcome st req) \/ rejected E raw = false ->
    Step raw st (emit (fst st, exchanged st req) (newResult t raw))
| StepVerified (req : Request) (res : Response) :
    verify = true ->
    link req raw ->
    outcome st req = inl res ->
    success res = true ->
    Step raw st (emit (fst st, exchanged st req)
                      (setVerified (newResult t raw) true)).

(** Since the loop started with the requests [net0]: every verified
    result is backed by a confirming exchange made since, and every
    confirming exchange made since has its verified result. *)
Definition Backed (net0 : Net) (st : LoopState) : Prop :=
  exists added : Net,
    snd st = (net0 ++ added)%list
    /\ (forall r, In r (fst st) -> Verified r = true ->
          exists req res, In (req, inl res) added
                          /\ success res = true /\ link req (Raw r))
    /\ (forall req res, In (req, inl res) added -> success res = true ->
          exists r, In r (fst st) /\ Verified r = true /\ link req (Raw r)).

(** Every result is verified, or accepted by the classifier, or was
    emitted without asking it: in a scan without verification if the
    detector does so, or after an exchange whose outcome lets it. *)
Definition Gated (net0 : Net) (st : LoopState) : Prop :=
  exists added : Net,
    snd st = (net0 ++ added)%list
    /\ Forall (fun r =>
                 Verified r = true
                 \/ rejected E (Raw r) = false
                 \/ (verify = false /\ plainBypass)
                 \/ exists req o, In (req, o) added /\ bypass o
                                  /\ link req (Raw r))
              (fst st).

(** Nothing was requested and nothing is verified. *)
Definition Quiet (net0 : Net) (st : LoopState) : Prop :=
  snd st = net0 /\ Forall (fun r => Verified r = false) (fst st).

(** The three invariants along a loop all of whose turns are steps. *)
Definition Kept (net0 : Net) (st : LoopState) : Prop :=
  Backed net0 st /\ Gated net0 st /\ (verify = false -> Quiet net0 st).

End Steps.

(** The credential a request carries, per detector. *)
Definition abuseipdbLink (req : Request) (raw : string) : Prop :=
  In ("Key", raw) (Header req).

Definition walkscoreLink (req : Request) (raw : string) : Prop :=
  URL req
  = "https://transit.walkscore.com/transit/search/stops/?lat=47.6101359&lon=-122.3420567&wsapikey="
    ++ raw.

Definition verifierLink (req : Request) (raw : string) : Prop :=
  exists user,
    URL req = "https://verifier.meetchopra.com/verify/" ++ user
              ++ "?token=" ++ raw.

Definition paypalLink (E : Env) (req : Request) (raw : string) : Prop :=
  exists id,
    In ("Authorization", "Basic " ++ base64Encode E (id ++ ":" ++ raw))
       (Header req).

Definition text2dataLink (E : Env) (req : Request) (raw : string) : Prop :=
  RequestBody req = Some (Text2data.encodeValues E raw).

Definition oktaLink (req : Request) (raw : string) : Prop :=
  In ("Authorization", "SSWS " ++ raw) (Header req).

Definition currencycloudLink (req : Request) (raw : string) : Prop :=
  exists email, RequestBody req = Some (Currencycloud.loginPayload email raw).

(** The outcomes after which a detector emits an unconfirmed candidate
    without asking the classifier. *)
Definition unreadable (res : Response) : Prop :=
  match Body res with
  | inl _ => False
  | inr _ => True
  end.

Definition abuseipdbBypass (o : Response + error) : Prop :=
  match o with
  | inl res => unreadable res \/ is2xx (StatusCode res) = true
  | inr _ => True
  end.

Definition text2dataBypass (o : Response + error) : Prop :=
  match o with
  | inl res => unreadable res
  | inr _ => True
  end.

Definition neverBypass (o : Response + error) : Prop := False.

(** The responses each detector takes as a confirmation. *)
Definition bodyHas (res : Response) (marker : string) : bool :=
  match Body res with
  | inl body => Contains body marker
  | inr _ => false
  end.

Definition abuseipdbSuccess (res : Response) : bool :=
  is2xx (StatusCode res) && bodyHas res "ipAddress".

Definition walkscoreSuccess (res : Response) : bool :=
  is2xx (StatusCode res) && bodyHas res "distance".

Definition statusSuccess (res : Response) : bool := is2xx (StatusCode res).

Definition text2dataSuccess (res : Response) : bool :=
  is2xx (StatusCode res) && bodyHas res Text2data.positiveSentiment.

Definition currencycloudSuccess (res : Response) : bool :=
  bodyHas res "auth_token".

(** The results of a detector when nothing is verified or filtered: one
    per match with a capture. *)
Definition hasCapture (m : list string) : bool := (List.length m =? 2)%nat.

Definition capture (m : list string) : string := TrimSpace (nth 1 m "").

(** The results of a loop that emits every candidate: one per match with
    a capture, and for the detectors that pair two patterns one per pair
    of such matches. *)
Definition plainResults (t : DetectorType) (ms : list (list string))
    : list Result :=
  map (fun m => newResult t (capture m)) (filter hasCapture ms).

Definition pairedResults (t : DetectorType) (ms ids : list (list string))
    : list Result :=
  flat_map (fun m => map (fun _ => newResult t (capture m))
                         (filter hasCapture ids))
           (filter hasCapture ms).

(** The request each of the three detectors builds for a candidate, or the
    error of building it. *)
Definition withHeaders (build : Request + error) (f : Request -> Request)
    : Request + error :=
  match build with
  | inl req => inl (f req)
  | inr e => inr e
  end.

Definition abuseipdbRequest (E : Env) (raw : string) : Request + error :=
  withHeaders
    (NewRequestWithContext E "GET"
       "https://api.abuseipdb.com/api/v2/check?ipAddress=118.25.6.39" None)
    (fun req => Header_Add req "Key" raw).

Definition walkscoreRequest (E : Env) (raw : string) : Request + error :=
  withHeaders
    (NewRequestWithContext E "GET"
       ("https://transit.walkscore.com/transit/search/stops/?lat=47.6101359&lon=-122.3420567&wsapikey="
        ++ raw) None)
    (fun req => Header_Add req "Content-Type" "application/json").

Definition verifierRequest (E : Env) (user raw : string) : Request + error :=
  NewRequestWithContext E "GET"
    ("https://verifier.meetchopra.com/verify/" ++ user ++ "?token=" ++ raw)
    None.

(** A verified result only ever follows a 2xx response to a request that
    carries its credential, made during this call. *)
Definition VerifiedOnlyAfter2xx (link : Request -> string -> Prop)
    (net0 : Net) (o : Outcome) : Prop :=
  exists added : Net,
    requests o = (net0 ++ added)%list
    /\ forall r, In r (results o) -> Verified r = true ->
         exists req res, In (req, inl res) added
                         /\ is2xx (StatusCode res) = true
                         /\ link req (Raw r).

(** A failure to build or to send the request is swallowed: the candidate
    is skipped in the first case and emitted unverified in the second
    ([after] is the state the loop body leaves). *)
Definition Swallowed (E : Env) (build : Request + error) (st : LoopState)
    (unverified : Result) (after : LoopState) : Prop :=
  match build with
  | inr _ => after = st
  | inl req =>
      match transport E (List.length (snd st)) req with
      | inr e => after = emit (fst st, (snd st ++ [(req, inr e)])%list) unverified
      | inl _ => True
      end
  end.

End DetectorSteps.

(* ================================================================== *)
(** * pkg/sources/syslog/syslog.go: Chunks and the accept loop         *)
(* ================================================================== *)

Module SyslogChunks.
Import GoError Syslog.

(** Go's [crypto/tls] and [net] as the source calls them: each call either
    succeeds or returns an error ([None] is success). *)
Record Network : Type := mkNetwork {
  X509KeyPair : string -> string -> option error;
  tls_Listen : string -> string -> option error;
  net_Listen : string -> string -> option error;
  net_ListenPacket : string -> string -> option error;
  SetDeadline : option error
}.

(** The [switch] of [Chunks] up to the call of the accept loop: the listener
    that is open, or the error [Chunks] returns. *)
Definition openListener (N : Network) (c : Syslog_conn) : Transport + error :=
  if tlsEnabled c then
    match X509KeyPair N (TlsCert c) (TlsKey c) with
    | Some err => inr (WrapPrefix err "could not load key pair")
    | None =>
        match tls_Listen N (Protocol c) (ListenAddress c) with
        | Some err => inr (WrapPrefix err "error creating TLS listener")
        | None => inl TLSListener
        end
    end
  else if Protocol c =? "tcp" then
    match net_Listen N (Protocol c) (ListenAddress c) with
    | Some err => inr (WrapPrefix err "error creating TCP listener")
    | None => inl TCPListener
    end
  else if Protocol c =? "udp" then
    match net_ListenPacket N (Protocol c) (ListenAddress c) with
    | Some err => inr (WrapPrefix err "error creating UDP listener")
    | None =>
        match SetDeadline N with
        | Some err => inr (WrapPrefix err "could not set UDP deadline")
        | None => inl UDPListener
        end
    end
  else inr (Errorf "unknown connection type").

(** One turn of the accept loop: whether the context is cancelled, and what
    [Accept] returns: an error, or a connection given by its remote address
    and the turns of its reads. *)
Record AcceptTurn : Type := mkAcceptTurn {
  acceptDone : bool;
  accepted : option (string * list Turn)
}.

(** [acceptTCPConnections]: one [monitorConnection] is started per accepted
    connection; the result lists, per connection and in the order of
    acceptance, the chunks that connection's monitor sends (the monitors
    run concurrently, the order between two of them is not fixed). *)
Fixpoint acceptTCPConnections (P : Parsers) (s : Source) (c : Syslog_conn)
    (sl : SyslogT) (turns : list AcceptTurn) : list (list Chunk) :=
  match turns with
  | [] => []
  | t :: rest =>
      if acceptDone t then []
      else
        match accepted t with
        | None => acceptTCPConnections P s c sl rest
        | Some (remoteAddr, reads) =>
            monitorConnection P s c sl remoteAddr reads
              :: acceptTCPConnections P s c sl rest
        end
  end.

(** [Chunks]: the chunk streams sent on the channel (one for the packet
    listener, one per connection otherwise) and the error returned. *)
Definition Chunks (N : Network) (P : Parsers) (s : Source) (c : Syslog_conn)
    (sl : SyslogT) (packets : list Turn) (accepts : list AcceptTurn)
    : list (list Chunk) * option error :=
  match openListener N c with
  | inr e => ([], Some e)
  | inl UDPListener => ([acceptUDPConnections P s c sl packets], None)
  | inl _ => (acceptTCPConnections P s c sl accepts, None)
  end.

(** The payloads of the successful reads made before cancellation or EOF,
    each with the remote address the read reported. *)
Fixpoint deliveredReads (turns : list Turn) : list (list byte * string) :=
  match turns with
  | [] => []
  | t :: rest =>
      if ctxDone t then []
      else match result t with
           | ReadOk payload remote => (payload, remote) :: deliveredReads rest
           | ReadEOF => []
           | ReadErr => deliveredReads rest
           end
  end.

(** What a read of [payload] leaves in a buffer of [n] zero bytes. *)
Definition padded (n : nat) (payload : list byte) : list byte :=
  firstn n payload ++ repeat x00 (n - List.length payload).

(** A turn ends the loop when the context is cancelled or the read returns
    EOF; it is skipped when the read fails otherwise. *)
Definition endsLoop (t : Turn) : bool :=
  ctxDone t || match result t with ReadEOF => true | _ => false end.

Definition isSkipped (t : Turn) : bool :=
  negb (ctxDone t) && match result t with ReadErr => true | _ => false end.

(** A network on which every call succeeds, for the concrete instances. *)
Definition openNetwork : Network :=
  mkNetwork (fun _ _ => None) (fun _ _ => None) (fun _ _ => None)
            (fun _ _ => None) None.

End SyslogChunks.

(* ================================================================== *)
(** * pkg/sanitizer: classes of bytes                                  *)
(* ================================================================== *)

Module Utf8Classes.
Import Utf8.

(** The bytes whose entry in the table [first] is [xx]: continuation bytes
    and the bytes that never occur in UTF-8, none of which can start a
    sequence. *)
Definition strayByte (c : byte) : bool := (first (Byte.to_N c) =? xx)%N.

End Utf8Classes.

(** [sanitizer.UTF8] as the specification describes it. *)
Module SanitizerSpec.
Import Utf8 Sanitizer.

(** The well-formed multi-byte unit (table 3-7 of the Unicode Standard)
    that starts [s], if there is one. *)
Definition unitAt (s : list byte) : option (list byte) :=
  find wellFormedUnit [firstn 2 s; firstn 3 s; firstn 4 s].

(** The sanitizer as the specification words it, byte by byte: an ASCII
    byte is kept, except NUL, which is stripped; a well-formed multi-byte
    unit is kept; a byte that is neither is invalid, and each run of
    invalid bytes is replaced by one replacement character ([inRun] tells
    that the previous byte was invalid; a run ends at the next ASCII byte,
    NUL included, or well-formed unit). *)
Fixpoint sanitized (fuel : nat) (s : list byte) (inRun : bool) : list byte :=
  match fuel with
  | O => []
  | S fuel' =>
      match s with
      | [] => []
      | c :: t =>
          if (Byte.to_N c <? 0x80)%N then
            (if Byte.eqb x00 c then [] else [c]) ++ sanitized fuel' t false
          else
            match unitAt s with
            | Some u => u ++ sanitized fuel' (skipn (List.length u) s) false
            | None =>
                (if inRun then [] else replacement)
                ++ sanitized fuel' t true
            end
      end
  end.

Definition sanitizeSpec (s : list byte) : list byte :=
  sanitized (List.length s) s false.

End SanitizerSpec.

(* ================================================================== *)
(** * Regular expressions: where a match lies                          *)
(* ================================================================== *)

Module RegexpPositions.
Import Regexp.

(** The matcher is position-sound for [r] when what it consumes before it
    calls its continuation is a word of [r] and the offset advances by the
    length of that word. *)
Definition PosSound (r : regexp) : Prop :=
  forall st k res,
    matchRe r st k = Some res ->
    exists w st1,
      rest st = w ++ rest st1 /\ pos st1 = pos st + List.length w
      /\ lang r w /\ k st1 = Some res.

(** The form [\b(a)\b] of the key patterns. *)
Definition bounded (a : regexp) : regexp :=
  Seq WordBoundary (Seq (Group 1 a) WordBoundary).

End RegexpPositions.

(* ================================================================== *)
(** * pkg/detectors: the requests on the wire                          *)
(* ================================================================== *)

(** The request each detector sends for a candidate, in full: method,
    URL, headers in the order they are added, and body, as the loop bodies
    of [Detectors] build them.  For the detectors that pair two patterns
    the second value comes from the list given. *)
Module DetectorWire.
Import GoError Regexp Detectors DetectorSteps.
Local Open Scope string_scope.

Definition abuseipdbWire (req : Request) (raw : string) : Prop :=
  req = mkRequest "GET"
          "https://api.abuseipdb.com/api/v2/check?ipAddress=118.25.6.39"
          [("Key", raw)] None.

Definition walkscoreWire (req : Request) (raw : string) : Prop :=
  req = mkRequest "GET"
          ("https://transit.walkscore.com/transit/search/stops/?lat=47.6101359&lon=-122.3420567&wsapikey="
           ++ raw)
          [("Content-Type", "application/json")] None.

Definition text2dataWire (E : Env) (req : Request) (raw : string) : Prop :=
  req = mkRequest "POST" "http://api.text2data.com/v3/Analyze"
          [("Accept", "application/json");
           ("Content-Type", "application/x-www-form-urlencoded")]
          (Some (Text2data.encodeValues E raw)).

Definition verifierWire (users : list string) (req : Request) (raw : string)
    : Prop :=
  exists user,
    In user users
    /\ req = mkRequest "GET"
               ("https://verifier.meetchopra.com/verify/" ++ user
                ++ "?token=" ++ raw)
               [] None.

Definition paypalWire (E : Env) (ids : list string) (req : Request)
    (raw : string) : Prop :=
  exists id,
    In id ids
    /\ req = mkRequest "POST" "https://api-m.sandbox.paypal.com/v1/oauth2/token"
               [("Accept", "application/json");
                ("Accept-Language", "en_US");
                ("Content-Type", "application/x-www-form-urlencoded");
                ("Authorization",
                 "Basic " ++ base64Encode E (id ++ ":" ++ raw))]
               (Some "grant_type=client_credentials").

Definition currencycloudWire (emails : list string) (req : Request)
    (raw : string) : Prop :=
  exists email,
    In email emails
    /\ req = mkRequest "POST"
               "https://devapi.currencycloud.com/v2/authenticate/api"
               [("Content-Type", "application/json")]
               (Some (Currencycloud.loginPayload email raw)).

Definition oktaWire (domains : list string) (req : Request) (token : string)
    : Prop :=
  exists domain,
    In domain domains
    /\ req = mkRequest "GET" ("https://" ++ domain ++ "/api/v1/groups?limit=1")
               [("Accept", "application/json");
                ("Content-Type", "application/json");
                ("Authorization", "SSWS " ++ token)]
               None.

(** The request paypaloauth, currencycloud and text2data build for a
    candidate, or the error of building it. *)
Definition paypalRequest (E : Env) (id raw : string) : Request + error :=
  withHeaders
    (NewRequestWithContext E "POST"
       "https://api-m.sandbox.paypal.com/v1/oauth2/token"
       (Some "grant_type=client_credentials"))
    (fun req =>
       Header_Add
         (Header_Add
            (Header_Add (Header_Add req "Accept" "application/json")
               "Accept-Language" "en_US")
            "Content-Type" "application/x-www-form-urlencoded")
         "Authorization" ("Basic " ++ base64Encode E (id ++ ":" ++ raw))).

Definition currencycloudRequest (E : Env) (email raw : string)
    : Request + error :=
  withHeaders
    (NewRequestWithContext E "POST"
       "https://devapi.currencycloud.com/v2/authenticate/api"
       (Some (Currencycloud.loginPayload email raw)))
    (fun req => Header_Add req "Content-Type" "application/json").

Definition text2dataRequest (E : Env) (raw : string) : Request + error :=
  withHeaders
    (NewRequestWithContext E "POST" "http://api.text2data.com/v3/Analyze"
       (Some (Text2data.encodeValues E raw)))
    (fun req =>
       Header_Add (Header_Add req "Accept" "application/json")
         "Content-Type" "application/x-www-form-urlencoded").

(** The captures of the matches that have one. *)
Definition captures (ms : list (list string)) : list string :=
  map capture (filter hasCapture ms).

(** Since the scan started with the requests [net0]: at most [bound]
    requests were added, each the request of the detector for one of the
    candidates [raws]; and every result has the detector's type and one of
    the candidates as its raw value. *)
Definition Traced (link : Request -> string -> Prop) (t : DetectorType)
    (raws : list string) (bound : nat) (net0 : Net) (st : LoopState) : Prop :=
  exists added : Net,
    snd st = (net0 ++ added)%list
    /\ List.length added <= bound
    /\ Forall (fun ex => exists raw, In raw raws /\ link (fst ex) raw) added
    /\ Forall (fun r => DetectorType_ r = t /\ In (Raw r) raws) (fst st).

(** ** The shape of what the okta patterns match *)

Definition allChars (f : ascii -> bool) (s : string) : bool :=
  forallb f (list_ascii_of_string s).

Definition oktaTokenChar : ascii -> bool :=
  anyOf [lower; upper; digit; isChar "_"; isChar "-"].

Definition oktaLabelChar : ascii -> bool :=
  anyOf [lower; digit; isChar "-"].

Definition oktaSuffixes : list string :=
  [".okta.com"; ".oktapreview.com"; ".okta-emea.com"].

(** "00" and forty characters of [[a-zA-Z0-9_-]]. *)
Definition isOktaToken (token : string) : Prop :=
  exists body,
    token = "00" ++ body /\ String.length body = 40
    /\ allChars oktaTokenChar body = true.

(** One to forty characters of [[a-z0-9-]] and one of the three okta
    suffixes. *)
Definition isOktaDomain (domain : string) : Prop :=
  exists label suffix,
    domain = label ++ suffix /\ In suffix oktaSuffixes
    /\ 1 <= String.length label <= 40
    /\ allChars oktaLabelChar label = true.

(** ** The shape of what the paypaloauth patterns capture *)

Definition paypalChar : ascii -> bool :=
  anyOf [upper; lower; digit; isChar "_"; isChar "."].

(** [n] characters of [[A-Za-z0-9_.]], a dash, and [k] more. *)
Definition isPaypalSecret (n k : nat) (s : string) : Prop :=
  exists u v,
    s = u ++ "-" ++ v /\ String.length u = n /\ String.length v = k
    /\ allChars paypalChar u = true /\ allChars paypalChar v = true.

(** What okta reports without verification: each token the classifier
    accepts, once per domain match. *)
Definition oktaPlainResults (E : Env) (tokens domains : list string)
    : list Result :=
  flat_map (fun token =>
              if rejected E token then []
              else map (fun _ => newResult DetectorType_Okta token) domains)
           tokens.

End DetectorWire.

(* ================================================================== *)
(** * pkg/detectors: what becomes of a candidate                       *)
(* ================================================================== *)

(** The false-positive filter as it is to be described, case by case: what
    a detector does with a candidate once its verification request has
    been answered. *)
Module DetectorVerdicts.
Import GoError Regexp Detectors DetectorSteps DetectorWire.
Local Open Scope string_scope.

Inductive Verdict : Type :=
| Confirmed
| EmittedUnclassified
| Classified
| DroppedUnclassified.

(** The state a verdict leaves after the exchange of [req] with outcome
    [o]: a confirmed candidate is emitted verified and an unclassified one
    unverified, both without asking the classifier; a classified one is
    emitted unverified unless the classifier rejects it; a dropped one is
    not emitted. *)
Definition settle (E : Env) (t : DetectorType) (raw : string) (st : LoopState)
    (req : Request) (o : Response + error) (v : Verdict) : LoopState :=
  let st' := (fst st, (snd st ++ [(req, o)])%list) in
  match v with
  | Confirmed => emit st' (setVerified (newResult t raw) true)
  | EmittedUnclassified => emit st' (newResult t raw)
  | Classified => if rejected E raw then st' else emit st' (newResult t raw)
  | DroppedUnclassified => st'
  end.

(** A request that failed on the network leaves the candidate emitted
    without classification, in all six detectors that clean their
    results. *)
Definition onResponse (o : Response + error) (f : Response -> Verdict)
    : Verdict :=
  match o with
  | inr _ => EmittedUnclassified
  | inl res => f res
  end.

Definition onBody (res : Response) (unread : Verdict) (f : string -> Verdict)
    : Verdict :=
  match Body res with
  | inr _ => unread
  | inl body => f body
  end.

Definition abuseipdbVerdict (o : Response + error) : Verdict :=
  onResponse o (fun res =>
    onBody res EmittedUnclassified (fun body =>
      if is2xx (StatusCode res) then
        if Contains body "ipAddress" then Confirmed else EmittedUnclassified
      else Classified)).

Definition walkscoreVerdict (o : Response + error) : Verdict :=
  onResponse o (fun res =>
    onBody res DroppedUnclassified (fun body =>
      if is2xx (StatusCode res) && Contains body "distance" then Confirmed
      else Classified)).

Definition text2dataVerdict (o : Response + error) : Verdict :=
  onResponse o (fun res =>
    onBody res EmittedUnclassified (fun body =>
      if is2xx (StatusCode res) && Contains body Text2data.positiveSentiment
      then Confirmed
      else Classified)).

Definition currencycloudVerdict (o : Response + error) : Verdict :=
  onResponse o (fun res =>
    onBody res DroppedUnclassified (fun body =>
      if Contains body "auth_token" then Confirmed else Classified)).

(** verifier and paypaloauth look at the status only. *)
Definition statusVerdict (o : Response + error) : Verdict :=
  onResponse o (fun res =>
    if is2xx (StatusCode res) then Confirmed else Classified).

(** The loop body for a candidate in a verifying scan, by the verdict: a
    request that cannot be built leaves the state as it is. *)
Definition verifying (E : Env) (t : DetectorType) (raw : string)
    (st : LoopState) (build : Request + error)
    (verdict : Response + error -> Verdict) : LoopState :=
  match build with
  | inr _ => st
  | inl req =>
      let o := transport E (List.length (snd st)) req in
      settle E t raw st req o (verdict o)
  end.

(** The request okta builds for a token and a domain. *)
Definition oktaRequest (E : Env) (domain token : string) : Request + error :=
  withHeaders
    (NewRequestWithContext E "GET"
       ("https://" ++ domain ++ "/api/v1/groups?limit=1") None)
    (fun req =>
       Header_Set
         (Header_Set (Header_Set req "Accept" "application/json")
            "Content-Type" "application/json")
         "Authorization" ("SSWS " ++ token)).

(** The okta loop body: every candidate that is not verified is
    classified, whether the scan verifies or not; a failure to build or to
    send the request makes [FromData] return. *)
Definition oktaSettled (E : Env) (verify : bool) (token : string)
    (st : LoopState) (domain : string) : Flow :=
  if verify then
    match oktaRequest E domain token with
    | inr e => Returned st e
    | inl req =>
        match transport E (List.length (snd st)) req with
        | inr e => Returned (fst st, (snd st ++ [(req, inr e)])%list) e
        | inl resp =>
            Running (settle E DetectorType_Okta token st req (inl resp)
                       (if is2xx (StatusCode resp) then Confirmed
                        else Classified))
        end
    end
  else
    Running (if rejected E token then st
             else emit st (newResult DetectorType_Okta token)).

End DetectorVerdicts.

(* ================================================================== *)
(** * Properties                                                       *)
(* ================================================================== *)

Module SyslogProps.
Import GoError Syslog.

(** ** Helper facts *)

Lemma readInto_length (buf payload : list byte) :
  List.length (readInto buf payload) = List.length buf.
Proof.
  unfold readInto.
  rewrite length_app, length_firstn, length_skipn. lia.
Qed.

Lemma make_length (n : nat) : List.length (make n) = n.
Proof. apply repeat_length. Qed.

(** A packet that fits the buffer is followed by the untouched zeros. *)
Lemma readInto_make_short (n : nat) (payload : list byte) :
  List.length payload <= n ->
  readInto (make n) payload
  = (payload ++ repeat x00 (n - List.length payload))%list.
Proof.
  intros Hle. unfold readInto, make.
  rewrite repeat_length, firstn_all2 by exact Hle.
  f_equal.
  replace n with (List.length payload + (n - List.length payload)) at 1 by lia.
  rewrite repeat_app, skipn_app, repeat_length.
  rewrite skipn_all2 by (rewrite repeat_length; lia).
  rewrite Nat.sub_diag. reflexivity.
Qed.

(** A packet that overflows the buffer is cut at the buffer's size. *)
Lemma readInto_make_long (n : nat) (payload : list byte) :
  n <= List.length payload ->
  readInto (make n) payload = firstn n payload.
Proof.
  intros Hle. unfold readInto, make.
  rewrite repeat_length, skipn_all2 by (rewrite repeat_length; exact Hle).
  apply app_nil_r.
Qed.

Lemma parse_error_nil_metadata P s c sl input remote e :
  snd (parseSyslogMetadata P s c sl input remote) = Some e ->
  fst (parseSyslogMetadata P s c sl input remote) = None.
Proof.
  unfold parseSyslogMetadata.
  destruct (Format c =? "rfc5424").
  - destruct (rfc5424_UnmarshalBinary P input); simpl; congruence.
  - destruct (Format c =? "rfc3164").
    + destruct (rfc3164_Parse P input); simpl; congruence.
    + simpl; congruence.
Qed.

Lemma verifyConnectionConfig_error (c : Syslog_conn) :
  snd (verifyConnectionConfig c)
  = if (Protocol c =? "udp") && tlsEnabled c
    then Some (Errorf "TLS is not supported over UDP")
    else None.
Proof.
  unfold verifyConnectionConfig.
  destruct (Protocol c =? nilString) eqn:Hp.
  - apply String.eqb_eq in Hp. rewrite Hp. unfold nilString. simpl.
    destruct (tlsEnabled c); reflexivity.
  - destruct ((Protocol c =? "udp") && tlsEnabled c); reflexivity.
Qed.

(** ** Init and the protocol/TLS table *)

(** C4 (as stated, refuted): on the payload [udpTlsConn] (protocol "udp"
    with a TLS certificate) [Init] fails, but neither the message of the
    error it returns nor that of the innermost error is
    "TLS not supported over UDP". *)
Lemma C4_message_is_not_the_spec_text :
  exists e,
    snd (Init 4 emptySource "syslog" 0 0 false (AnySyslog udpTlsConn) 1) = Some e
    /\ Error e <> "TLS not supported over UDP"
    /\ Error (Cause e) <> "TLS not supported over UDP".
Proof.
  eexists. split; [reflexivity|]. split; simpl; discriminate.
Qed.

(** C4 (amended): on a payload that decodes, [Init] fails exactly when the
    configured protocol is "udp" and TLS certificate or key material is
    present; the error is then "TLS is not supported over UDP" wrapped
    with the prefix "invalid configuration", and for every other
    combination [Init] returns no error. *)
Theorem C4_init_rejects_exactly_udp_with_tls
    (numCPU : Z) (s : Source) (nm : string) (job sid : Z) (v : bool)
    (c : Syslog_conn) (conc : Z) :
  let r := snd (Init numCPU s nm job sid v (AnySyslog c) conc) in
  (r = if (Protocol c =? "udp") && tlsEnabled c
       then Some (WrapPrefix (Errorf "TLS is not supported over UDP")
                    "invalid configuration")
       else None)
  /\ (option_map Error r
      = if (Protocol c =? "udp") && tlsEnabled c
        then Some "invalid configuration: TLS is not supported over UDP"
        else None).
Proof.
  cbv zeta. unfold Init. simpl UnmarshalTo. cbv iota.
  pose proof (verifyConnectionConfig_error c) as He.
  destruct (verifyConnectionConfig c) as [c' r]. simpl in He. subst r.
  destruct ((Protocol c =? "udp") && tlsEnabled c); simpl; split; reflexivity.
Qed.

(** The listener opened for the accepted rows of the table. *)
Example transport_table :
  chooseTransport (mkConn "tcp" ":5140" "CERT" "KEY" "rfc3164") = inl TLSListener
  /\ chooseTransport (mkConn "tcp" ":5140" "" "" "rfc3164") = inl TCPListener
  /\ chooseTransport (mkConn "udp" ":5140" "" "" "rfc3164") = inl UDPListener.
Proof. repeat split. Qed.

(** ** Defaults *)

(** C7 (as stated, refuted): on [udpTlsConn] (protocol "udp", a TLS
    certificate, empty listen address and format) the connection is left
    with an empty listen address and an empty format. *)
Lemma C7_defaults_skipped_on_rejection :
  ListenAddress (fst (verifyConnectionConfig udpTlsConn)) = ""
  /\ Format (fst (verifyConnectionConfig udpTlsConn)) = ""
  /\ ListenAddress udpTlsConn = ""
  /\ Format udpTlsConn = "".
Proof. repeat split. Qed.

(** C7 (amended): [verifyConnectionConfig] always replaces an empty
    protocol by "tcp" when TLS material is present and by "udp" otherwise,
    and never changes a non-empty protocol or the TLS fields; when the
    configuration is accepted it replaces an empty listen address by
    ":5140" and an empty format by "rfc3164" and keeps non-empty ones;
    when the configuration is rejected (protocol "udp" with TLS material)
    listen address and format are left as they were given. *)
Theorem C7_connection_defaults (c : Syslog_conn) :
  let c' := fst (verifyConnectionConfig c) in
  let r := snd (verifyConnectionConfig c) in
  Protocol c' = (if Protocol c =? "" then
                   if tlsEnabled c then "tcp" else "udp"
                 else Protocol c)
  /\ TlsCert c' = TlsCert c
  /\ TlsKey c' = TlsKey c
  /\ ListenAddress c' = match r with
                        | None => if ListenAddress c =? "" then ":5140"
                                  else ListenAddress c
                        | Some _ => ListenAddress c
                        end
  /\ Format c' = match r with
                 | None => if Format c =? "" then "rfc3164" else Format c
                 | Some _ => Format c
                 end.
Proof.
  cbv zeta. unfold verifyConnectionConfig, nilString.
  destruct c as [p la cert key f]; simpl.
  destruct (p =? "") eqn:Hp; destruct (tlsEnabled _) eqn:Ht; simpl;
    try (destruct (p =? "udp") eqn:Hu; simpl);
    destruct (la =? "") eqn:Hl; simpl; destruct (f =? "") eqn:Hf; simpl;
    repeat split; reflexivity.
Qed.

(** ** Read buffers and emitted chunks *)

Lemma monitorConnection_data_length P s c sl remoteAddr turns :
  Forall (fun ch => List.length (Data ch) = tcpBufferSize)
         (monitorConnection P s c sl remoteAddr turns).
Proof.
  induction turns as [|t rest IH]; simpl; [constructor|].
  destruct (ctxDone t); [constructor|].
  destruct (result t) as [payload remote| |]; [|constructor|exact IH].
  destruct (parseSyslogMetadata _ _ _ _ _ _) as [md e].
  constructor; [|exact IH].
  simpl. rewrite readInto_length. apply make_length.
Qed.

Lemma acceptUDPConnections_data_length P s c sl turns :
  Forall (fun ch => List.length (Data ch) = udpBufferSize)
         (acceptUDPConnections P s c sl turns).
Proof.
  induction turns as [|t rest IH]; simpl; [constructor|].
  destruct (ctxDone t); [constructor|].
  destruct (result t) as [payload remote| |]; [|constructor|exact IH].
  destruct (parseSyslogMetadata _ _ _ _ _ _) as [md e].
  constructor; [|exact IH].
  simpl. rewrite readInto_length. apply make_length.
Qed.

(** What one successful UDP read puts on the channel: a single chunk
    whose data is the whole 65535-byte buffer. *)
Lemma acceptUDPConnections_one_packet P s c sl payload remote :
  acceptUDPConnections P s c sl [mkTurn false (ReadOk payload remote)]
  = [mkSyslogChunk s sl
       (fst (parseSyslogMetadata P s c sl
               (readInto (make udpBufferSize) payload) remote))
       (readInto (make udpBufferSize) payload)].
Proof.
  simpl. destruct (parseSyslogMetadata _ _ _ _ _ _) as [md e]. reflexivity.
Qed.

(** C9 (as stated, refuted): the chunk read from a TCP connection that
    delivers [hiPacket] holds a buffer that is not 8192 bytes long, and the
    one read from a UDP listener a buffer that is not 65536 bytes long. *)
Lemma C9_buffers_are_not_powers_of_two :
  Forall (fun ch => N.of_nat (List.length (Data ch)) <> 8192%N)
    (monitorConnection failingParsers sampleSource plainUdpConn sampleSyslog
       "10.0.0.1:514" [mkTurn false (ReadOk hiPacket "")])
  /\ Forall (fun ch => N.of_nat (List.length (Data ch)) <> 65536%N)
    (acceptUDPConnections failingParsers sampleSource plainUdpConn sampleSyslog
       [mkTurn false (ReadOk hiPacket "10.0.0.1:514")])
  /\ monitorConnection failingParsers sampleSource plainUdpConn sampleSyslog
       "10.0.0.1:514" [mkTurn false (ReadOk hiPacket "")] <> []
  /\ acceptUDPConnections failingParsers sampleSource plainUdpConn sampleSyslog
       [mkTurn false (ReadOk hiPacket "10.0.0.1:514")] <> [].
Proof.
  split; [|split; [|split; discriminate]].
  - eapply Forall_impl; [|apply monitorConnection_data_length].
    intros ch ->. unfold tcpBufferSize. rewrite N2Nat.id. discriminate.
  - eapply Forall_impl; [|apply acceptUDPConnections_data_length].
    intros ch ->. unfold udpBufferSize. rewrite N2Nat.id. discriminate.
Qed.

(** C9 (amended): every chunk read from a TCP connection carries a buffer
    of exactly 8096 bytes and every chunk read from the UDP listener a
    buffer of exactly 65535 bytes. *)
Theorem C9_read_buffer_sizes P s c sl remoteAddr turns :
  Forall (fun ch => N.of_nat (List.length (Data ch)) = 8096%N)
         (monitorConnection P s c sl remoteAddr turns)
  /\ Forall (fun ch => N.of_nat (List.length (Data ch)) = 65535%N)
         (acceptUDPConnections P s c sl turns).
Proof.
  split.
  - eapply Forall_impl; [|apply monitorConnection_data_length].
    intros ch ->. unfold tcpBufferSize. apply N2Nat.id.
  - eapply Forall_impl; [|apply acceptUDPConnections_data_length].
    intros ch ->. unfold udpBufferSize. apply N2Nat.id.
Qed.

(** C5 (the code at the failing input): the UDP listener receives the
    two-byte packet [hiPacket]; exactly one chunk is emitted, but its data
    is 65535 bytes long: the packet followed by 65533 zero bytes, not the
    packet. *)
Theorem C5_short_packet_is_padded :
  exists ch,
    acceptUDPConnections failingParsers sampleSource plainUdpConn sampleSyslog
      [mkTurn false (ReadOk hiPacket "10.0.0.1:514")] = [ch]
    /\ Data ch = (hiPacket ++ repeat x00 (N.to_nat 65533))%list
    /\ N.of_nat (List.length (Data ch)) = 65535%N
    /\ Data ch <> hiPacket.
Proof.
  eexists. split; [apply acceptUDPConnections_one_packet|].
  cbn [Data mkSyslogChunk].
  assert (Hd : readInto (make udpBufferSize) hiPacket
               = (hiPacket ++ repeat x00 (N.to_nat 65533))%list).
  { rewrite readInto_make_short.
    - replace (udpBufferSize - List.length hiPacket) with (N.to_nat 65533);
        [reflexivity|].
      unfold udpBufferSize. simpl List.length. lia.
    - unfold udpBufferSize. simpl List.length. lia. }
  split; [exact Hd|]. split.
  - rewrite readInto_length, make_length. unfold udpBufferSize. apply N2Nat.id.
  - intros H. apply (f_equal (@List.length byte)) in H.
    rewrite readInto_length, make_length in H.
    unfold udpBufferSize in H. simpl List.length in H. lia.
Qed.

(** The UDP listener emits one chunk per successful read made before
    cancellation or EOF, none for a failed read. *)
Lemma acceptUDPConnections_one_chunk_per_read P s c sl turns :
  List.length (acceptUDPConnections P s c sl turns) = successfulReads turns.
Proof.
  induction turns as [|t rest IH]; simpl; [reflexivity|].
  destruct (ctxDone t); [reflexivity|].
  destruct (result t) as [payload remote| |]; [|reflexivity|exact IH].
  destruct (parseSyslogMetadata _ _ _ _ _ _) as [md e].
  simpl. f_equal. exact IH.
Qed.

(** C6 (as stated, refuted): under format "rfc5424" the parser rejects
    the packet [hiPacket]; the chunk is emitted, but its metadata is the nil
    pointer, not a syslog record with empty fields. *)
Lemma C6_failed_parse_leaves_nil_metadata :
  exists ch,
    acceptUDPConnections failingParsers rfc5424Source rfc5424Conn sampleSyslog
      [mkTurn false (ReadOk hiPacket "10.0.0.1:514")] = [ch]
    /\ SourceMetadata ch = None
    /\ SourceMetadata ch <> Some (MetaData_Syslog (mkMeta "" "" "" "" "" "")).
Proof.
  eexists. split; [apply acceptUDPConnections_one_packet|].
  split.
  - reflexivity.
  - cbn. discriminate.
Qed.

(** C6 (amended): whenever parsing the buffer just read by the configured
    format returns an error, the chunk is still emitted and its metadata is
    nil; this holds of the UDP listener and of the TCP connection monitor,
    each on the parse of its own buffer. *)
Theorem C6_chunk_emitted_on_parse_failure
    P s c sl (payload : list byte) (remote remoteAddr : string)
    (rest : list Turn) :
  (forall e : error,
      snd (parseSyslogMetadata P s c sl
             (readInto (make udpBufferSize) payload) remote) = Some e ->
      acceptUDPConnections P s c sl
        (mkTurn false (ReadOk payload remote) :: rest)
      = mkSyslogChunk s sl None (readInto (make udpBufferSize) payload)
          :: acceptUDPConnections P s c sl rest)
  /\ (forall e : error,
        snd (parseSyslogMetadata P s c sl
               (readInto (make tcpBufferSize) payload) remoteAddr) = Some e ->
        monitorConnection P s c sl remoteAddr
          (mkTurn false (ReadOk payload remote) :: rest)
        = mkSyslogChunk s sl None (readInto (make tcpBufferSize) payload)
            :: monitorConnection P s c sl remoteAddr rest).
Proof.
  split; intros e He; apply parse_error_nil_metadata in He;
    cbn [acceptUDPConnections monitorConnection ctxDone result];
    cbv zeta;
    destruct (parseSyslogMetadata _ _ _ _ _ _) as [md e'];
    cbn [fst] in He; subst md; reflexivity.
Qed.

(** C6 (amended) at a concrete input: the two-byte packet [hiPacket] under
    format "rfc5424", with a parser that rejects it. *)
Lemma C6_chunk_emitted_on_parse_failure_witness :
  acceptUDPConnections failingParsers rfc5424Source rfc5424Conn sampleSyslog
    [mkTurn false (ReadOk hiPacket "10.0.0.1:514")]
  = [mkSyslogChunk rfc5424Source sampleSyslog None
       (readInto (make udpBufferSize) hiPacket)]
  /\ monitorConnection failingParsers rfc5424Source rfc5424Conn sampleSyslog
       "10.0.0.1:40000" [mkTurn false (ReadOk hiPacket "10.0.0.1:514")]
     = [mkSyslogChunk rfc5424Source sampleSyslog None
          (readInto (make tcpBufferSize) hiPacket)].
Proof.
  split.
  - apply (proj1 (C6_chunk_emitted_on_parse_failure failingParsers
                    rfc5424Source rfc5424Conn sampleSyslog hiPacket
                    "10.0.0.1:514" "10.0.0.1:40000" [])
             (WrapPrefix (Errorf "bad message")
                "could not parse syslog as rfc5424")).
    reflexivity.
  - apply (proj2 (C6_chunk_emitted_on_parse_failure failingParsers
                    rfc5424Source rfc5424Conn sampleSyslog hiPacket
                    "10.0.0.1:514" "10.0.0.1:40000" [])
             (WrapPrefix (Errorf "bad message")
                "could not parse syslog as rfc5424")).
    reflexivity.
Defined.

End SyslogProps.

Module SanitizerProps.
Import Utf8 Utf8Classes Strings Sanitizer SanitizerSpec.
Local Open Scope N_scope.

(** ** The decoder against the Unicode table *)

(** The class of a first byte, by the ranges of the table [first]. *)
Lemma first_cases (n : N) :
  (n < 0x80 /\ first n = as_)
  \/ ((0x80 <= n < 0xC2 \/ 0xF5 <= n) /\ first n = xx)
  \/ (0xC2 <= n < 0xE0 /\ first n = s1)
  \/ (n = 0xE0 /\ first n = s2)
  \/ ((0xE1 <= n < 0xED \/ 0xEE <= n < 0xF0) /\ first n = s3)
  \/ (n = 0xED /\ first n = s4)
  \/ (n = 0xF0 /\ first n = s5)
  \/ (0xF1 <= n < 0xF4 /\ first n = s6)
  \/ (n = 0xF4 /\ first n = s7).
Proof.
  unfold first.
  destruct (N.ltb_spec n 0x80); [tauto|].
  destruct (N.ltb_spec n 0xC2); [tauto|].
  destruct (N.ltb_spec n 0xE0); [tauto|].
  destruct (N.eqb_spec n 0xE0); [tauto|].
  destruct (N.ltb_spec n 0xED);
    [right; right; right; right; left; split; [lia|reflexivity]|].
  destruct (N.eqb_spec n 0xED); [tauto|].
  destruct (N.ltb_spec n 0xF0);
    [right; right; right; right; left; split; [lia|reflexivity]|].
  destruct (N.eqb_spec n 0xF0); [tauto|].
  destruct (N.ltb_spec n 0xF4); [do 7 right; left; split; [lia|reflexivity]|].
  destruct (N.eqb_spec n 0xF4); [tauto|].
  right; left. split; [lia|reflexivity].
Qed.

Ltac boolProps :=
  repeat match goal with
  | H : (_ || _)%bool = true |- _ => apply orb_true_iff in H; destruct H
  | H : (_ || _)%bool = false |- _ => apply orb_false_iff in H; destruct H
  | H : (_ && _)%bool = true |- _ => apply andb_true_iff in H; destruct H
  | H : (_ <? _) = true |- _ => apply N.ltb_lt in H
  | H : (_ <? _) = false |- _ => apply N.ltb_ge in H
  | H : (_ <=? _) = true |- _ => apply N.leb_le in H
  | H : (_ <=? _) = false |- _ => apply N.leb_gt in H
  | H : (_ =? _) = true |- _ => apply N.eqb_eq in H
  | H : (_ =? _) = false |- _ => apply N.eqb_neq in H
  end.

(** Evaluate the closed table look-ups left in [E] once the class of the
    first byte is known. *)
Ltac evalTableIn E :=
  repeat match type of E with
  | context [N.to_nat (N.land ?x 7)] =>
      let v := eval vm_compute in (N.to_nat (N.land x 7)) in
      change (N.to_nat (N.land x 7)) with v in E
  | context [acceptRanges ?e] =>
      let v := eval vm_compute in (acceptRanges e) in
      change (acceptRanges e) with v in E
  | context [as_ <=? ?x] =>
      let v := eval vm_compute in (as_ <=? x) in
      change (as_ <=? x) with v in E
  | context [N.odd ?x] =>
      let v := eval vm_compute in (N.odd x) in
      change (N.odd x) with v in E
  end;
  change (2 <=? 2)%nat with true in E;
  change (3 <=? 2)%nat with false in E;
  change (3 <=? 3)%nat with true in E;
  change (4 <=? 2)%nat with false in E;
  change (4 <=? 3)%nat with false in E;
  cbv beta iota in E; cbn [fst snd] in E.

Ltac stepIfs E :=
  repeat match type of E with
  | (if ?c then _ else _) = _ =>
      let C := fresh "C" in destruct c eqn:C
  end.

Ltac unitGoal :=
  unfold unitOK2, unitOK3, unitOK4, cont;
  rewrite ?andb_true_iff, ?orb_true_iff, ?andb_true_iff,
    ?N.leb_le, ?N.eqb_eq.

(** Width 1 is reported for an ASCII byte, or together with [RuneError]
    when no well-formed unit starts the string; width 2, 3 or 4 exactly
    when a well-formed unit of that length does. *)
Lemma decodeBytes_width (n : nat) (s0 b1 b2 b3 : N) :
  (1 <= n)%nat ->
  let w := snd (decodeBytes n s0 b1 b2 b3) in
  (w = 1%nat
   /\ (s0 < 0x80 \/ fst (decodeBytes n s0 b1 b2 b3) = RuneError)
   /\ ~ (2 <= n /\ unitOK2 s0 b1 = true)%nat
   /\ ~ (3 <= n /\ unitOK3 s0 b1 b2 = true)%nat
   /\ ~ (4 <= n /\ unitOK4 s0 b1 b2 b3 = true)%nat)
  \/ (w = 2%nat /\ (2 <= n)%nat /\ unitOK2 s0 b1 = true)
  \/ (w = 3%nat /\ (3 <= n)%nat /\ unitOK3 s0 b1 b2 = true)
  \/ (w = 4%nat /\ (4 <= n)%nat /\ unitOK4 s0 b1 b2 b3 = true).
Proof.
  intros Hn. cbv zeta.
  destruct (decodeBytes n s0 b1 b2 b3) as [r w] eqn:E. cbn [fst snd].
  unfold decodeBytes, locb, hicb in E.
  destruct (Nat.ltb_spec n 1); [lia|].
  destruct (first_cases s0) as
    [[H0 E0]|[[H0 E0]|[[H0 E0]|[[H0 E0]|[[H0 E0]|[[H0 E0]|[[H0 E0]|[[H0 E0]|[H0 E0]]]]]]]]];
    rewrite E0 in E; evalTableIn E.
  all: stepIfs E; injection E as <- <-; boolProps.
  all: repeat match goal with H : (_ <? _)%nat = _ |- _ =>
         first [apply Nat.ltb_lt in H | apply Nat.ltb_ge in H] end.
  all: first
    [ left; split; [reflexivity|]; split; [auto; lia|];
      repeat split; intros [? U]; revert U; unitGoal; lia
    | right; left; split; [reflexivity|]; split; [lia|]; unitGoal; lia
    | right; right; left; split; [reflexivity|]; split; [lia|]; unitGoal; lia
    | right; right; right; split; [reflexivity|]; split; [lia|]; unitGoal; lia ].
Qed.

Lemma unit_first_byte_high (u : list byte) :
  wellFormedUnit u = true ->
  Forall (fun c => 0x80 <= Byte.to_N c) u /\ (2 <= List.length u <= 4)%nat.
Proof.
  destruct u as [|c0 [|c1 [|c2 [|c3 [|c4 u]]]]]; cbn [wellFormedUnit];
    try discriminate.
  all: unitGoal; intros H; split; [|cbn [List.length]; lia].
  all: repeat constructor; lia.
Qed.

Lemma decode_ascii (b : byte) (t : list byte) :
  Byte.to_N b < RuneSelf -> DecodeRuneInString (b :: t) = (Byte.to_N b, 1%nat).
Proof.
  unfold RuneSelf, DecodeRuneInString, at_, decodeBytes.
  cbn [List.length nth Nat.ltb Nat.leb].
  generalize (Byte.to_N b) as n. intros n Hn.
  destruct (first_cases n) as [[_ ->]|H]; [reflexivity|].
  exfalso. decompose [and or] H; lia.
Qed.

(** What the decoder reports at the head of a non-empty string. *)
Lemma decode_cases (b : byte) (t : list byte) :
  let w := snd (DecodeRuneInString (b :: t)) in
  (w = 1%nat
   /\ (Byte.to_N b < RuneSelf \/ fst (DecodeRuneInString (b :: t)) = RuneError)
   /\ forall u r, b :: t = (u ++ r)%list -> wellFormedUnit u = false)
  \/ exists u r, b :: t = (u ++ r)%list /\ List.length u = w
                 /\ wellFormedUnit u = true.
Proof.
  cbv zeta. unfold DecodeRuneInString.
  assert (Hlen : (1 <= List.length (b :: t))%nat) by (cbn [List.length]; lia).
  pose proof (decodeBytes_width (List.length (b :: t)) (at_ (b :: t) 0)
                (at_ (b :: t) 1) (at_ (b :: t) 2) (at_ (b :: t) 3) Hlen) as H.
  cbv zeta in H.
  destruct H as [(Hw & Hr & N2 & N3 & N4)|[(Hw & Hn & U)|[(Hw & Hn & U)|(Hw & Hn & U)]]].
  - left. split; [exact Hw|]. split; [exact Hr|].
    intros u r Hu.
    destruct (wellFormedUnit u) eqn:Wu; [exfalso|reflexivity].
    destruct u as [|c0 [|c1 [|c2 [|c3 [|c4 u]]]]]; cbn [wellFormedUnit] in Wu;
      try discriminate; cbn [app] in Hu; rewrite Hu in N2, N3, N4;
      cbn [List.length at_ nth] in N2, N3, N4.
    + apply N2. split; [lia|exact Wu].
    + apply N3. split; [lia|exact Wu].
    + apply N4. split; [lia|exact Wu].
  - right. destruct t as [|c1 t]; [cbn [List.length] in Hn; lia|].
    exists [b; c1], t. rewrite Hw. repeat split. exact U.
  - right. destruct t as [|c1 [|c2 t]]; try (cbn [List.length] in Hn; lia).
    exists [b; c1; c2], t. rewrite Hw. repeat split. exact U.
  - right. destruct t as [|c1 [|c2 [|c3 t]]]; try (cbn [List.length] in Hn; lia).
    exists [b; c1; c2; c3], t. rewrite Hw. repeat split. exact U.
Qed.

(** At the head of a well-formed unit the decoder reports the unit's
    length. *)
Lemma decode_unit (u t : list byte) :
  wellFormedUnit u = true ->
  snd (DecodeRuneInString (u ++ t)) = List.length u.
Proof.
  intros Wu.
  destruct (unit_first_byte_high u Wu) as [_ Hlen].
  destruct u as [|c0 u]; [cbn [List.length] in Hlen; lia|].
  cbn [app]. destruct (decode_cases c0 (u ++ t)%list) as [(_ & _ & Hno)|(u' & r & Hs & Hl & Wu')].
  - rewrite (Hno (c0 :: u) t) in Wu; [discriminate|reflexivity].
  - rewrite <- Hl.
    destruct u as [|c1 [|c2 [|c3 [|c4 u]]]]; cbn [wellFormedUnit] in Wu; try discriminate;
    destruct u' as [|d0 [|d1 [|d2 [|d3 [|d4 u']]]]]; cbn [wellFormedUnit] in Wu'; try discriminate;
    cbn [app] in Hs; injection Hs as <-; try reflexivity; exfalso;
    revert Wu Wu'; unitGoal; lia.
Qed.

(** ** Validity of what [ToValidUTF8] returns *)

Lemma ValidUTF8_app (a b : list byte) :
  ValidUTF8 a -> ValidUTF8 b -> ValidUTF8 (a ++ b).
Proof.
  intros Ha Hb. induction Ha as [|c t Hc Ht IH|u t Hu Ht IH].
  - exact Hb.
  - cbn [app]. apply valid_ascii; assumption.
  - rewrite <- app_assoc. apply valid_unit; assumption.
Qed.

Lemma replacement_unit : wellFormedUnit replacement = true.
Proof. reflexivity. Qed.

Lemma toValidLoop_valid (fuel : nat) (s : list byte) (invalid : bool) :
  ValidUTF8 (toValidLoop fuel s replacement invalid).
Proof.
  revert s invalid. induction fuel as [|fuel IH]; intros s invalid;
    cbn [toValidLoop]; [constructor|].
  destruct s as [|c t]; [constructor|].
  destruct (N.ltb_spec (Byte.to_N c) RuneSelf) as [Hc|Hc].
  - apply valid_ascii; [exact Hc|apply IH].
  - destruct (decode_cases c t) as [(Hw & _ & _)|(u & r & Hs & Hl & Wu)].
    + destruct (DecodeRuneInString (c :: t)) as [rn wid]. cbn [snd] in Hw.
      subst wid. cbn [Nat.eqb].
      destruct invalid; cbn [negb]; [apply IH|].
      apply valid_unit; [exact replacement_unit|apply IH].
    + destruct (DecodeRuneInString (c :: t)) as [rn wid]. cbn [snd] in Hl.
      destruct (unit_first_byte_high u Wu) as [_ Hlen].
      destruct (Nat.eqb_spec wid 1) as [->|_]; [lia|].
      rewrite Hs, <- Hl, firstn_app, firstn_all, Nat.sub_diag, firstn_O, app_nil_r.
      apply valid_unit; [exact Wu|apply IH].
Qed.

(** The first loop returns [None] on valid strings, whatever the fuel. *)
Lemma firstInvalid_valid (s : list byte) :
  ValidUTF8 s -> forall fuel i, firstInvalid fuel s i = None.
Proof.
  induction 1 as [|c t Hc Ht IH|u t Wu Ht IH]; intros fuel i.
  - destruct fuel; reflexivity.
  - destruct fuel as [|fuel]; [reflexivity|]. cbn [firstInvalid].
    rewrite (decode_ascii c t Hc).
    assert (Hne : (Byte.to_N c =? RuneError) = false).
    { apply N.eqb_neq. unfold RuneSelf, RuneError in *. lia. }
    rewrite Hne. cbn [negb skipn]. apply IH.
  - destruct fuel as [|fuel]; [reflexivity|].
    destruct (unit_first_byte_high u Wu) as [_ Hlen].
    pose proof (decode_unit u t Wu) as Hd.
    destruct u as [|c0 u]; [cbn [List.length] in Hlen; lia|].
    cbn [app firstInvalid]. cbn [app] in Hd.
    destruct (DecodeRuneInString (c0 :: (u ++ t)%list)) as [rn wid].
    cbn [snd] in Hd. subst wid.
    assert (Hskip : skipn (List.length (c0 :: u)) (c0 :: (u ++ t)%list) = t).
    { change (c0 :: (u ++ t)%list) with ((c0 :: u) ++ t)%list.
      rewrite skipn_app, skipn_all, Nat.sub_diag. reflexivity. }
    rewrite Hskip.
    destruct (negb (rn =? RuneError)); [apply IH|].
    destruct (Nat.eqb_spec (List.length (c0 :: u)) 1) as [E|_]; [lia|apply IH].
Qed.

(** When the first loop finds an invalid byte at index [i], the prefix
    before it is valid; when it finds none, the whole string is. *)
Lemma firstInvalid_prefix (fuel : nat) :
  forall (s : list byte) (i0 : nat),
    (List.length s <= fuel)%nat ->
    match firstInvalid fuel s i0 with
    | None => ValidUTF8 s
    | Some i => (i0 <= i)%nat /\ ValidUTF8 (firstn (i - i0) s)
    end.
Proof.
  induction fuel as [|fuel IH]; intros s i0 Hfuel.
  - destruct s; [constructor|cbn [List.length] in Hfuel; lia].
  - cbn [firstInvalid]. destruct s as [|c t]; [constructor|].
    cbn [List.length] in Hfuel.
    destruct (decode_cases c t) as [(Hw & Hr & _)|(u & r & Hs & Hl & Wu)].
    + destruct (DecodeRuneInString (c :: t)) as [rn wid] eqn:Ed.
      cbn [snd fst] in Hw, Hr. subst wid. cbn [Nat.eqb skipn].
      destruct (N.eqb_spec rn RuneError) as [Ern|Ern]; cbn [negb].
      * split; [lia|]. rewrite Nat.sub_diag. constructor.
      * destruct Hr as [Hc|Hr]; [|contradiction].
        specialize (IH t (i0 + 1)%nat ltac:(lia)).
        destruct (firstInvalid fuel t (i0 + 1)) as [i|].
        -- destruct IH as [Hi Hv]. split; [lia|].
           replace (i - i0)%nat with (S (i - (i0 + 1)))%nat by lia.
           cbn [firstn]. apply valid_ascii; assumption.
        -- apply valid_ascii; assumption.
    + destruct (DecodeRuneInString (c :: t)) as [rn wid] eqn:Ed.
      cbn [snd] in Hl.
      destruct (unit_first_byte_high u Wu) as [_ Hlen].
      assert (Hskip : skipn wid (c :: t) = r).
      { rewrite Hs, <- Hl, skipn_app, skipn_all, Nat.sub_diag. reflexivity. }
      assert (Hrl : (List.length r <= fuel)%nat).
      { apply (f_equal (@List.length byte)) in Hs.
        rewrite length_app in Hs. cbn [List.length] in Hs. lia. }
      rewrite Hskip.
      specialize (IH r (i0 + wid)%nat Hrl).
      assert (Hres :
        match firstInvalid fuel r (i0 + wid) with
        | None => ValidUTF8 (c :: t)
        | Some i => (i0 <= i)%nat /\ ValidUTF8 (firstn (i - i0) (c :: t))
        end).
      { destruct (firstInvalid fuel r (i0 + wid)) as [i|].
        - destruct IH as [Hi Hv]. split; [lia|].
          rewrite Hs, firstn_app.
          rewrite firstn_all2 by lia.
          replace (i - i0 - List.length u)%nat with (i - (i0 + wid))%nat by lia.
          apply valid_unit; assumption.
        - rewrite Hs. apply valid_unit; assumption. }
      destruct (negb (rn =? RuneError)); [exact Hres|].
      destruct (Nat.eqb_spec wid 1) as [E|_]; [lia|exact Hres].
Qed.

Lemma ToValidUTF8_valid (s : list byte) : ValidUTF8 (ToValidUTF8 s replacement).
Proof.
  unfold ToValidUTF8.
  pose proof (firstInvalid_prefix (List.length s) s 0 (Nat.le_refl _)) as H.
  destruct (firstInvalid (List.length s) s 0) as [i|]; [|exact H].
  destruct H as [_ Hv]. rewrite Nat.sub_0_r in Hv.
  apply ValidUTF8_app; [exact Hv|apply toValidLoop_valid].
Qed.

Lemma ToValidUTF8_fixes_valid (s r : list byte) :
  ValidUTF8 s -> ToValidUTF8 s r = s.
Proof.
  intros Hv. unfold ToValidUTF8. rewrite (firstInvalid_valid s Hv). reflexivity.
Qed.

(** ** Fuel

    Both loops of [ToValidUTF8] are run with the length of their input as
    fuel; any fuel that covers the input gives the same result, so the
    loops never stop short of the end of the string. *)

Lemma decode_width_pos (c : byte) (t : list byte) :
  (1 <= snd (DecodeRuneInString (c :: t)))%nat.
Proof.
  destruct (decode_cases c t) as [(Hw & _)|(u & r & _ & Hl & Wu)].
  - lia.
  - destruct (unit_first_byte_high u Wu) as [_ Hlen]. lia.
Qed.

Lemma toValidLoop_fuel (f1 : nat) :
  forall (f2 : nat) (s r : list byte) (invalid : bool),
    (List.length s <= f1)%nat -> (List.length s <= f2)%nat ->
    toValidLoop f1 s r invalid = toValidLoop f2 s r invalid.
Proof.
  induction f1 as [|f1 IH]; intros f2 s r invalid H1 H2.
  - destruct s; [destruct f2; reflexivity|cbn [List.length] in H1; lia].
  - destruct s as [|c t]; [destruct f2; reflexivity|].
    destruct f2 as [|f2]; [cbn [List.length] in H2; lia|].
    cbn [List.length] in H1, H2. cbn [toValidLoop].
    pose proof (decode_width_pos c t) as Hpos.
    destruct (DecodeRuneInString (c :: t)) as [rn wid]. cbn [snd] in Hpos.
    assert (Hs : (List.length (skipn wid (c :: t)) <= List.length t)%nat).
    { rewrite length_skipn. cbn [List.length]. lia. }
    rewrite (IH f2 t r false), (IH f2 t r true),
      (IH f2 (skipn wid (c :: t)) r false) by lia.
    reflexivity.
Qed.

Lemma firstInvalid_fuel (f1 : nat) :
  forall (f2 : nat) (s : list byte) (i : nat),
    (List.length s <= f1)%nat -> (List.length s <= f2)%nat ->
    firstInvalid f1 s i = firstInvalid f2 s i.
Proof.
  induction f1 as [|f1 IH]; intros f2 s i H1 H2.
  - destruct s; [destruct f2; reflexivity|cbn [List.length] in H1; lia].
  - destruct s as [|c t]; [destruct f2; reflexivity|].
    destruct f2 as [|f2]; [cbn [List.length] in H2; lia|].
    cbn [List.length] in H1, H2. cbn [firstInvalid].
    pose proof (decode_width_pos c t) as Hpos.
    destruct (DecodeRuneInString (c :: t)) as [rn wid]. cbn [snd] in Hpos.
    assert (Hs : (List.length (skipn wid (c :: t)) <= List.length t)%nat).
    { rewrite length_skipn. cbn [List.length]. lia. }
    rewrite (IH f2 (skipn wid (c :: t)) (i + wid)%nat) by lia.
    reflexivity.
Qed.

(** ** Stripping NULs *)

Lemma replaceLoop_strips_NUL (fuel : nat) :
  forall (s : list byte) (n : Z),
    (List.length s <= fuel)%nat -> (n < 0)%Z ->
    replaceLoop fuel s [x00] [] n = filter notNUL s.
Proof.
  induction fuel as [|fuel IH]; intros s n Hfuel Hn.
  - destruct s; [reflexivity|cbn [List.length] in Hfuel; lia].
  - cbn [replaceLoop].
    destruct (Z.eqb_spec n 0) as [E|_]; [lia|].
    destruct s as [|c t]; [reflexivity|].
    cbn [List.length] in Hfuel.
    cbn [hasPrefix filter List.length skipn app]. unfold notNUL at 1.
    rewrite andb_true_r.
    destruct (Byte.eqb x00 c); cbn [negb].
    + apply IH; lia.
    + f_equal. apply IH; lia.
Qed.

Lemma Replace_strips_NUL (s : list byte) :
  Replace s [x00] [] (-1) = filter notNUL s.
Proof.
  unfold Replace. cbn [bytes_eqb List.length Nat.eqb andb orb Z.eqb].
  apply replaceLoop_strips_NUL; lia.
Qed.

Lemma UTF8_unfold (x : list byte) :
  UTF8 x = filter notNUL (ToValidUTF8 x replacement).
Proof. apply Replace_strips_NUL. Qed.

Lemma notNUL_high (c : byte) : 0x80 <= Byte.to_N c -> notNUL c = true.
Proof.
  intros Hc. unfold notNUL.
  destruct (Byte.eqb x00 c) eqn:E; [|reflexivity].
  apply Byte.byte_dec_bl in E. subst c. cbn in Hc. lia.
Qed.

(** Removing NULs from a valid string leaves a valid string: a NUL is an
    ASCII byte on its own and never part of a multi-byte unit. *)
Lemma filter_notNUL_valid (s : list byte) :
  ValidUTF8 s -> ValidUTF8 (filter notNUL s).
Proof.
  induction 1 as [|c t Hc Ht IH|u t Wu Ht IH].
  - constructor.
  - cbn [filter]. destruct (notNUL c); [apply valid_ascii; assumption|exact IH].
  - rewrite filter_app.
    destruct (unit_first_byte_high u Wu) as [Hhigh _].
    assert (Hu : filter notNUL u = u).
    { clear Wu. induction Hhigh as [|c u Hc Hu IHu]; [reflexivity|].
      cbn [filter]. rewrite (notNUL_high c Hc). f_equal. exact IHu. }
    rewrite Hu. apply valid_unit; assumption.
Qed.

Lemma filter_idempotent {A : Type} (f : A -> bool) (l : list A) :
  filter f (filter f l) = filter f l.
Proof.
  induction l as [|a l IH]; [reflexivity|].
  cbn [filter]. destruct (f a) eqn:E; [|exact IH].
  cbn [filter]. rewrite E. f_equal. exact IH.
Qed.

Lemma UTF8_valid (x : list byte) : ValidUTF8 (UTF8 x).
Proof.
  rewrite UTF8_unfold. apply filter_notNUL_valid, ToValidUTF8_valid.
Qed.

Lemma UTF8_no_NUL (x : list byte) : ~ In x00 (UTF8 x).
Proof.
  rewrite UTF8_unfold. intros H. apply filter_In in H. destruct H as [_ H].
  discriminate H.
Qed.

(** ** The second loop of [ToValidUTF8] on well-formed text *)

(** The loop copies a valid prefix and goes on after it with the flag
    cleared. *)
Lemma toValidLoop_copies_valid (a : list byte) :
  ValidUTF8 a ->
  forall (fuel : nat) (b r : list byte) (invalid : bool),
    (List.length (a ++ b) <= fuel)%nat ->
    toValidLoop fuel (a ++ b) r invalid
    = a ++ toValidLoop (List.length b) b r
             (match a with [] => invalid | _ :: _ => false end).
Proof.
  induction 1 as [|c t Hc Ht IH|u t Wu Ht IH]; intros fuel b r invalid Hfuel.
  - cbn [app] in *. apply toValidLoop_fuel; lia.
  - cbn [app List.length] in *.
    destruct fuel as [|fuel]; [lia|]. cbn [toValidLoop].
    apply N.ltb_lt in Hc. rewrite Hc. f_equal.
    rewrite IH by lia. destruct t; reflexivity.
  - destruct (unit_first_byte_high u Wu) as [Hhigh Hlen].
    pose proof (decode_unit u (t ++ b) Wu) as Hd.
    rewrite <- app_assoc in *.
    destruct u as [|c0 u]; [cbn [List.length] in Hlen; lia|].
    cbn [app List.length] in *.
    destruct fuel as [|fuel]; [lia|]. cbn [toValidLoop].
    assert (Hc0 : (Byte.to_N c0 <? RuneSelf) = false).
    { apply N.ltb_ge. inversion Hhigh; subst. assumption. }
    rewrite Hc0.
    destruct (DecodeRuneInString (c0 :: u ++ t ++ b)) as [rn wid].
    cbn [snd] in Hd. subst wid.
    destruct (Nat.eqb_spec (S (List.length u)) 1) as [E|_]; [lia|].
    change (c0 :: u ++ t ++ b) with ((c0 :: u) ++ t ++ b).
    change (S (List.length u)) with (List.length (c0 :: u)).
    rewrite firstn_app, firstn_all, Nat.sub_diag, firstn_O, app_nil_r.
    rewrite skipn_app, skipn_all, Nat.sub_diag. cbn [skipn app].
    rewrite IH by (rewrite !length_app in *; lia).
    rewrite <- !app_assoc. cbn [app].
    destruct t; reflexivity.
Qed.

(** [ToValidUTF8] is its second loop run from the start of the string: the
    fast path and the copied prefix change nothing. *)
Lemma ToValidUTF8_loop (s r : list byte) :
  ToValidUTF8 s r = toValidLoop (List.length s) s r false.
Proof.
  unfold ToValidUTF8.
  pose proof (firstInvalid_prefix (List.length s) s 0 (Nat.le_refl _)) as H.
  destruct (firstInvalid (List.length s) s 0) as [i|].
  - destruct H as [_ Hv]. rewrite Nat.sub_0_r in Hv.
    pose proof (toValidLoop_copies_valid _ Hv (List.length s) (skipn i s) r
                  false) as Hc.
    rewrite firstn_skipn in Hc. rewrite Hc by apply Nat.le_refl.
    destruct (firstn i s); reflexivity.
  - pose proof (toValidLoop_copies_valid _ H (List.length s) [] r false) as Hc.
    rewrite app_nil_r in Hc. rewrite Hc by apply Nat.le_refl.
    cbn [List.length toValidLoop]. symmetry. apply app_nil_r.
Qed.

Lemma filter_notNUL_id (x : list byte) :
  ~ In x00 x -> filter notNUL x = x.
Proof.
  induction x as [|c x IH]; intros Hn; [reflexivity|].
  cbn [filter]. unfold notNUL at 1.
  destruct (Byte.eqb x00 c) eqn:E.
  - apply Byte.byte_dec_bl in E. exfalso. apply Hn. left. symmetry. exact E.
  - cbn [negb]. f_equal. apply IH. intros H. apply Hn. right. exact H.
Qed.

Lemma UTF8_after_valid (a b : list byte) :
  ValidUTF8 a ->
  UTF8 (a ++ b) = filter notNUL a ++ UTF8 b.
Proof.
  intros Hv.
  rewrite !UTF8_unfold, !ToValidUTF8_loop.
  rewrite (toValidLoop_copies_valid a Hv) by apply Nat.le_refl.
  rewrite filter_app.
  destruct a; reflexivity.
Qed.

(** ** Runs of bytes that cannot start a sequence *)

(** A byte that cannot start a sequence is decoded as [RuneError] with
    width 1, whatever follows it. *)
Lemma decode_stray (c : byte) (t : list byte) :
  strayByte c = true ->
  (Byte.to_N c <? RuneSelf) = false
  /\ snd (DecodeRuneInString (c :: t)) = 1%nat.
Proof.
  unfold strayByte, RuneSelf, DecodeRuneInString, at_, decodeBytes.
  cbn [List.length nth Nat.ltb Nat.leb].
  generalize (Byte.to_N c) as n. intros n Hn.
  apply N.eqb_eq in Hn. rewrite Hn. cbn [snd].
  split; [|reflexivity].
  apply N.ltb_ge.
  destruct (first_cases n) as [[H0 E0]|H]; [rewrite E0 in Hn; discriminate|].
  decompose [and or] H; lia.
Qed.

Lemma toValidLoop_stray_run (l : list byte) :
  l <> [] -> forallb strayByte l = true ->
  forall (fuel : nat) (b r : list byte) (invalid : bool),
    ValidUTF8 b ->
    (List.length (l ++ b) <= fuel)%nat ->
    toValidLoop fuel (l ++ b) r invalid
    = (if invalid then [] else r) ++ b.
Proof.
  induction l as [|c l IH]; intros Hne Hall fuel b r invalid Hb Hfuel;
    [congruence|].
  cbn [forallb] in Hall. apply andb_true_iff in Hall. destruct Hall as [Hc Hl].
  cbn [app List.length] in *.
  destruct fuel as [|fuel]; [lia|]. cbn [toValidLoop].
  destruct (decode_stray c (l ++ b) Hc) as [Hhigh Hw].
  rewrite Hhigh.
  destruct (DecodeRuneInString (c :: l ++ b)) as [rn wid].
  cbn [snd] in Hw. subst wid. cbn [Nat.eqb].
  assert (Hrest : toValidLoop fuel (l ++ b) r true = b).
  { destruct l as [|c' l'].
    - cbn [app] in *.
      pose proof (toValidLoop_copies_valid b Hb fuel [] r true) as Hcopy.
      rewrite app_nil_r in Hcopy. rewrite Hcopy by lia.
      cbn [List.length toValidLoop]. apply app_nil_r.
    - rewrite IH by (try congruence; try assumption; lia). reflexivity. }
  rewrite Hrest. destruct invalid; reflexivity.
Qed.

(** ** The sanitizer against its description *)

Lemma unitAt_None (s : list byte) :
  (forall u r, s = u ++ r -> wellFormedUnit u = false) -> unitAt s = None.
Proof.
  intros H. unfold unitAt. cbn [find].
  rewrite (H (firstn 2 s) (skipn 2 s)) by (symmetry; apply firstn_skipn).
  rewrite (H (firstn 3 s) (skipn 3 s)) by (symmetry; apply firstn_skipn).
  rewrite (H (firstn 4 s) (skipn 4 s)) by (symmetry; apply firstn_skipn).
  reflexivity.
Qed.

Lemma firstn_own_length (k : nat) (s : list byte) :
  firstn (List.length (firstn k s)) s = firstn k s.
Proof.
  rewrite length_firstn.
  destruct (Nat.le_ge_cases k (List.length s)) as [H|H].
  - rewrite Nat.min_l by exact H. reflexivity.
  - rewrite Nat.min_r by exact H.
    rewrite firstn_all, firstn_all2 by exact H. reflexivity.
Qed.

Lemma unitAt_Some (u r : list byte) :
  wellFormedUnit u = true -> unitAt (u ++ r) = Some u.
Proof.
  intros Wu.
  assert (Hu : firstn (List.length u) (u ++ r) = u).
  { rewrite firstn_app, firstn_all, Nat.sub_diag, firstn_O. apply app_nil_r. }
  assert (Hpre : forall k, wellFormedUnit (firstn k (u ++ r)) = true ->
                           firstn k (u ++ r) = u).
  { intros k Wk.
    pose proof (decode_unit u r Wu) as H1.
    pose proof (decode_unit (firstn k (u ++ r)) (skipn k (u ++ r)) Wk) as H2.
    rewrite firstn_skipn in H2. rewrite H1 in H2.
    rewrite <- (firstn_own_length k (u ++ r)), <- H2. exact Hu. }
  unfold unitAt. cbn [find].
  destruct (wellFormedUnit (firstn 2 (u ++ r))) eqn:W2;
    [f_equal; apply Hpre, W2|].
  destruct (wellFormedUnit (firstn 3 (u ++ r))) eqn:W3;
    [f_equal; apply Hpre, W3|].
  destruct (wellFormedUnit (firstn 4 (u ++ r))) eqn:W4;
    [f_equal; apply Hpre, W4|].
  exfalso.
  destruct (unit_first_byte_high u Wu) as [_ Hlen].
  assert (Hk : (List.length u = 2 \/ List.length u = 3 \/ List.length u = 4)%nat)
    by lia.
  destruct Hk as [Hk|[Hk|Hk]]; rewrite Hk in Hu; congruence.
Qed.

Lemma filter_notNUL_unit (u : list byte) :
  wellFormedUnit u = true -> filter notNUL u = u.
Proof.
  intros Wu. destruct (unit_first_byte_high u Wu) as [Hhigh _].
  clear Wu. induction Hhigh as [|c u Hc Hu IHu]; [reflexivity|].
  cbn [filter]. rewrite (notNUL_high c Hc). f_equal. exact IHu.
Qed.

(** The code computes what the specification words: stripping the NULs
    from what the second loop of [ToValidUTF8] builds is [sanitized]. *)
Lemma toValidLoop_sanitized (fuel : nat) :
  forall (s : list byte) (invalid : bool),
    filter notNUL (toValidLoop fuel s replacement invalid)
    = sanitized fuel s invalid.
Proof.
  induction fuel as [|fuel IH]; intros s invalid;
    cbn [toValidLoop sanitized]; [reflexivity|].
  destruct s as [|c t]; [reflexivity|].
  change RuneSelf with 0x80.
  destruct (Byte.to_N c <? 0x80) eqn:Hc.
  - cbn [filter]. unfold notNUL at 1.
    destruct (Byte.eqb x00 c); cbn [negb app]; rewrite IH; reflexivity.
  - destruct (decode_cases c t) as [(Hw & _ & Hno)|(u & r & Hs & Hl & Wu)].
    + destruct (DecodeRuneInString (c :: t)) as [rn wid]. cbn [snd] in Hw.
      subst wid. cbn [Nat.eqb].
      rewrite (unitAt_None (c :: t) Hno).
      destruct invalid; cbn [negb].
      * apply IH.
      * rewrite filter_app, IH. reflexivity.
    + destruct (DecodeRuneInString (c :: t)) as [rn wid]. cbn [snd] in Hl.
      destruct (unit_first_byte_high u Wu) as [_ Hlen].
      destruct (Nat.eqb_spec wid 1) as [E|_]; [lia|].
      rewrite Hs, (unitAt_Some u r Wu), <- Hl.
      rewrite firstn_app, firstn_all, Nat.sub_diag, firstn_O, app_nil_r.
      rewrite filter_app, (filter_notNUL_unit u Wu), IH. reflexivity.
Qed.

Lemma UTF8_sanitizeSpec (x : list byte) : UTF8 x = sanitizeSpec x.
Proof.
  rewrite UTF8_unfold, ToValidUTF8_loop. apply toValidLoop_sanitized.
Qed.

(** C8: the sanitizer is idempotent, and its output contains no NUL byte
    and is valid UTF-8 (a sequence of ASCII bytes and well-formed
    multi-byte units).  The output is what the description says, byte by
    byte ([sanitizeSpec]): ASCII bytes are kept except NUL, which is
    stripped, well-formed units are kept, and every run of bytes that are
    neither is replaced by one replacement character.  In particular valid
    input only loses its NUL bytes, and between valid text a non-empty run
    of bytes that cannot start a sequence becomes exactly the three bytes
    of the replacement character. *)
Theorem C8_sanitizer_idempotent_nul_free_valid (x : list byte) :
  UTF8 (UTF8 x) = UTF8 x
  /\ ~ In x00 (UTF8 x)
  /\ ValidUTF8 (UTF8 x)
  /\ UTF8 x = sanitizeSpec x
  /\ (ValidUTF8 x -> UTF8 x = filter notNUL x)
  /\ (forall a l b : list byte,
        x = (a ++ l ++ b)%list ->
        ValidUTF8 a -> ValidUTF8 b ->
        l <> [] -> forallb strayByte l = true ->
        UTF8 x = (filter notNUL a ++ replacement ++ filter notNUL b)%list).
Proof.
  split; [|split; [apply UTF8_no_NUL|split; [apply UTF8_valid|]]].
  - rewrite (UTF8_unfold (UTF8 x)).
    rewrite (ToValidUTF8_fixes_valid _ _ (UTF8_valid x)).
    rewrite UTF8_unfold. apply filter_idempotent.
  - split; [apply UTF8_sanitizeSpec|]. split.
    + intros Hv. rewrite UTF8_unfold, ToValidUTF8_fixes_valid by exact Hv.
      reflexivity.
    + intros a l b -> Ha Hb Hne Hl.
      rewrite (UTF8_after_valid a (l ++ b) Ha). f_equal.
      rewrite UTF8_unfold, ToValidUTF8_loop.
      rewrite (toValidLoop_stray_run l Hne Hl)
        by (try assumption; apply Nat.le_refl).
      rewrite filter_app. reflexivity.
Qed.

(** Runs of invalid bytes become one replacement character each and NULs
    disappear, on a sample input: "a", 0xFF, "b", 0xC0 0xAF, NUL, "c". *)
Example UTF8_sample :
  UTF8 [x61; xff; x62; xc0; xaf; x00; x63]
  = [x61; xe2; x9d; x97; x62; xe2; x9d; x97; x63].
Proof. reflexivity. Qed.

End SanitizerProps.

Module DetectorProps.
Import GoError Regexp Detectors DetectorSteps DetectorWire DetectorVerdicts.

(** ** Loops *)

Lemma fold_left_invariant {A S : Type} (P : S -> Prop) (f : S -> A -> S)
    (l : list A) (s : S) :
  P s -> (forall s a, P s -> P (f s a)) -> P (fold_left f l s).
Proof.
  intros Hs Hf. revert s Hs.
  induction l as [|a l IH]; intros s Hs; cbn [fold_left]; auto.
Qed.

(** ** CleanResults *)

Lemma pickResult_In raw rs r : pickResult raw rs = Some r -> In r rs.
Proof.
  unfold pickResult.
  destruct (find _ rs) as [v|] eqn:F.
  - intros [= <-]. apply find_some in F. tauto.
  - intros F'. apply find_some in F'. tauto.
Qed.

Lemma CleanResults_In rs r : In r (CleanResults rs) -> In r rs.
Proof.
  unfold CleanResults. intros H. apply in_flat_map in H.
  destruct H as (raw & _ & H).
  destruct (pickResult raw rs) as [r'|] eqn:P; [|contradiction].
  destruct H as [<-|[]]. eapply pickResult_In; eassumption.
Qed.

Lemma CleanResults_keeps_verified rs r :
  In r rs -> Verified r = true ->
  exists r', In r' (CleanResults rs) /\ Raw r' = Raw r /\ Verified r' = true.
Proof.
  intros Hin Hv.
  destruct (find (fun x => (Raw x =? Raw r) && Verified x) rs) as [v|] eqn:F.
  - exists v. pose proof (find_some _ _ F) as [Hv1 Hv2].
    apply andb_true_iff in Hv2. destruct Hv2 as [Hraw Hver].
    apply String.eqb_eq in Hraw. split; [|split; assumption].
    unfold CleanResults. apply in_flat_map. exists (Raw r). split.
    + apply nodup_In, in_map, Hin.
    + unfold pickResult. rewrite F. left. reflexivity.
  - exfalso. apply (find_none _ _ F) in Hin.
    rewrite String.eqb_refl, Hv in Hin. discriminate.
Qed.

(** ** Steps *)

Section StepFacts.
Variable E : Env.
Variable success : Response -> bool.
Variable link : Request -> string -> Prop.
Variable bypass : Response + error -> Prop.
Variable plainBypass : Prop.
Variable t : DetectorType.
Variable verify : bool.

Local Abbreviation Step' := (Step E success link bypass plainBypass t verify).
Local Abbreviation Backed' := (Backed success link).
Local Abbreviation Gated' := (Gated E link bypass plainBypass verify).
Local Abbreviation Kept' := (Kept E success link bypass plainBypass verify).

Lemma stepSkip raw (st st' : LoopState) :
  st' = (fst st, snd st) -> Step' raw st st'.
Proof. intros ->. destruct st. apply StepSkip. Qed.

Lemma stepDropped raw (st st' : LoopState) req o :
  st' = (fst st, snd st ++ [(req, o)]) ->
  verify = true ->
  link req raw ->
  transport E (List.length (snd st)) req = o ->
  notConfirmed success o ->
  Step' raw st st'.
Proof.
  intros -> Hv Hl Ho Hn. subst o. apply StepDropped; assumption.
Qed.

Lemma stepUnverified raw (st st' : LoopState) req o :
  st' = emit (fst st, snd st ++ [(req, o)]) (newResult t raw) ->
  verify = true ->
  link req raw ->
  transport E (List.length (snd st)) req = o ->
  notConfirmed success o ->
  bypass o \/ rejected E raw = false ->
  Step' raw st st'.
Proof.
  intros -> Hv Hl Ho Hn Hb. subst o. apply StepUnverified; assumption.
Qed.

Lemma stepVerified raw (st st' : LoopState) req res :
  st' = emit (fst st, snd st ++ [(req, inl res)])
             (setVerified (newResult t raw) true) ->
  verify = true ->
  link req raw ->
  transport E (List.length (snd st)) req = inl res ->
  success res = true ->
  Step' raw st st'.
Proof.
  intros -> Hv Hl Ho Hs.
  pose proof (StepVerified E success link bypass plainBypass t verify
                raw st req res Hv Hl Ho Hs) as H.
  unfold exchanged, outcome in H. rewrite Ho in H. exact H.
Qed.

Lemma Step_Backed net0 raw st st' :
  Backed' net0 st -> Step' raw st st' -> Backed' net0 st'.
Proof.
  intros (added & Hnet & Hs & Hc) HS.
  destruct HS as [|Hv Hp|req Hv Hl Hn|req Hv Hl Hn Hb|req res Hv Hl Ho Hsucc].
  - exists added. auto.
  - exists added. cbn [emit fst snd]. split; [exact Hnet|]. split.
    + intros r Hr Hvr. apply in_app_or in Hr. destruct Hr as [Hr|[<-|[]]].
      * apply Hs; assumption.
      * discriminate Hvr.
    + intros req res Hin Hsu. destruct (Hc req res Hin Hsu) as (r & Hr & Hvr).
      exists r. split; [apply in_or_app; left; exact Hr|exact Hvr].
  - exists (added ++ [(req, outcome E st req)]).
    cbn [fst snd]. unfold exchanged.
    split; [rewrite Hnet, app_assoc; reflexivity|]. split.
    + intros r Hr Hvr. destruct (Hs r Hr Hvr) as (rq & rs & Hin & H').
      exists rq, rs. split; [apply in_or_app; left; exact Hin|exact H'].
    + intros rq rs Hin Hsu. apply in_app_or in Hin.
      destruct Hin as [Hin|[Heq|[]]]; [eapply Hc; eassumption|].
      injection Heq as <- Heq. rewrite Heq in Hn. cbn in Hn. congruence.
  - exists (added ++ [(req, outcome E st req)]).
    cbn [emit fst snd]. unfold exchanged.
    split; [rewrite Hnet, app_assoc; reflexivity|]. split.
    + intros r Hr Hvr. apply in_app_or in Hr. destruct Hr as [Hr|[<-|[]]].
      * destruct (Hs r Hr Hvr) as (rq & rs & Hin & H').
        exists rq, rs. split; [apply in_or_app; left; exact Hin|exact H'].
      * discriminate Hvr.
    + intros rq rs Hin Hsu. apply in_app_or in Hin.
      destruct Hin as [Hin|[Heq|[]]].
      * destruct (Hc rq rs Hin Hsu) as (r & Hr & Hvr).
        exists r. split; [apply in_or_app; left; exact Hr|exact Hvr].
      * injection Heq as <- Heq. rewrite Heq in Hn. cbn in Hn. congruence.
  - exists (added ++ [(req, outcome E st req)]).
    cbn [emit fst snd]. unfold exchanged.
    split; [rewrite Hnet, app_assoc; reflexivity|]. split.
    + intros r Hr Hvr. apply in_app_or in Hr. destruct Hr as [Hr|[<-|[]]].
      * destruct (Hs r Hr Hvr) as (rq & rs & Hin & H').
        exists rq, rs. split; [apply in_or_app; left; exact Hin|exact H'].
      * exists req, res. split; [|split; assumption].
        apply in_or_app; right. rewrite Ho. left. reflexivity.
    + intros rq rs Hin Hsu. apply in_app_or in Hin.
      destruct Hin as [Hin|[Heq|[]]].
      * destruct (Hc rq rs Hin Hsu) as (r & Hr & Hvr).
        exists r. split; [apply in_or_app; left; exact Hr|exact Hvr].
      * injection Heq as <- _.
        exists (setVerified (newResult t raw) true).
        split; [apply in_or_app; right; left; reflexivity|].
        split; [reflexivity|exact Hl].
Qed.

Lemma Gated_more (added : Net) rs (extra : Net) :
  Forall (fun r =>
            Verified r = true
            \/ rejected E (Raw r) = false
            \/ (verify = false /\ plainBypass)
            \/ exists req o, In (req, o) added /\ bypass o
                             /\ link req (Raw r)) rs ->
  Forall (fun r =>
            Verified r = true
            \/ rejected E (Raw r) = false
            \/ (verify = false /\ plainBypass)
            \/ exists req o, In (req, o) (added ++ extra) /\ bypass o
                             /\ link req (Raw r)) rs.
Proof.
  apply Forall_impl. intros r [H|[H|[H|(req & o & Hin & H)]]]; auto.
  do 3 right. exists req, o. split; [apply in_or_app; left; exact Hin|exact H].
Qed.

Lemma Step_Gated net0 raw st st' :
  Gated' net0 st -> Step' raw st st' -> Gated' net0 st'.
Proof.
  intros (added & Hnet & Hall) HS.
  destruct HS as [|Hv Hp|req Hv Hl Hn|req Hv Hl Hn Hb|req res Hv Hl Ho Hsucc].
  - exists added. auto.
  - exists added. cbn [emit fst snd]. split; [exact Hnet|].
    apply Forall_app. split; [exact Hall|].
    apply Forall_cons; [|apply Forall_nil].
    cbn [Raw newResult]. tauto.
  - exists (added ++ [(req, outcome E st req)]).
    cbn [fst snd]. unfold exchanged.
    split; [rewrite Hnet, app_assoc; reflexivity|].
    apply Gated_more, Hall.
  - exists (added ++ [(req, outcome E st req)]).
    cbn [emit fst snd]. unfold exchanged.
    split; [rewrite Hnet, app_assoc; reflexivity|].
    apply Forall_app. split; [apply Gated_more, Hall|].
    apply Forall_cons; [|apply Forall_nil]. cbn [Raw newResult].
    destruct Hb as [Hb|Hb]; [|tauto].
    do 3 right. exists req, (outcome E st req).
    split; [apply in_or_app; right; left; reflexivity|]. tauto.
  - exists (added ++ [(req, outcome E st req)]).
    cbn [emit fst snd]. unfold exchanged.
    split; [rewrite Hnet, app_assoc; reflexivity|].
    apply Forall_app. split; [apply Gated_more, Hall|].
    apply Forall_cons; [|apply Forall_nil]. left. reflexivity.
Qed.

Lemma Step_Quiet net0 raw st st' :
  verify = false -> Quiet net0 st -> Step' raw st st' -> Quiet net0 st'.
Proof.
  intros Hf [Hnet Hall] [|Hv Hp|req Hv|req Hv|req res Hv]; try congruence.
  - split; assumption.
  - split; [exact Hnet|]. cbn [emit fst].
    apply Forall_app. split; [exact Hall|]. repeat constructor.
Qed.

Lemma Backed_start net0 : Backed' net0 ([], net0).
Proof.
  exists []. cbn [fst snd]. split; [symmetry; apply app_nil_r|].
  split; [intros r []|intros req res []].
Qed.

Lemma Gated_start net0 : Gated' net0 ([], net0).
Proof.
  exists []. cbn [fst snd]. split; [symmetry; apply app_nil_r|constructor].
Qed.

Lemma Quiet_start net0 : Quiet net0 ([], net0).
Proof. split; [reflexivity|constructor]. Qed.

Lemma Backed_clean net0 rs net :
  Backed' net0 (rs, net) -> Backed' net0 (CleanResults rs, net).
Proof.
  intros (added & Hnet & Hs & Hc). exists added. cbn [fst snd] in *.
  split; [exact Hnet|]. split.
  - intros r Hr. apply Hs, CleanResults_In, Hr.
  - intros req res Hin Hsu. destruct (Hc req res Hin Hsu) as (r & Hr & Hv & Hl).
    destruct (CleanResults_keeps_verified rs r Hr Hv) as (r' & Hr' & Hraw & Hv').
    exists r'. rewrite Hraw. auto.
Qed.

Lemma Gated_clean net0 rs net :
  Gated' net0 (rs, net) -> Gated' net0 (CleanResults rs, net).
Proof.
  intros (added & Hnet & Hall). exists added. cbn [fst snd] in *.
  split; [exact Hnet|].
  apply Forall_forall. intros r Hr.
  apply CleanResults_In in Hr. revert r Hr. apply Forall_forall, Hall.
Qed.

Lemma Quiet_clean net0 rs net :
  Quiet net0 (rs, net) -> Quiet net0 (CleanResults rs, net).
Proof.
  intros [Hnet Hall]. split; [exact Hnet|]. cbn [fst] in *.
  apply Forall_forall. intros r Hr.
  apply CleanResults_In in Hr. revert r Hr. apply Forall_forall, Hall.
Qed.

Lemma Kept_start net0 : Kept' net0 ([], net0).
Proof.
  split; [apply Backed_start|].
  split; [apply Gated_start|intros _; apply Quiet_start].
Qed.

Lemma Kept_step net0 raw st st' :
  Kept' net0 st -> Step' raw st st' -> Kept' net0 st'.
Proof.
  intros (Hb & Hg & Hq) HS.
  split; [eapply Step_Backed; eassumption|].
  split; [eapply Step_Gated; eassumption|].
  intros Hf. eapply Step_Quiet; eauto.
Qed.

Lemma Kept_clean net0 rs net :
  Kept' net0 (rs, net) -> Kept' net0 (CleanResults rs, net).
Proof.
  intros (Hb & Hg & Hq).
  split; [apply Backed_clean, Hb|].
  split; [apply Gated_clean, Hg|].
  intros Hf. apply Quiet_clean, Hq, Hf.
Qed.

Lemma Kept_fold {A : Type} (f : LoopState -> A -> LoopState)
    (rawOf : A -> string) (xs : list A) net0 st :
  (forall st x, Step' (rawOf x) st (f st x)) ->
  Kept' net0 st -> Kept' net0 (fold_left f xs st).
Proof.
  intros Hf Hk. apply fold_left_invariant; [exact Hk|].
  intros s a Hs. eapply Kept_step; [exact Hs|apply Hf].
Qed.

Lemma Kept_forEach {A : Type} (body : LoopState -> A -> Flow)
    (rawOf : A -> string) (xs : list A) net0 :
  (forall st x, Step' (rawOf x) st (flowState (body st x))) ->
  forall st, Kept' net0 st -> Kept' net0 (flowState (forEach body xs st)).
Proof.
  intros Hf. induction xs as [|x xs IH]; intros st Hk; cbn [forEach flowState].
  - exact Hk.
  - pose proof (Hf st x) as HS.
    destruct (body st x) as [st'|st' e]; cbn [flowState] in *.
    + apply IH. eapply Kept_step; eassumption.
    + eapply Kept_step; eassumption.
Qed.

End StepFacts.

(** ** Each loop body is a step *)

Ltac splitCases :=
  repeat (cbv beta iota zeta;
    match goal with
    | |- context [requestError ?e ?a ?b] => destruct (requestError e a b) eqn:?
    | |- Step _ _ _ _ _ _ _ _ _ (if ?b then _ else _) => destruct b eqn:?
    | |- Step _ _ _ _ _ _ _ _ _ (match ?x with inl _ => _ | inr _ => _ end) =>
        destruct x eqn:?
    | |- Step _ _ _ _ _ _ _ _ _ (match ?x with Some _ => _ | None => _ end) =>
        destruct x eqn:?
    end).

Ltac useEquations :=
  repeat match goal with
  | H : ?l = _ |- context [?l] => rewrite H
  end.

Ltac linkTac :=
  unfold abuseipdbLink, walkscoreLink, verifierLink, paypalLink,
    text2dataLink, oktaLink, currencycloudLink;
  cbn [Header URL RequestBody Header_Add Header_Set Method app filter fst snd
       negb];
  first [ reflexivity
        | eexists; reflexivity
        | solve [cbn; repeat (first [left; reflexivity | right])]
        | solve [eexists; cbn; repeat (first [left; reflexivity | right])] ].

Ltac successTac :=
  cbn [notConfirmed];
  unfold abuseipdbSuccess, walkscoreSuccess, statusSuccess, text2dataSuccess,
    currencycloudSuccess, bodyHas;
  useEquations;
  first [ reflexivity | assumption | apply andb_false_r | exact I ].

Ltac bypassTac :=
  first
    [ right; unfold rejected; assumption
    | left; unfold abuseipdbBypass, text2dataBypass, isNetworkError, unreadable;
      useEquations; solve [exact I | left; exact I | right; reflexivity
                          | right; assumption] ].

Ltac stepTac :=
  first
    [ apply StepSkip
    | apply stepSkip; reflexivity
    | apply StepPlain; [assumption || reflexivity | first [left; exact I | right; unfold rejected; assumption]]
    | eapply stepVerified;
      [reflexivity | assumption || reflexivity | linkTac | eassumption | successTac]
    | eapply stepDropped;
      [reflexivity | assumption || reflexivity | linkTac | eassumption | successTac]
    | eapply stepUnverified;
      [reflexivity | assumption || reflexivity | linkTac | eassumption | successTac
      | bypassTac] ].

Ltac openCandidate :=
  unfold capture, NewRequestWithContext, Do; splitCases.

Lemma walkscore_candidate_Step E verify st m :
  Step E walkscoreSuccess walkscoreLink isNetworkError True
    DetectorType_WalkScore verify (capture m) st
    (Walkscore.candidate E verify st m).
Proof. unfold Walkscore.candidate. openCandidate; stepTac. Qed.

Lemma abuseipdb_candidate_Step E verify st m :
  Step E abuseipdbSuccess abuseipdbLink abuseipdbBypass True
    DetectorType_AbuseIPDB verify (capture m) st
    (Abuseipdb.candidate E verify st m).
Proof. unfold Abuseipdb.candidate. openCandidate; stepTac. Qed.

Lemma text2data_candidate_Step E verify st m :
  Step E text2dataSuccess (text2dataLink E) text2dataBypass True
    DetectorType_Text2Data verify (capture m) st
    (Text2data.candidate E verify st m).
Proof. unfold Text2data.candidate. openCandidate; stepTac. Qed.

Lemma verifier_candidate_Step E verify raw st m :
  Step E statusSuccess verifierLink isNetworkError True
    DetectorType_Verifier verify raw st
    (Verifier.candidate E verify raw st m).
Proof. unfold Verifier.candidate. openCandidate; stepTac. Qed.

Lemma paypaloauth_candidate_Step E verify raw st m :
  Step E statusSuccess (paypalLink E) isNetworkError True
    DetectorType_PaypalOauth verify raw st
    (Paypaloauth.candidate E verify raw st m).
Proof. unfold Paypaloauth.candidate. openCandidate; stepTac. Qed.

Lemma currencycloud_candidate_Step E verify raw st m :
  Step E currencycloudSuccess currencycloudLink isNetworkError True
    DetectorType_CurrencyCloud verify raw st
    (Currencycloud.candidate E verify raw st m).
Proof. unfold Currencycloud.candidate. openCandidate; stepTac. Qed.

Lemma okta_candidate_Step E verify token st domain :
  Step E statusSuccess oktaLink neverBypass False DetectorType_Okta verify
    token st (flowState (Okta.candidate E verify token st domain)).
Proof.
  unfold Okta.candidate, NewRequestWithContext, Do. cbv zeta.
  destruct verify.
  - destruct (requestError E _ _); [apply StepSkip|].
    match goal with
    | |- context [transport E ?n ?r] => destruct (transport E n r) as [resp|e] eqn:Ho
    end; cbv beta iota.
    + destruct (is2xx (StatusCode resp)) eqn:Hs; cbn [Verified setVerified newResult negb andb Raw flowState].
      * stepTac.
      * destruct (IsKnownFalsePositive E token (DefaultFalsePositives E) true) eqn:Hr;
          cbn [flowState]; stepTac.
    + cbn [flowState]. stepTac.
  - cbn [Verified newResult negb andb Raw].
    destruct (IsKnownFalsePositive E token (DefaultFalsePositives E) true) eqn:Hr;
      cbn [flowState].
    + apply stepSkip. reflexivity.
    + destruct st as [rs net]. cbn [fst snd].
      apply StepPlain; [reflexivity|right; exact Hr].
Qed.

(** ** The invariants at the level of [FromData] *)

Lemma walkscore_Kept E verify data net0 :
  Kept E walkscoreSuccess walkscoreLink isNetworkError True verify net0
    (results (Walkscore.FromData E verify data net0),
     requests (Walkscore.FromData E verify data net0)).
Proof.
  unfold Walkscore.FromData. cbn [results requests fst snd].
  apply Kept_clean. rewrite <- surjective_pairing.
  apply Kept_fold with (t := DetectorType_WalkScore) (rawOf := capture); [|apply Kept_start].
  intros st m. apply walkscore_candidate_Step.
Qed.

Lemma abuseipdb_Kept E verify data net0 :
  Kept E abuseipdbSuccess abuseipdbLink abuseipdbBypass True verify net0
    (results (Abuseipdb.FromData E verify data net0),
     requests (Abuseipdb.FromData E verify data net0)).
Proof.
  unfold Abuseipdb.FromData. cbn [results requests fst snd].
  apply Kept_clean. rewrite <- surjective_pairing.
  apply Kept_fold with (t := DetectorType_AbuseIPDB) (rawOf := capture); [|apply Kept_start].
  intros st m. apply abuseipdb_candidate_Step.
Qed.

Lemma text2data_Kept E verify data net0 :
  Kept E text2dataSuccess (text2dataLink E) text2dataBypass True verify net0
    (results (Text2data.FromData E verify data net0),
     requests (Text2data.FromData E verify data net0)).
Proof.
  unfold Text2data.FromData. cbn [results requests fst snd].
  apply Kept_clean. rewrite <- surjective_pairing.
  apply Kept_fold with (t := DetectorType_Text2Data) (rawOf := capture); [|apply Kept_start].
  intros st m. apply text2data_candidate_Step.
Qed.

Lemma verifier_Kept E verify data net0 :
  Kept E statusSuccess verifierLink isNetworkError True verify net0
    (results (Verifier.FromData E verify data net0),
     requests (Verifier.FromData E verify data net0)).
Proof.
  unfold Verifier.FromData. cbn [results requests fst snd].
  apply Kept_clean. rewrite <- surjective_pairing.
  apply fold_left_invariant; [apply Kept_start|].
  intros st m Hk. unfold Verifier.perMatch.
  destruct (negb _); [exact Hk|].
  apply Kept_fold with (t := DetectorType_Verifier) (rawOf := (fun _ => capture m)); [|exact Hk].
  intros st' id. apply verifier_candidate_Step.
Qed.

Lemma paypaloauth_Kept E verify data net0 :
  Kept E statusSuccess (paypalLink E) isNetworkError True verify net0
    (results (Paypaloauth.FromData E verify data net0),
     requests (Paypaloauth.FromData E verify data net0)).
Proof.
  unfold Paypaloauth.FromData. cbn [results requests fst snd].
  apply Kept_clean. rewrite <- surjective_pairing.
  apply fold_left_invariant; [apply Kept_start|].
  intros st m Hk. unfold Paypaloauth.perMatch.
  destruct (negb _); [exact Hk|].
  apply Kept_fold with (t := DetectorType_PaypalOauth) (rawOf := (fun _ => capture m)); [|exact Hk].
  intros st' id. apply paypaloauth_candidate_Step.
Qed.

Lemma currencycloud_Kept E verify data net0 :
  Kept E currencycloudSuccess currencycloudLink isNetworkError True verify net0
    (results (Currencycloud.FromData E verify data net0),
     requests (Currencycloud.FromData E verify data net0)).
Proof.
  unfold Currencycloud.FromData. cbn [results requests fst snd].
  apply Kept_clean. rewrite <- surjective_pairing.
  apply fold_left_invariant; [apply Kept_start|].
  intros st m Hk. unfold Currencycloud.perMatch.
  destruct (negb _); [exact Hk|].
  apply Kept_fold with (t := DetectorType_CurrencyCloud) (rawOf := (fun _ => capture m)); [|exact Hk].
  intros st' id. apply currencycloud_candidate_Step.
Qed.

Lemma okta_outcome E verify data net0 :
  (results (Okta.FromData E verify data net0),
   requests (Okta.FromData E verify data net0))
  = flowState (forEach (Okta.perToken E verify data)
                 (FindAllString Okta.tokenPat data) ([], net0)).
Proof.
  unfold Okta.FromData.
  destruct (forEach _ _ _) as [st|st e]; cbn [results requests fst snd flowState];
    symmetry; apply surjective_pairing.
Qed.

Lemma okta_Kept E verify data net0 :
  Kept E statusSuccess oktaLink neverBypass False verify net0
    (results (Okta.FromData E verify data net0),
     requests (Okta.FromData E verify data net0)).
Proof.
  rewrite okta_outcome.
  assert (Hinner : forall token xs st,
             Kept E statusSuccess oktaLink neverBypass False verify net0 st ->
             Kept E statusSuccess oktaLink neverBypass False verify net0
               (flowState (forEach (Okta.candidate E verify token) xs st))).
  { intros token xs.
    apply Kept_forEach with (t := DetectorType_Okta) (rawOf := fun _ : string => token).
    intros st d. apply okta_candidate_Step. }
  generalize (FindAllString Okta.tokenPat data) as tokens.
  generalize (Kept_start E statusSuccess oktaLink neverBypass False verify net0).
  generalize (@nil Result, net0) as st.
  intros st Hk tokens. revert st Hk.
  induction tokens as [|token tokens IH]; intros st Hk; cbn [forEach flowState].
  - exact Hk.
  - unfold Okta.perToken at 1.
    specialize (Hinner token (FindAllString Okta.domainPat data) st Hk).
    destruct (forEach (Okta.candidate E verify token) _ st) as [st'|st' e];
      cbn [flowState] in *.
    + apply IH, Hinner.
    + exact Hinner.
Qed.

(** ** Verification (C1) *)

Lemma Backed_2xx success link net0 (o : Outcome) :
  (forall res, success res = true -> is2xx (StatusCode res) = true) ->
  Backed success link net0 (results o, requests o) ->
  VerifiedOnlyAfter2xx link net0 o.
Proof.
  intros H2 (added & Hnet & Hs & _). exists added. cbn [fst snd] in *.
  split; [exact Hnet|]. intros r Hr Hv.
  destruct (Hs r Hr Hv) as (req & res & Hin & Hsu & Hl).
  exists req, res. auto.
Qed.

Ltac successIs2xx :=
  let res := fresh "res" in
  let H := fresh "H" in
  intros res H;
  unfold abuseipdbSuccess, walkscoreSuccess, statusSuccess, text2dataSuccess in H;
  first [exact H | apply andb_true_iff in H; destruct H as [H _]; exact H].

(** In six of the seven detectors a result is verified only after a 2xx
    response to a request that carries its credential. *)
Lemma verified_only_after_2xx (E : Env) (verify : bool) (data : string)
    (net0 : Net) :
  VerifiedOnlyAfter2xx abuseipdbLink net0 (Abuseipdb.FromData E verify data net0)
  /\ VerifiedOnlyAfter2xx walkscoreLink net0 (Walkscore.FromData E verify data net0)
  /\ VerifiedOnlyAfter2xx oktaLink net0 (Okta.FromData E verify data net0)
  /\ VerifiedOnlyAfter2xx verifierLink net0 (Verifier.FromData E verify data net0)
  /\ VerifiedOnlyAfter2xx (paypalLink E) net0
       (Paypaloauth.FromData E verify data net0)
  /\ VerifiedOnlyAfter2xx (text2dataLink E) net0
       (Text2data.FromData E verify data net0).
Proof.
  split; [apply (Backed_2xx abuseipdbSuccess); [successIs2xx|apply abuseipdb_Kept]|].
  split; [apply (Backed_2xx walkscoreSuccess); [successIs2xx|apply walkscore_Kept]|].
  split; [apply (Backed_2xx statusSuccess); [successIs2xx|apply okta_Kept]|].
  split; [apply (Backed_2xx statusSuccess); [successIs2xx|apply verifier_Kept]|].
  split; [apply (Backed_2xx statusSuccess); [successIs2xx|apply paypaloauth_Kept]|].
  apply (Backed_2xx text2dataSuccess); [successIs2xx|apply text2data_Kept].
Qed.

(** Without verification no detector makes a request or verifies a
    result. *)
Lemma no_verification_no_request (E : Env) (data : string) (net0 : Net) :
  let quiet (o : Outcome) := Quiet net0 (results o, requests o) in
  quiet (Abuseipdb.FromData E false data net0)
  /\ quiet (Walkscore.FromData E false data net0)
  /\ quiet (Okta.FromData E false data net0)
  /\ quiet (Verifier.FromData E false data net0)
  /\ quiet (Paypaloauth.FromData E false data net0)
  /\ quiet (Currencycloud.FromData E false data net0)
  /\ quiet (Text2data.FromData E false data net0).
Proof.
  cbv zeta.
  split; [apply (abuseipdb_Kept E false data net0); reflexivity|].
  split; [apply (walkscore_Kept E false data net0); reflexivity|].
  split; [apply (okta_Kept E false data net0); reflexivity|].
  split; [apply (verifier_Kept E false data net0); reflexivity|].
  split; [apply (paypaloauth_Kept E false data net0); reflexivity|].
  split; [apply (currencycloud_Kept E false data net0); reflexivity|].
  apply (text2data_Kept E false data net0); reflexivity.
Qed.

(** C1 (the code at the failing input): the vendor answers the
    currencycloud verification request with status 401 and a body that
    contains "auth_token"; the result is marked verified although no
    response had a 2xx status. *)
Theorem C1_currencycloud_verified_on_401 :
  let E := sampleEnv (answer 401 "invalid auth_token") in
  let o := Currencycloud.FromData E true currencycloudData [] in
  results o
  = [setVerified (newResult DetectorType_CurrencyCloud currencycloudKey) true]
  /\ err o = None
  /\ map snd (requests o) = [answer 401 "invalid auth_token"]
  /\ is2xx 401 = false.
Proof. vm_compute. repeat split. Qed.

(** ** Pre-filter (C2) *)

(** C2 (the code at the failing input): on [paypalData], an 80-character
    id and an 80-character key separated by a space, the PaypalOauth
    detector returns a result, in any environment, although the
    lowercased input does not contain the keyword "paypal". *)
Theorem C2_paypaloauth_result_without_keyword (E : Env) :
  results (Paypaloauth.FromData E false paypalData [])
  = [newResult DetectorType_PaypalOauth paypalKey]
  /\ Paypaloauth.Keywords = ["paypal"]
  /\ passesPreFilter Paypaloauth.Keywords paypalData = false.
Proof. vm_compute. repeat split. Qed.

(** ** Errors (C10) *)

(** C10: FromData of the verifier, walkscore and abuseipdb detectors
    returns a nil error for every input and every value of verify; in
    their loop bodies a request that cannot be built skips the candidate
    and a request that fails on the network leaves the candidate emitted
    unverified. *)
Theorem C10_no_error_surfaced (E : Env) (verify : bool) (data : string)
    (net : Net) :
  err (Verifier.FromData E verify data net) = None
  /\ err (Walkscore.FromData E verify data net) = None
  /\ err (Abuseipdb.FromData E verify data net) = None
  /\ (forall raw st whole user,
        Swallowed E (verifierRequest E (TrimSpace user) raw) st
          (newResult DetectorType_Verifier raw)
          (Verifier.candidate E true raw st [whole; user]))
  /\ (forall st whole key,
        Swallowed E (walkscoreRequest E (TrimSpace key)) st
          (newResult DetectorType_WalkScore (TrimSpace key))
          (Walkscore.candidate E true st [whole; key]))
  /\ (forall st whole key,
        Swallowed E (abuseipdbRequest E (TrimSpace key)) st
          (newResult DetectorType_AbuseIPDB (TrimSpace key))
          (Abuseipdb.candidate E true st [whole; key])).
Proof.
  split; [reflexivity|]. split; [reflexivity|]. split; [reflexivity|].
  split; [|split].
  - intros raw st whole user.
    unfold Swallowed, verifierRequest, Verifier.candidate,
      NewRequestWithContext, Do.
    cbn [List.length Nat.eqb negb nth withHeaders].
    destruct (requestError E _ _); [reflexivity|]. cbv zeta beta iota.
    match goal with
    | |- context [transport E ?n ?r] => destruct (transport E n r)
    end; [exact I|reflexivity].
  - intros st whole key.
    unfold Swallowed, walkscoreRequest, Walkscore.candidate,
      NewRequestWithContext, Do.
    cbn [List.length Nat.eqb negb nth withHeaders].
    destruct (requestError E _ _); cbn [withHeaders]; [reflexivity|].
    cbv zeta beta iota.
    match goal with
    | |- context [transport E ?n ?r] => destruct (transport E n r)
    end; [exact I|reflexivity].
  - intros st whole key.
    unfold Swallowed, abuseipdbRequest, Abuseipdb.candidate,
      NewRequestWithContext, Do.
    cbn [List.length Nat.eqb negb nth withHeaders].
    destruct (requestError E _ _); cbn [withHeaders]; [reflexivity|].
    cbv zeta beta iota.
    match goal with
    | |- context [transport E ?n ?r] => destruct (transport E n r)
    end; [exact I|reflexivity].
Qed.

(** ** The false-positive filter (C3) *)

(** Without verification the loops emit every candidate. *)
Ltac plainSingle IH m :=
  rewrite IH; unfold plainResults, hasCapture; cbn [filter]; fold (capture m);
  destruct (List.length m =? 2)%nat; cbn [negb emit fst snd map];
  [rewrite <- app_assoc; reflexivity | reflexivity].

Lemma walkscore_plain_loop E ms (st : LoopState) :
  fold_left (Walkscore.candidate E false) ms st
  = (fst st ++ plainResults DetectorType_WalkScore ms, snd st).
Proof.
  revert st. induction ms as [|m ms IH]; intros st; cbn [fold_left].
  - unfold plainResults. cbn [filter map]. rewrite app_nil_r.
    apply surjective_pairing.
  - unfold Walkscore.candidate at 2. plainSingle IH m.
Qed.

Lemma abuseipdb_plain_loop E ms (st : LoopState) :
  fold_left (Abuseipdb.candidate E false) ms st
  = (fst st ++ plainResults DetectorType_AbuseIPDB ms, snd st).
Proof.
  revert st. induction ms as [|m ms IH]; intros st; cbn [fold_left].
  - unfold plainResults. cbn [filter map]. rewrite app_nil_r.
    apply surjective_pairing.
  - unfold Abuseipdb.candidate at 2. plainSingle IH m.
Qed.

Lemma text2data_plain_loop E ms (st : LoopState) :
  fold_left (Text2data.candidate E false) ms st
  = (fst st ++ plainResults DetectorType_Text2Data ms, snd st).
Proof.
  revert st. induction ms as [|m ms IH]; intros st; cbn [fold_left].
  - unfold plainResults. cbn [filter map]. rewrite app_nil_r.
    apply surjective_pairing.
  - unfold Text2data.candidate at 2. plainSingle IH m.
Qed.

Ltac plainInner IH id :=
  rewrite IH; unfold hasCapture; cbn [filter];
  destruct (List.length id =? 2)%nat; cbn [negb emit fst snd map];
  [rewrite <- app_assoc; reflexivity | reflexivity].

Lemma verifier_plain_inner E raw ids (st : LoopState) :
  fold_left (Verifier.candidate E false raw) ids st
  = (fst st ++ map (fun _ => newResult DetectorType_Verifier raw)
                   (filter hasCapture ids), snd st).
Proof.
  revert st. induction ids as [|id ids IH]; intros st; cbn [fold_left].
  - cbn [filter map]. rewrite app_nil_r. apply surjective_pairing.
  - unfold Verifier.candidate at 2. plainInner IH id.
Qed.

Lemma paypaloauth_plain_inner E raw ids (st : LoopState) :
  fold_left (Paypaloauth.candidate E false raw) ids st
  = (fst st ++ map (fun _ => newResult DetectorType_PaypalOauth raw)
                   (filter hasCapture ids), snd st).
Proof.
  revert st. induction ids as [|id ids IH]; intros st; cbn [fold_left].
  - cbn [filter map]. rewrite app_nil_r. apply surjective_pairing.
  - unfold Paypaloauth.candidate at 2. plainInner IH id.
Qed.

Lemma currencycloud_plain_inner E raw ids (st : LoopState) :
  fold_left (Currencycloud.candidate E false raw) ids st
  = (fst st ++ map (fun _ => newResult DetectorType_CurrencyCloud raw)
                   (filter hasCapture ids), snd st).
Proof.
  revert st. induction ids as [|id ids IH]; intros st; cbn [fold_left].
  - cbn [filter map]. rewrite app_nil_r. apply surjective_pairing.
  - unfold Currencycloud.candidate at 2. plainInner IH id.
Qed.

Ltac plainOuter IH m inner :=
  rewrite IH; unfold pairedResults, hasCapture; cbn [filter]; fold (capture m);
  fold hasCapture;
  destruct (List.length m =? 2)%nat; cbn [negb fst snd flat_map];
  [rewrite inner; cbn [fst snd]; rewrite <- app_assoc; reflexivity
  | reflexivity].

Lemma verifier_plain_loop E ms ids (st : LoopState) :
  fold_left (Verifier.perMatch E false ids) ms st
  = (fst st ++ pairedResults DetectorType_Verifier ms ids, snd st).
Proof.
  revert st. induction ms as [|m ms IH]; intros st; cbn [fold_left].
  - unfold pairedResults. cbn [filter flat_map]. rewrite app_nil_r.
    apply surjective_pairing.
  - unfold Verifier.perMatch at 2. plainOuter IH m verifier_plain_inner.
Qed.

Lemma paypaloauth_plain_loop E ms ids (st : LoopState) :
  fold_left (Paypaloauth.perMatch E false ids) ms st
  = (fst st ++ pairedResults DetectorType_PaypalOauth ms ids, snd st).
Proof.
  revert st. induction ms as [|m ms IH]; intros st; cbn [fold_left].
  - unfold pairedResults. cbn [filter flat_map]. rewrite app_nil_r.
    apply surjective_pairing.
  - unfold Paypaloauth.perMatch at 2. plainOuter IH m paypaloauth_plain_inner.
Qed.

Lemma currencycloud_plain_loop E ms ids (st : LoopState) :
  fold_left (Currencycloud.perMatch E false ids) ms st
  = (fst st ++ pairedResults DetectorType_CurrencyCloud ms ids, snd st).
Proof.
  revert st. induction ms as [|m ms IH]; intros st; cbn [fold_left].
  - unfold pairedResults. cbn [filter flat_map]. rewrite app_nil_r.
    apply surjective_pairing.
  - unfold Currencycloud.perMatch at 2.
    plainOuter IH m currencycloud_plain_inner.
Qed.

(** C3 (as stated, refuted): scanning [walkscoreData] without
    verification, the walkscore detector emits the match made of 32
    letters "a", which the classifier of the sample environment rejects as
    a known false positive. *)
Lemma C3_walkscore_emits_rejected_match :
  let E := sampleEnv (answer 200 "") in
  results (Walkscore.FromData E false walkscoreData [])
  = [newResult DetectorType_WalkScore walkscoreKey]
  /\ IsKnownFalsePositive E walkscoreKey (DefaultFalsePositives E) true = true.
Proof. vm_compute. split; reflexivity. Qed.

Ltac settleTac :=
  unfold verifying, settle, abuseipdbVerdict, walkscoreVerdict,
    text2dataVerdict, currencycloudVerdict, statusVerdict, onResponse, onBody,
    abuseipdbRequest, walkscoreRequest, verifierRequest, paypalRequest,
    currencycloudRequest, text2dataRequest, rejected,
    NewRequestWithContext, Do;
  cbn [List.length Nat.eqb negb nth withHeaders];
  destruct (requestError _ _ _); cbn [withHeaders]; [reflexivity|];
  cbv zeta beta iota;
  match goal with
  | |- context [transport ?E ?n ?r] => destruct (transport E n r)
  end; [|reflexivity];
  cbv beta iota;
  try (match goal with
       | |- context [Body ?r] => destruct (Body r)
       end; [|reflexivity]);
  cbv beta iota;
  try (match goal with
       | |- context [is2xx ?z] => destruct (is2xx z)
       end; cbn [andb]);
  repeat match goal with
  | |- context [Contains ?b ?k] => destruct (Contains b k)
  end;
  repeat match goal with
  | |- context [IsKnownFalsePositive ?E ?r ?l ?w] =>
      destruct (IsKnownFalsePositive E r l w)
  end;
  reflexivity.

(** Each loop body does with a candidate what its verdict says. *)
Lemma candidates_settle (E : Env) :
  (forall st whole key,
      Abuseipdb.candidate E true st [whole; key]
      = verifying E DetectorType_AbuseIPDB (TrimSpace key) st
          (abuseipdbRequest E (TrimSpace key)) abuseipdbVerdict)
  /\ (forall st whole key,
        Walkscore.candidate E true st [whole; key]
        = verifying E DetectorType_WalkScore (TrimSpace key) st
            (walkscoreRequest E (TrimSpace key)) walkscoreVerdict)
  /\ (forall st whole key,
        Text2data.candidate E true st [whole; key]
        = verifying E DetectorType_Text2Data (TrimSpace key) st
            (text2dataRequest E (TrimSpace key)) text2dataVerdict)
  /\ (forall raw st whole user,
        Verifier.candidate E true raw st [whole; user]
        = verifying E DetectorType_Verifier raw st
            (verifierRequest E (TrimSpace user) raw) statusVerdict)
  /\ (forall raw st whole id,
        Paypaloauth.candidate E true raw st [whole; id]
        = verifying E DetectorType_PaypalOauth raw st
            (paypalRequest E (TrimSpace id) raw) statusVerdict)
  /\ (forall raw st whole email,
        Currencycloud.candidate E true raw st [whole; email]
        = verifying E DetectorType_CurrencyCloud raw st
            (currencycloudRequest E (TrimSpace email) raw) currencycloudVerdict)
  /\ (forall verify token st domain,
        Okta.candidate E verify token st domain
        = oktaSettled E verify token st domain).
Proof.
  split; [intros st whole key; unfold Abuseipdb.candidate; settleTac|].
  split; [intros st whole key; unfold Walkscore.candidate; settleTac|].
  split; [intros st whole key; unfold Text2data.candidate; settleTac|].
  split; [intros raw st whole user; unfold Verifier.candidate; settleTac|].
  split; [intros raw st whole id; unfold Paypaloauth.candidate; settleTac|].
  split; [intros raw st whole email; unfold Currencycloud.candidate; settleTac|].
  intros verify token st domain.
  unfold Okta.candidate, oktaSettled, oktaRequest, settle, rejected,
    NewRequestWithContext, Do.
  destruct verify; cbv zeta.
  - destruct (requestError _ _ _); cbn [withHeaders]; [reflexivity|].
    match goal with
    | |- context [transport ?E ?n ?r] => destruct (transport E n r) as [res|e]
    end; [|reflexivity].
    cbv beta iota.
    destruct (is2xx (StatusCode res));
      cbn [Verified setVerified newResult negb andb Raw]; [reflexivity|].
    destruct (IsKnownFalsePositive _ _ _ _); reflexivity.
  - cbn [Verified newResult negb andb Raw].
    destruct (IsKnownFalsePositive _ _ _ _); [|reflexivity].
    destruct st; reflexivity.
Qed.

(** C3 (amended): in okta every result that is unverified at emission
    time has been accepted by the classifier.  In the six other detectors
    the classifier is asked only after a response that does not confirm the
    credential: without verification every match is emitted, and with it
    every result is verified, or accepted by the classifier, or emitted
    after an exchange that skips the classifier (a request that failed on
    the network; in abuseipdb and text2data also a response whose body
    could not be read; in abuseipdb also a 2xx response without the
    expected content).  In all seven every confirming response has its
    verified result among the results, whatever the classifier says.

    The last seven parts give each loop body exactly, by the verdict on
    the outcome of the exchange: a confirmed candidate is emitted verified
    without asking the classifier; after a network failure the candidate
    is emitted unverified without asking it (in abuseipdb and text2data
    also after an unreadable body, in abuseipdb also after a 2xx response
    without the expected content); after any other response the classifier
    is asked and the candidate is emitted exactly when it is not rejected,
    except that walkscore and currencycloud drop the candidate unasked
    when the body cannot be read; a request that cannot be built leaves
    the candidate out.  In okta an unverified candidate is classified in
    both kinds of scan, and a failure to build or send the request makes
    [FromData] return. *)
Theorem C3_false_positive_filter (E : Env) (verify : bool) (data : string)
    (net0 : Net) :
  let gated link bypass (o : Outcome) :=
    Gated E link bypass True verify net0 (results o, requests o) in
  let backed success link (o : Outcome) :=
    Backed success link net0 (results o, requests o) in
  let found r := FindAllStringSubmatch r data in
  Forall (fun r => Verified r = true \/ rejected E (Raw r) = false)
         (results (Okta.FromData E verify data net0))
  /\ results (Abuseipdb.FromData E false data net0)
     = CleanResults (plainResults DetectorType_AbuseIPDB
                       (found (Abuseipdb.keyPat E)))
  /\ results (Walkscore.FromData E false data net0)
     = CleanResults (plainResults DetectorType_WalkScore
                       (found (Walkscore.keyPat E)))
  /\ results (Text2data.FromData E false data net0)
     = CleanResults (plainResults DetectorType_Text2Data
                       (found (Text2data.keyPat E)))
  /\ results (Verifier.FromData E false data net0)
     = CleanResults (pairedResults DetectorType_Verifier
                       (found (Verifier.keyPat E)) (found (Verifier.emailPat E)))
  /\ results (Paypaloauth.FromData E false data net0)
     = CleanResults (pairedResults DetectorType_PaypalOauth
                       (found Paypaloauth.keyPat) (found Paypaloauth.idPat))
  /\ results (Currencycloud.FromData E false data net0)
     = CleanResults (pairedResults DetectorType_CurrencyCloud
                       (found (Currencycloud.keyPat E))
                       (found Currencycloud.emailPat))
  /\ gated abuseipdbLink abuseipdbBypass (Abuseipdb.FromData E verify data net0)
  /\ gated walkscoreLink isNetworkError (Walkscore.FromData E verify data net0)
  /\ gated (text2dataLink E) text2dataBypass
       (Text2data.FromData E verify data net0)
  /\ gated verifierLink isNetworkError (Verifier.FromData E verify data net0)
  /\ gated (paypalLink E) isNetworkError
       (Paypaloauth.FromData E verify data net0)
  /\ gated currencycloudLink isNetworkError
       (Currencycloud.FromData E verify data net0)
  /\ backed statusSuccess oktaLink (Okta.FromData E verify data net0)
  /\ backed abuseipdbSuccess abuseipdbLink
       (Abuseipdb.FromData E verify data net0)
  /\ backed walkscoreSuccess walkscoreLink
       (Walkscore.FromData E verify data net0)
  /\ backed text2dataSuccess (text2dataLink E)
       (Text2data.FromData E verify data net0)
  /\ backed statusSuccess verifierLink (Verifier.FromData E verify data net0)
  /\ backed statusSuccess (paypalLink E)
       (Paypaloauth.FromData E verify data net0)
  /\ backed currencycloudSuccess currencycloudLink
       (Currencycloud.FromData E verify data net0)
  /\ (forall st whole key,
        Abuseipdb.candidate E true st [whole; key]
        = verifying E DetectorType_AbuseIPDB (TrimSpace key) st
            (abuseipdbRequest E (TrimSpace key)) abuseipdbVerdict)
  /\ (forall st whole key,
        Walkscore.candidate E true st [whole; key]
        = verifying E DetectorType_WalkScore (TrimSpace key) st
            (walkscoreRequest E (TrimSpace key)) walkscoreVerdict)
  /\ (forall st whole key,
        Text2data.candidate E true st [whole; key]
        = verifying E DetectorType_Text2Data (TrimSpace key) st
            (text2dataRequest E (TrimSpace key)) text2dataVerdict)
  /\ (forall raw st whole user,
        Verifier.candidate E true raw st [whole; user]
        = verifying E DetectorType_Verifier raw st
            (verifierRequest E (TrimSpace user) raw) statusVerdict)
  /\ (forall raw st whole id,
        Paypaloauth.candidate E true raw st [whole; id]
        = verifying E DetectorType_PaypalOauth raw st
            (paypalRequest E (TrimSpace id) raw) statusVerdict)
  /\ (forall raw st whole email,
        Currencycloud.candidate E true raw st [whole; email]
        = verifying E DetectorType_CurrencyCloud raw st
            (currencycloudRequest E (TrimSpace email) raw)
            currencycloudVerdict)
  /\ (forall vfy token st domain,
        Okta.candidate E vfy token st domain
        = oktaSettled E vfy token st domain).
Proof.
  cbv zeta.
  split.
  { destruct (okta_Kept E verify data net0) as (_ & (added & _ & Hall) & _).
    cbn [fst] in Hall. revert Hall. apply Forall_impl.
    intros r [H|[H|[[_ []]|(req & o & _ & [] & _)]]]; auto. }
  split.
  { unfold Abuseipdb.FromData. cbn [results fst].
    rewrite abuseipdb_plain_loop. reflexivity. }
  split.
  { unfold Walkscore.FromData. cbn [results fst].
    rewrite walkscore_plain_loop. reflexivity. }
  split.
  { unfold Text2data.FromData. cbn [results fst].
    rewrite text2data_plain_loop. reflexivity. }
  split.
  { unfold Verifier.FromData. cbn [results fst].
    rewrite verifier_plain_loop. reflexivity. }
  split.
  { unfold Paypaloauth.FromData. cbn [results fst].
    rewrite paypaloauth_plain_loop. reflexivity. }
  split.
  { unfold Currencycloud.FromData. cbn [results fst].
    rewrite currencycloud_plain_loop. reflexivity. }
  split; [apply abuseipdb_Kept|].
  split; [apply walkscore_Kept|].
  split; [apply text2data_Kept|].
  split; [apply verifier_Kept|].
  split; [apply paypaloauth_Kept|].
  split; [apply currencycloud_Kept|].
  split; [apply okta_Kept|].
  split; [apply abuseipdb_Kept|].
  split; [apply walkscore_Kept|].
  split; [apply text2data_Kept|].
  split; [apply verifier_Kept|].
  split; [apply paypaloauth_Kept|].
  split; [apply currencycloud_Kept|].
  apply candidates_settle.
Qed.

(** C3 (amended) at a concrete input: okta on [oktaData], without
    verification. *)
Lemma C3_false_positive_filter_witness :
  Forall (fun r => Verified r = true
                   \/ rejected (sampleEnv (answer 401 "")) (Raw r) = false)
         (results (Okta.FromData (sampleEnv (answer 401 "")) false oktaData [])).
Proof.
  exact (proj1 (C3_false_positive_filter (sampleEnv (answer 401 "")) false
                  oktaData [])).
Defined.

End DetectorProps.

Module RegexpProps.
Import Regexp.

(** ** Soundness of the matcher: what it consumes is in the language *)

Lemma matchRe_sound (r : regexp) : Sound r.
Proof.
  unfold Sound.
  induction r as [|f|a IHa b IHb|a IHa b IHb|a IHa lo hi|a IHa| |i a IHa];
    intros st k res H; cbn [matchRe] in H.
  - exists [], st. cbn [lang]. auto.
  - destruct (rest st) as [|c t] eqn:Hr; [discriminate|].
    destruct (f c) eqn:Hf; [|discriminate].
    exists [c], (mkState (S (pos st)) (Some c) t (caps st)).
    split; [reflexivity|]. split; [|exact H].
    exists c. auto.
  - apply IHa in H. destruct H as (u & st1 & Hu & La & H).
    apply IHb in H. destruct H as (v & st2 & Hv & Lb & H).
    exists (u ++ v), st2. split; [rewrite Hu, Hv, app_assoc; reflexivity|].
    split; [|exact H]. exists u, v. auto.
  - destruct (matchRe a st k) as [x|] eqn:Ha.
    + injection H as <-. apply IHa in Ha.
      destruct Ha as (w & st1 & Hw & La & Hk).
      exists w, st1. cbn [lang]. auto.
    + apply IHb in H. destruct H as (w & st1 & Hw & Lb & Hk).
      exists w, st1. cbn [lang]. auto.
  - revert lo st k res H.
    induction hi as [|hi IH]; intros lo st k res H.
    + destruct lo; [|discriminate].
      exists [], st. split; [reflexivity|]. split; [|exact H].
      exists 0. split; [lia|reflexivity].
    + destruct lo as [|lo].
      * match type of H with
        | match ?m with _ => _ end = _ => destruct m as [x|] eqn:Ha
        end.
        -- injection H as <-. apply IHa in Ha.
           destruct Ha as (u & st1 & Hu & La & Hk).
           destruct (pos st1 =? pos st)%nat; [discriminate|].
           apply IH in Hk. destruct Hk as (v & st2 & Hv & (n & Hn & Pn) & Hk).
           exists (u ++ v), st2.
           split; [rewrite Hu, Hv, app_assoc; reflexivity|]. split; [|exact Hk].
           exists (S n). split; [lia|]. exists u, v. auto.
        -- exists [], st. split; [reflexivity|]. split; [|exact H].
           exists 0. split; [lia|reflexivity].
      * apply IHa in H. destruct H as (u & st1 & Hu & La & Hk).
        apply IH in Hk. destruct Hk as (v & st2 & Hv & (n & Hn & Pn) & Hk).
        exists (u ++ v), st2.
        split; [rewrite Hu, Hv, app_assoc; reflexivity|]. split; [|exact Hk].
        exists (S n). split; [lia|]. exists u, v. auto.
  - revert H. generalize (List.length (rest st)) as fuel. intros fuel.
    revert st k res.
    induction fuel as [|fuel IH]; intros st k res H.
    + exists [], st. split; [reflexivity|]. split; [|exact H].
      exists 0. reflexivity.
    + match type of H with
      | match ?m with _ => _ end = _ => destruct m as [x|] eqn:Ha
      end.
      * injection H as <-. apply IHa in Ha.
        destruct Ha as (u & st1 & Hu & La & Hk).
        destruct (pos st1 =? pos st)%nat; [discriminate|].
        apply IH in Hk. destruct Hk as (v & st2 & Hv & (n & Pn) & Hk).
        exists (u ++ v), st2.
        split; [rewrite Hu, Hv, app_assoc; reflexivity|]. split; [|exact Hk].
        exists (S n). exists u, v. auto.
      * exists [], st. split; [reflexivity|]. split; [|exact H].
        exists 0. reflexivity.
  - destruct (xorb _ _); [|discriminate].
    exists [], st. cbn [lang]. auto.
  - apply IHa in H. destruct H as (w & st1 & Hw & La & Hk).
    eexists w, _. split; [|split; [exact La|exact Hk]]. exact Hw.
Qed.

(** A successful search found a word of the language inside the input. *)
Lemma search_sound r p pv rs start st1 :
  search r p pv rs = Some (start, st1) ->
  exists pre w post, rs = pre ++ w ++ post /\ lang r w.
Proof.
  revert p pv. induction rs as [|c t IH]; intros p pv H; cbn [search] in H.
  - destruct (matchRe r _ _) as [x|] eqn:Hm; [|discriminate].
    apply matchRe_sound in Hm. destruct Hm as (w & st2 & Hw & L & _).
    cbn [rest] in Hw. exists [], w, (rest st2). auto.
  - destruct (matchRe r _ _) as [x|] eqn:Hm.
    + apply matchRe_sound in Hm. destruct Hm as (w & st2 & Hw & L & _).
      cbn [rest] in Hw. exists [], w, (rest st2). auto.
    + apply IH in H. destruct H as (pre & w & post & Hrs & L).
      exists (c :: pre), w, post. rewrite Hrs. auto.
Qed.

Lemma allMatches_sound fuel r p pv rs prevEnd :
  allMatches fuel r p pv rs prevEnd <> [] ->
  exists pre w post, rs = pre ++ w ++ post /\ lang r w.
Proof.
  destruct fuel as [|fuel]; cbn [allMatches]; [congruence|].
  destruct (search r p pv rs) as [[start st1]|] eqn:Hs; [|congruence].
  intros _. eapply search_sound; eassumption.
Qed.

Lemma FindAllString_sound r s :
  FindAllString r s <> [] ->
  exists pre w post, list_ascii_of_string s = pre ++ w ++ post /\ lang r w.
Proof.
  unfold FindAllString. intros H.
  apply (allMatches_sound (S (String.length s)) r 0 None _ None).
  intros E. rewrite E in H. apply H. reflexivity.
Qed.

Lemma FindAllStringSubmatch_sound r s :
  FindAllStringSubmatch r s <> [] ->
  exists pre w post, list_ascii_of_string s = pre ++ w ++ post /\ lang r w.
Proof.
  unfold FindAllStringSubmatch. intros H.
  apply (allMatches_sound (S (String.length s)) r 0 None _ None).
  intros E. rewrite E in H. apply H. reflexivity.
Qed.

Lemma lang_literal s w : lang (literal s) w -> w = list_ascii_of_string s.
Proof.
  revert w. induction s as [|c s IH]; intros w; cbn [literal lang list_ascii_of_string].
  - auto.
  - intros (u & v & -> & (c' & -> & Hc) & Hv).
    apply IH in Hv. subst v. unfold isChar in Hc.
    apply Ascii.eqb_eq in Hc. subst c'. reflexivity.
Qed.

End RegexpProps.

Module PreFilterProps.
Import GoError Regexp Detectors DetectorSteps RegexpProps.

(** ** Substrings *)

Lemma prefix_of_app (k s : string) (post : list ascii) :
  list_ascii_of_string s = list_ascii_of_string k ++ post ->
  String.prefix k s = true.
Proof.
  revert s. induction k as [|c k IH]; intros s H.
  - destruct s; reflexivity.
  - destruct s as [|c' s]; cbn [list_ascii_of_string app] in H; [discriminate|].
    injection H as <- H. cbn [String.prefix].
    destruct (ascii_dec c' c') as [_|N]; [|congruence].
    apply IH, H.
Qed.

Lemma Contains_of_app (k s : string) (pre post : list ascii) :
  list_ascii_of_string s = pre ++ list_ascii_of_string k ++ post ->
  Contains s k = true.
Proof.
  revert s. induction pre as [|c pre IH]; intros s H.
  - cbn [app] in H. apply prefix_of_app in H.
    destruct s; cbn [Contains]; rewrite H; reflexivity.
  - destruct s as [|c' s]; cbn [list_ascii_of_string app] in H; [discriminate|].
    injection H as <- H. cbn [Contains].
    destruct (String.prefix k _); [reflexivity|].
    apply IH, H.
Qed.

Lemma ToLower_list (s : string) :
  list_ascii_of_string (ToLower s) = map toLowerChar (list_ascii_of_string s).
Proof.
  induction s as [|c s IH]; cbn [ToLower list_ascii_of_string map]; congruence.
Qed.

(** If the data holds the bytes of a lowercase keyword, its lowercased form
    holds the keyword. *)
Lemma lowered_contains (kw data : string) (pre post : list ascii) :
  ToLower kw = kw ->
  list_ascii_of_string data = pre ++ list_ascii_of_string kw ++ post ->
  Contains (ToLower data) kw = true.
Proof.
  intros Hk H.
  apply (Contains_of_app kw (ToLower data)
           (map toLowerChar pre) (map toLowerChar post)).
  rewrite ToLower_list, H, !map_app, <- ToLower_list, Hk. reflexivity.
Qed.

(** ** okta: the domain pattern spells the keyword *)

Lemma domainPat_spells_okta (w : list ascii) :
  lang Okta.domainPat w ->
  exists a b, w = a ++ list_ascii_of_string "okta" ++ b.
Proof.
  unfold Okta.domainPat. cbn [lang].
  intros (u & v & -> & _ & (l & v' & -> & Hl & _)).
  apply lang_literal in Hl. subst l.
  exists (u ++ ["."%char]), v'.
  rewrite <- !app_assoc. reflexivity.
Qed.

Lemma okta_no_domain_no_result E verify data tokens (st : LoopState) :
  FindAllString Okta.domainPat data = [] ->
  forEach (Okta.perToken E verify data) tokens st = Running st.
Proof.
  intros Hd. induction tokens as [|token tokens IH]; cbn [forEach].
  - reflexivity.
  - unfold Okta.perToken at 1. rewrite Hd. cbn [forEach]. exact IH.
Qed.

Lemma okta_prefilter_sound (E : Env) :
  PreFilterSound Okta.Keywords (Okta.FromData E).
Proof.
  intros verify data net Hres.
  destruct (FindAllString Okta.domainPat data) as [|d ds] eqn:Hd.
  - exfalso. apply Hres. unfold Okta.FromData.
    rewrite okta_no_domain_no_result by exact Hd. reflexivity.
  - assert (Hne : FindAllString Okta.domainPat data <> []) by congruence.
    apply FindAllString_sound in Hne.
    destruct Hne as (pre & w & post & Hdata & Hw).
    apply domainPat_spells_okta in Hw. destruct Hw as (a & b & ->).
    unfold passesPreFilter, Okta.Keywords. cbn [existsb].
    rewrite (lowered_contains "okta" data (pre ++ a) (b ++ post)); [reflexivity..|].
    rewrite Hdata, <- !app_assoc. reflexivity.
Qed.

(** ** The detectors whose key pattern starts with [PrefixRegex] *)

Ltac usePrefix HP Hres :=
  match type of Hres with
  | context [FindAllStringSubmatch (withPrefix ?E ?k ?r) ?data] =>
      apply (HP r data); let Hm := fresh "Hm" in
      intros Hm; change (FindAllStringSubmatch (withPrefix E k r) data = []) in Hm;
      apply Hres; rewrite Hm; reflexivity
  end.

Lemma prefixed_prefilter_sound (E : Env) :
  (PrefixSound E Abuseipdb.Keywords ->
   PreFilterSound Abuseipdb.Keywords (Abuseipdb.FromData E))
  /\ (PrefixSound E Walkscore.Keywords ->
      PreFilterSound Walkscore.Keywords (Walkscore.FromData E))
  /\ (PrefixSound E Verifier.Keywords ->
      PreFilterSound Verifier.Keywords (Verifier.FromData E))
  /\ (PrefixSound E Currencycloud.Keywords ->
      PreFilterSound Currencycloud.Keywords (Currencycloud.FromData E))
  /\ (PrefixSound E Text2data.Keywords ->
      PreFilterSound Text2data.Keywords (Text2data.FromData E)).
Proof.
  repeat split; intros HP verify data net Hres.
  - unfold Abuseipdb.FromData, Abuseipdb.keyPat in Hres. usePrefix HP Hres.
  - unfold Walkscore.FromData, Walkscore.keyPat in Hres. usePrefix HP Hres.
  - unfold Verifier.FromData, Verifier.keyPat in Hres. usePrefix HP Hres.
  - unfold Currencycloud.FromData, Currencycloud.keyPat in Hres. usePrefix HP Hres.
  - unfold Text2data.FromData, Text2data.keyPat in Hres. usePrefix HP Hres.
Qed.

(** The sample prefix meets the requirement for lowercase keywords. *)
Lemma lang_keywords (kws : list string) (w : list ascii) :
  lang (fold_right (fun kw acc => Alt (literal kw) acc)
                   (Class (fun _ => false)) kws) w ->
  exists kw, In kw kws /\ w = list_ascii_of_string kw.
Proof.
  induction kws as [|kw kws IH]; cbn [fold_right lang].
  - intros (c & _ & H). discriminate.
  - intros [H|H].
    + exists kw. split; [left; reflexivity|apply lang_literal, H].
    + destruct (IH H) as (kw' & Hin & Hw). exists kw'. split; [right|]; assumption.
Qed.

Lemma sample_PrefixSound (a : Response + error) (kws : list string) :
  Forall (fun kw => ToLower kw = kw) kws ->
  PrefixSound (sampleEnv a) kws.
Proof.
  intros Hlow r data Hm.
  apply FindAllStringSubmatch_sound in Hm.
  destruct Hm as (pre & w & post & Hdata & Hw).
  cbn [withPrefix sampleEnv] in Hw. unfold sampleWithPrefix in Hw.
  cbn [lang] in Hw. destruct Hw as (u & v & -> & Hu & _).
  apply lang_keywords in Hu. destruct Hu as (kw & Hin & ->).
  unfold passesPreFilter. apply existsb_exists. exists kw. split; [exact Hin|].
  apply (lowered_contains kw data pre (v ++ post)).
  - apply (proj1 (Forall_forall _ _) Hlow kw Hin).
  - rewrite Hdata, <- !app_assoc. reflexivity.
Qed.

End PreFilterProps.

(* ================================================================== *)
(** * Further properties                                               *)
(* ================================================================== *)

Module SyslogExtra.
Import GoError Syslog SyslogChunks SyslogProps.

(** ** Normalisation of the connection *)

Ltac normalise Ht Hp Hu Hl Hf :=
  unfold verifyConnectionConfig, tlsEnabled, nilString;
  repeat (progress
    (cbv beta iota zeta delta [Protocol ListenAddress TlsCert TlsKey Format andb
                               fst snd];
     rewrite ?Ht, ?Hp, ?Hu, ?Hl, ?Hf;
     change ("tcp" =? "") with false; change ("udp" =? "") with false;
     change ("tcp" =? "udp") with false; change ("udp" =? "udp") with true;
     change (":5140" =? "") with false; change ("rfc3164" =? "") with false)).

(** X1: normalising a connection a second time changes nothing and gives
    the same verdict: [verifyConnectionConfig] is idempotent. *)
Theorem X1_verifyConnectionConfig_idempotent (c : Syslog_conn) :
  verifyConnectionConfig (fst (verifyConnectionConfig c))
  = verifyConnectionConfig c.
Proof.
  destruct c as [p la cert key f].
  destruct (negb (cert =? "") || negb (key =? "")) eqn:Ht;
    destruct (p =? "") eqn:Hp; destruct (p =? "udp") eqn:Hu;
    destruct (la =? "") eqn:Hl; destruct (f =? "") eqn:Hf;
    (eassert (Hr : verifyConnectionConfig (mkConn p la cert key f) = _)
       by (normalise Ht Hp Hu Hl Hf; reflexivity));
    rewrite Hr; cbv beta iota delta [fst];
    normalise Ht Hp Hu Hl Hf; reflexivity.
Qed.

Lemma verifyConnectionConfig_protocol (c : Syslog_conn) :
  Protocol (fst (verifyConnectionConfig c))
  = (if Protocol c =? "" then if tlsEnabled c then "tcp" else "udp"
     else Protocol c)
  /\ tlsEnabled (fst (verifyConnectionConfig c)) = tlsEnabled c.
Proof.
  destruct c as [p la cert key f].
  destruct (negb (cert =? "") || negb (key =? "")) eqn:Ht;
    destruct (p =? "") eqn:Hp; destruct (p =? "udp") eqn:Hu;
    destruct (la =? "") eqn:Hl; destruct (f =? "") eqn:Hf;
    normalise Ht Hp Hu Hl Hf; split; reflexivity.
Qed.

Lemma openListener_unknown (N : Network) (c : Syslog_conn) :
  openListener N c = inr (Errorf "unknown connection type")
  <-> tlsEnabled c = false /\ (Protocol c =? "tcp") = false
      /\ (Protocol c =? "udp") = false.
Proof.
  unfold openListener.
  destruct (tlsEnabled c).
  - destruct (X509KeyPair N _ _); [|destruct (tls_Listen N _ _)];
      split; [discriminate|intros (H & _); discriminate
             |discriminate|intros (H & _); discriminate
             |discriminate|intros (H & _); discriminate].
  - destruct (Protocol c =? "tcp").
    + destruct (net_Listen N _ _);
        split; [discriminate|intros (_ & H & _); discriminate
               |discriminate|intros (_ & H & _); discriminate].
    + destruct (Protocol c =? "udp").
      * destruct (net_ListenPacket N _ _); [|destruct (SetDeadline N)];
          split; [discriminate|intros (_ & _ & H); discriminate
                 |discriminate|intros (_ & _ & H); discriminate
                 |discriminate|intros (_ & _ & H); discriminate].
      * split; auto.
Qed.

Lemma Init_conn numCPU s nm job sid v c conc :
  conn (fst (Init numCPU s nm job sid v (AnySyslog c) conc))
  = Some (fst (verifyConnectionConfig c)).
Proof.
  unfold Init. cbn [UnmarshalTo].
  destruct (verifyConnectionConfig c) as [c' [e|]]; reflexivity.
Qed.

(** X2: [Init] does not check the protocol name.  A connection without TLS
    material whose protocol is neither empty, "tcp" nor "udp" passes
    [Init]; [Chunks] then returns "unknown connection type" without
    emitting anything, and that is the only way to get this error. *)
Theorem X2_unknown_protocol_passes_Init_and_fails_in_Chunks
    (N : Network) (P : Parsers) (numCPU : Z) (s : Source) (nm : string)
    (job sid : Z) (v : bool) (c : Syslog_conn) (conc : Z) (sl : SyslogT)
    (packets : list Turn) (accepts : list AcceptTurn) :
  let s' := fst (Init numCPU s nm job sid v (AnySyslog c) conc) in
  let c' := fst (verifyConnectionConfig c) in
  let unknown :=
    tlsEnabled c = false /\ Protocol c <> "" /\ Protocol c <> "tcp"
    /\ Protocol c <> "udp" in
  conn s' = Some c'
  /\ (Chunks N P s' c' sl packets accepts
      = ([], Some (Errorf "unknown connection type")) <-> unknown)
  /\ (unknown -> snd (Init numCPU s nm job sid v (AnySyslog c) conc) = None).
Proof.
  cbv zeta. split; [apply Init_conn|].
  destruct (verifyConnectionConfig_protocol c) as [Hp Ht].
  split.
  - assert (Hc : Chunks N P (fst (Init numCPU s nm job sid v (AnySyslog c) conc))
                   (fst (verifyConnectionConfig c)) sl packets accepts
                 = ([], Some (Errorf "unknown connection type"))
                 <-> openListener N (fst (verifyConnectionConfig c))
                     = inr (Errorf "unknown connection type")).
    { unfold Chunks.
      destruct (openListener N _) as [[| |]|e]; split; intros H;
        try discriminate; [injection H as ->; reflexivity|].
      injection H as ->. reflexivity. }
    rewrite Hc, openListener_unknown, Ht, Hp.
    destruct (Protocol c =? "") eqn:He.
    + apply String.eqb_eq in He.
      split.
      * intros (Hn & H1 & H2). rewrite Hn in H2. discriminate.
      * intros (_ & Hne & _). contradiction.
    + apply String.eqb_neq in He.
      rewrite !String.eqb_neq. tauto.
  - intros (Hn & _ & _ & Hu).
    unfold Init. cbn [UnmarshalTo].
    pose proof (verifyConnectionConfig_error c) as He.
    destruct (verifyConnectionConfig c) as [c' r]. cbn [snd] in He. subst r.
    rewrite Hn, andb_false_r. reflexivity.
Qed.

(** ** What the read loops emit *)

Lemma readInto_make (n : nat) (payload : list byte) :
  readInto (make n) payload = padded n payload.
Proof.
  unfold padded.
  destruct (Nat.le_ge_cases (List.length payload) n) as [H|H].
  - rewrite readInto_make_short by exact H.
    rewrite firstn_all2 by exact H. reflexivity.
  - rewrite readInto_make_long by exact H.
    replace (n - List.length payload) with 0 by lia.
    symmetry. apply app_nil_r.
Qed.



(** X4: a turn at which the context is cancelled or the read returns EOF
    ends the loop: whatever arrives afterwards is never emitted. *)
Theorem X4_nothing_is_emitted_after_cancel_or_EOF
    P s c sl remoteAddr (pre post : list Turn) (t : Turn) :
  endsLoop t = true ->
  acceptUDPConnections P s c sl (pre ++ t :: post)
  = acceptUDPConnections P s c sl pre
  /\ monitorConnection P s c sl remoteAddr (pre ++ t :: post)
     = monitorConnection P s c sl remoteAddr pre.
Proof.
  unfold endsLoop. intros Ht.
  assert (Hu : acceptUDPConnections P s c sl (t :: post) = []).
  { cbn [acceptUDPConnections].
    destruct (ctxDone t); [reflexivity|].
    destruct (result t); [discriminate|reflexivity|discriminate]. }
  assert (Hm : monitorConnection P s c sl remoteAddr (t :: post) = []).
  { cbn [monitorConnection].
    destruct (ctxDone t); [reflexivity|].
    destruct (result t); [discriminate|reflexivity|discriminate]. }
  split; induction pre as [|x pre IH]; cbn [app]; try assumption.
  - cbn [acceptUDPConnections].
    destruct (ctxDone x); [reflexivity|].
    destruct (result x) as [payload remote| |]; [|reflexivity|exact IH].
    destruct (parseSyslogMetadata _ _ _ _ _ _) as [md e].
    rewrite IH. reflexivity.
  - cbn [monitorConnection].
    destruct (ctxDone x); [reflexivity|].
    destruct (result x) as [payload remote| |]; [|reflexivity|exact IH].
    destruct (parseSyslogMetadata _ _ _ _ _ _) as [md e].
    rewrite IH. reflexivity.
Qed.

(** X4 at a concrete input: a packet, then EOF, then another packet. *)
Lemma X4_nothing_is_emitted_after_cancel_or_EOF_witness :
  acceptUDPConnections failingParsers sampleSource plainUdpConn sampleSyslog
    ([mkTurn false (ReadOk hiPacket "10.0.0.1:514")]
     ++ mkTurn false ReadEOF :: [mkTurn false (ReadOk hiPacket "10.0.0.2:514")])
  = acceptUDPConnections failingParsers sampleSource plainUdpConn sampleSyslog
      [mkTurn false (ReadOk hiPacket "10.0.0.1:514")]
  /\ monitorConnection failingParsers sampleSource plainUdpConn sampleSyslog
       "10.0.0.1:40000"
       ([mkTurn false (ReadOk hiPacket "10.0.0.1:514")]
        ++ mkTurn false ReadEOF
           :: [mkTurn false (ReadOk hiPacket "10.0.0.2:514")])
     = monitorConnection failingParsers sampleSource plainUdpConn sampleSyslog
         "10.0.0.1:40000" [mkTurn false (ReadOk hiPacket "10.0.0.1:514")].
Proof.
  apply (X4_nothing_is_emitted_after_cancel_or_EOF failingParsers sampleSource
           plainUdpConn sampleSyslog "10.0.0.1:40000"
           [mkTurn false (ReadOk hiPacket "10.0.0.1:514")]
           [mkTurn false (ReadOk hiPacket "10.0.0.2:514")]
           (mkTurn false ReadEOF)).
  reflexivity.
Defined.

(** X5: a read that fails with an error other than EOF is skipped and the
    loop goes on: the chunks are those of the same turns without it. *)
Theorem X5_a_failed_read_is_skipped
    P s c sl remoteAddr (pre post : list Turn) (t : Turn) :
  isSkipped t = true ->
  acceptUDPConnections P s c sl (pre ++ t :: post)
  = acceptUDPConnections P s c sl (pre ++ post)
  /\ monitorConnection P s c sl remoteAddr (pre ++ t :: post)
     = monitorConnection P s c sl remoteAddr (pre ++ post).
Proof.
  unfold isSkipped. intros Ht.
  assert (Hu : acceptUDPConnections P s c sl (t :: post)
               = acceptUDPConnections P s c sl post).
  { cbn [acceptUDPConnections].
    destruct (ctxDone t); [discriminate|].
    destruct (result t); [discriminate|discriminate|reflexivity]. }
  assert (Hm : monitorConnection P s c sl remoteAddr (t :: post)
               = monitorConnection P s c sl remoteAddr post).
  { cbn [monitorConnection].
    destruct (ctxDone t); [discriminate|].
    destruct (result t); [discriminate|discriminate|reflexivity]. }
  split; induction pre as [|x pre IH]; cbn [app]; try assumption.
  - cbn [acceptUDPConnections]. rewrite IH. reflexivity.
  - cbn [monitorConnection]. rewrite IH. reflexivity.
Qed.

(** X5 at a concrete input: a read that times out between two packets. *)
Lemma X5_a_failed_read_is_skipped_witness :
  acceptUDPConnections failingParsers sampleSource plainUdpConn sampleSyslog
    ([mkTurn false (ReadOk hiPacket "10.0.0.1:514")]
     ++ mkTurn false ReadErr :: [mkTurn false (ReadOk hiPacket "10.0.0.2:514")])
  = acceptUDPConnections failingParsers sampleSource plainUdpConn sampleSyslog
      ([mkTurn false (ReadOk hiPacket "10.0.0.1:514")]
       ++ [mkTurn false (ReadOk hiPacket "10.0.0.2:514")])
  /\ monitorConnection failingParsers sampleSource plainUdpConn sampleSyslog
       "10.0.0.1:40000"
       ([mkTurn false (ReadOk hiPacket "10.0.0.1:514")]
        ++ mkTurn false ReadErr
           :: [mkTurn false (ReadOk hiPacket "10.0.0.2:514")])
     = monitorConnection failingParsers sampleSource plainUdpConn sampleSyslog
         "10.0.0.1:40000"
         ([mkTurn false (ReadOk hiPacket "10.0.0.1:514")]
          ++ [mkTurn false (ReadOk hiPacket "10.0.0.2:514")]).
Proof.
  apply (X5_a_failed_read_is_skipped failingParsers sampleSource
           plainUdpConn sampleSyslog "10.0.0.1:40000"
           [mkTurn false (ReadOk hiPacket "10.0.0.1:514")]
           [mkTurn false (ReadOk hiPacket "10.0.0.2:514")]
           (mkTurn false ReadErr)).
  reflexivity.
Defined.

(** ** From [Init] to the chunks *)

Lemma Init_ok numCPU s nm job sid v c conc s' :
  Init numCPU s nm job sid v (AnySyslog c) conc = (s', None) ->
  s' = mkSource nm sid job v
         (Some (NewSyslog SOURCE_TYPE_SYSLOG job sid nm v numCPU syslogMetadata))
         (Some (fst (verifyConnectionConfig c))).
Proof.
  unfold Init. cbn [UnmarshalTo].
  destruct (verifyConnectionConfig c) as [c' [e|]]; intros H;
    [discriminate|].
  injection H as <-. reflexivity.
Qed.

(** Every list of chunks [Chunks] hands out is the output of one of the
    two read loops. *)
Lemma Chunks_loops N P s c sl packets accepts chunks :
  In chunks (fst (Chunks N P s c sl packets accepts)) ->
  chunks = acceptUDPConnections P s c sl packets
  \/ exists remoteAddr reads,
       chunks = monitorConnection P s c sl remoteAddr reads.
Proof.
  assert (Ht : In chunks (acceptTCPConnections P s c sl accepts) ->
               exists remoteAddr reads,
                 chunks = monitorConnection P s c sl remoteAddr reads).
  { induction accepts as [|t rest IH]; cbn [acceptTCPConnections].
    - intros [].
    - destruct (acceptDone t); [intros []|].
      destruct (accepted t) as [[remoteAddr reads]|]; [|exact IH].
      intros [<-|H]; [exists remoteAddr, reads; reflexivity|apply IH, H]. }
  unfold Chunks.
  destruct (openListener N c) as [[| |]|e]; cbn [fst].
  - intros H. right. apply Ht, H.
  - intros H. right. apply Ht, H.
  - intros [<-|[]]. left. reflexivity.
  - intros [].
Qed.

(** X6: after a successful [Init], every chunk [Chunks] emits, from the UDP
    listener or from any TCP connection, carries the name and the source id
    given to [Init], the verify flag given to [Init], and the SYSLOG source
    type. *)
Theorem X6_chunks_carry_what_Init_was_given
    (N : Network) (P : Parsers) (numCPU : Z) (s0 : Source) (nm : string)
    (job sid : Z) (v : bool) (c : Syslog_conn) (conc : Z) (s' : Source) :
  Init numCPU s0 nm job sid v (AnySyslog c) conc = (s', None) ->
  exists sl c',
    syslog s' = Some sl /\ conn s' = Some c'
    /\ forall packets accepts chunks ch,
         In chunks (fst (Chunks N P s' c' sl packets accepts)) ->
         In ch chunks ->
         SourceName ch = nm /\ SourceID ch = sid
         /\ ChunkSourceType ch = SOURCE_TYPE_SYSLOG /\ Verify ch = v.
Proof.
  intros H. apply Init_ok in H. subst s'.
  eexists _, _. split; [reflexivity|]. split; [reflexivity|].
  intros packets accepts chunks ch Hin Hch.
  cut (forall turns remoteAddr,
         (In ch (acceptUDPConnections P
                   (mkSource nm sid job v
                      (Some (NewSyslog SOURCE_TYPE_SYSLOG job sid nm v numCPU
                               syslogMetadata))
                      (Some (fst (verifyConnectionConfig c))))
                   (fst (verifyConnectionConfig c))
                   (NewSyslog SOURCE_TYPE_SYSLOG job sid nm v numCPU syslogMetadata)
                   turns)
          \/ In ch (monitorConnection P
                      (mkSource nm sid job v
                         (Some (NewSyslog SOURCE_TYPE_SYSLOG job sid nm v numCPU
                                  syslogMetadata))
                         (Some (fst (verifyConnectionConfig c))))
                      (fst (verifyConnectionConfig c))
                      (NewSyslog SOURCE_TYPE_SYSLOG job sid nm v numCPU
                         syslogMetadata)
                      remoteAddr turns)) ->
         SourceName ch = nm /\ SourceID ch = sid
         /\ ChunkSourceType ch = SOURCE_TYPE_SYSLOG /\ Verify ch = v).
  { intros Hcut. apply Chunks_loops in Hin.
    destruct Hin as [->|(remoteAddr & reads & ->)].
    - apply (Hcut packets ""). left. exact Hch.
    - apply (Hcut reads remoteAddr). right. exact Hch. }
  clear. intros turns remoteAddr.
  induction turns as [|t rest IH];
    cbn [acceptUDPConnections monitorConnection]; [intros [[]|[]]|].
  destruct (ctxDone t); [intros [[]|[]]|].
  destruct (result t) as [payload remote| |]; [|intros [[]|[]]|exact IH].
  do 2 destruct (parseSyslogMetadata _ _ _ _ _ _) as [? ?].
  intros [[<-|H]|[<-|H]]; try (repeat split; reflexivity);
    apply IH; [left|right]; exact H.
Qed.

(** X6 at a concrete input: [plainUdpConn], one packet. *)
Lemma X6_chunks_carry_what_Init_was_given_witness :
  exists sl c',
    syslog (fst (Init 4 emptySource "syslog" 7 9 true (AnySyslog plainUdpConn) 1))
    = Some sl
    /\ conn (fst (Init 4 emptySource "syslog" 7 9 true (AnySyslog plainUdpConn) 1))
       = Some c'
    /\ forall packets accepts chunks ch,
         In chunks
            (fst (Chunks openNetwork failingParsers
                    (fst (Init 4 emptySource "syslog" 7 9 true
                            (AnySyslog plainUdpConn) 1))
                    c' sl packets accepts)) ->
         In ch chunks ->
         SourceName ch = "syslog" /\ SourceID ch = 9%Z
         /\ ChunkSourceType ch = SOURCE_TYPE_SYSLOG /\ Verify ch = true.
Proof.
  apply (X6_chunks_carry_what_Init_was_given openNetwork failingParsers 4
           emptySource "syslog" 7 9 true plainUdpConn 1).
  reflexivity.
Defined.

Lemma verifyConnectionConfig_format (c : Syslog_conn) :
  snd (verifyConnectionConfig c) = None ->
  Format (fst (verifyConnectionConfig c))
  = if Format c =? "" then "rfc3164" else Format c.
Proof.
  destruct c as [p la cert key f].
  destruct (negb (cert =? "") || negb (key =? "")) eqn:Ht;
    destruct (p =? "") eqn:Hp; destruct (p =? "udp") eqn:Hu;
    destruct (la =? "") eqn:Hl; destruct (f =? "") eqn:Hf;
    normalise Ht Hp Hu Hl Hf; intros H; first [discriminate H|reflexivity].
Qed.

Lemma parse_client P s c sl input remote m :
  sourceMetadataFunc sl = syslogMetadata ->
  fst (parseSyslogMetadata P s c sl input remote) = Some (MetaData_Syslog m) ->
  Client m = remote.
Proof.
  intros Hf. unfold parseSyslogMetadata. rewrite Hf.
  destruct (Format c =? "rfc5424").
  - destruct (rfc5424_UnmarshalBinary P input); cbn [fst]; intros H;
      [|discriminate].
    injection H as <-. reflexivity.
  - destruct (Format c =? "rfc3164"); [|discriminate].
    destruct (rfc3164_Parse P input); cbn [fst]; intros H; [|discriminate].
    injection H as <-. reflexivity.
Qed.

Lemma parse_unknown_format P s c sl input remote :
  (Format c =? "rfc5424") = false -> (Format c =? "rfc3164") = false ->
  fst (parseSyslogMetadata P s c sl input remote) = None.
Proof.
  intros H1 H2. unfold parseSyslogMetadata. rewrite H1, H2. reflexivity.
Qed.

(** X7: after a successful [Init], metadata that is present names the
    sender: for a TCP connection the client is the remote address of the
    connection, for the UDP listener the address the packet of that chunk
    came from.  A format other than "rfc3164" and "rfc5424" is accepted by
    [Init], and then no chunk ever carries metadata. *)
Theorem X7_metadata_names_the_sender
    (P : Parsers) (numCPU : Z) (s0 : Source) (nm : string) (job sid : Z)
    (v : bool) (c : Syslog_conn) (conc : Z) (s' : Source) (sl : SyslogT)
    (c' : Syslog_conn) (remoteAddr : string) (turns : list Turn) :
  Init numCPU s0 nm job sid v (AnySyslog c) conc = (s', None) ->
  syslog s' = Some sl ->
  conn s' = Some c' ->
  (forall ch m,
      In ch (monitorConnection P s' c' sl remoteAddr turns) ->
      SourceMetadata ch = Some (MetaData_Syslog m) ->
      Client m = remoteAddr)
  /\ (forall ch m,
        In ch (acceptUDPConnections P s' c' sl turns) ->
        SourceMetadata ch = Some (MetaData_Syslog m) ->
        exists payload,
          In (payload, Client m) (deliveredReads turns)
          /\ Data ch = padded udpBufferSize payload)
  /\ (Format c <> "" -> Format c <> "rfc3164" -> Format c <> "rfc5424" ->
      forall ch,
        In ch (monitorConnection P s' c' sl remoteAddr turns
               ++ acceptUDPConnections P s' c' sl turns) ->
        SourceMetadata ch = None).
Proof.
  intros HI Hsl Hc.
  assert (Hacc : snd (verifyConnectionConfig c) = None).
  { revert HI. unfold Init. cbn [UnmarshalTo].
    destruct (verifyConnectionConfig c) as [c1 [e|]]; [discriminate|reflexivity]. }
  apply Init_ok in HI. subst s'. cbn [syslog conn] in Hsl, Hc.
  injection Hsl as <-. injection Hc as <-.
  set (s' := mkSource _ _ _ _ _ _). set (sl := NewSyslog _ _ _ _ _ _ _).
  set (c' := fst (verifyConnectionConfig c)).
  assert (Hf : sourceMetadataFunc sl = syslogMetadata) by reflexivity.
  split; [|split].
  - intros ch m. induction turns as [|t rest IH]; cbn [monitorConnection];
      [intros []|].
    destruct (ctxDone t); [intros []|].
    destruct (result t) as [payload remote| |]; [|intros []|exact IH].
    destruct (parseSyslogMetadata _ _ _ _ _ _) as [md e] eqn:Hp.
    intros [<-|H]; [|apply IH, H].
    cbn [SourceMetadata mkSyslogChunk]. intros ->.
    apply (parse_client P s' c' sl
             (readInto (make tcpBufferSize) payload) remoteAddr m Hf).
    rewrite Hp. reflexivity.
  - intros ch m. induction turns as [|t rest IH];
      cbn [acceptUDPConnections deliveredReads]; [intros []|].
    destruct (ctxDone t); [intros []|].
    destruct (result t) as [payload remote| |]; [|intros []|exact IH].
    destruct (parseSyslogMetadata _ _ _ _ _ _) as [md e] eqn:Hp.
    intros [<-|H].
    + cbn [SourceMetadata mkSyslogChunk Data]. intros ->.
      exists payload. split; [|apply readInto_make].
      left. f_equal. symmetry.
      apply (parse_client P s' c' sl
               (readInto (make udpBufferSize) payload) remote m Hf).
      rewrite Hp. reflexivity.
    + intros Hm. destruct (IH H Hm) as (p & Hin & Hd).
      exists p. split; [right; exact Hin|exact Hd].
  - intros H0 H1 H2.
    assert (Hfmt : Format c' = Format c).
    { unfold c'. rewrite verifyConnectionConfig_format by exact Hacc.
      apply String.eqb_neq in H0. rewrite H0. reflexivity. }
    assert (E1 : (Format c' =? "rfc5424") = false)
      by (rewrite Hfmt; apply String.eqb_neq, H2).
    assert (E2 : (Format c' =? "rfc3164") = false)
      by (rewrite Hfmt; apply String.eqb_neq, H1).
    intros ch Hin. apply in_app_or in Hin.
    destruct Hin as [Hin|Hin]; revert Hin;
      (induction turns as [|t rest IH];
       cbn [acceptUDPConnections monitorConnection]; [intros []|]);
      (destruct (ctxDone t); [intros []|]);
      (destruct (result t) as [payload remote| |]; [|intros []|exact IH]);
      (destruct (parseSyslogMetadata _ _ _ _ _ _) as [md e] eqn:Hp);
      (intros [<-|H]; [|apply IH, H]);
      cbn [SourceMetadata mkSyslogChunk];
      match type of Hp with
      | parseSyslogMetadata ?P ?s ?c ?sl ?i ?r = _ =>
          pose proof (parse_unknown_format P s c sl i r E1 E2) as Hn;
          rewrite Hp in Hn; exact Hn
      end.
Qed.

(** X7 at a concrete input: format "cef", one packet. *)
Lemma X7_metadata_names_the_sender_witness :
  let s' := fst (Init 4 emptySource "syslog" 7 9 true
                   (AnySyslog (mkConn "udp" "" "" "" "cef")) 1) in
  let sl := NewSyslog SOURCE_TYPE_SYSLOG 7 9 "syslog" true 4 syslogMetadata in
  let c' := mkConn "udp" ":5140" "" "" "cef" in
  let turns := [mkTurn false (ReadOk hiPacket "10.0.0.1:514")] in
  (forall ch m,
      In ch (monitorConnection failingParsers s' c' sl "10.0.0.1:40000" turns) ->
      SourceMetadata ch = Some (MetaData_Syslog m) ->
      Client m = "10.0.0.1:40000")
  /\ (forall ch m,
        In ch (acceptUDPConnections failingParsers s' c' sl turns) ->
        SourceMetadata ch = Some (MetaData_Syslog m) ->
        exists payload,
          In (payload, Client m) (deliveredReads turns)
          /\ Data ch = padded udpBufferSize payload)
  /\ ("cef" <> "" -> "cef" <> "rfc3164" -> "cef" <> "rfc5424" ->
      forall ch,
        In ch (monitorConnection failingParsers s' c' sl "10.0.0.1:40000" turns
               ++ acceptUDPConnections failingParsers s' c' sl turns) ->
        SourceMetadata ch = None).
Proof.
  apply (X7_metadata_names_the_sender failingParsers 4 emptySource "syslog" 7 9
           true (mkConn "udp" "" "" "" "cef") 1); reflexivity.
Defined.

End SyslogExtra.

Module SanitizerExtra.
Import Utf8 Utf8Classes Strings Sanitizer SanitizerProps.
Local Open Scope N_scope.

(** ** Valid input and valid prefixes *)

(** X8: on valid UTF-8 the sanitizer removes the NUL bytes and nothing
    else; it returns its input unchanged exactly when the input is valid
    UTF-8 without a NUL byte. *)
Theorem X8_sanitizer_fixed_points (x : list byte) :
  (ValidUTF8 x -> UTF8 x = filter notNUL x)
  /\ (UTF8 x = x <-> ValidUTF8 x /\ ~ In x00 x).
Proof.
  split.
  - intros Hv. rewrite UTF8_unfold, ToValidUTF8_fixes_valid by exact Hv.
    reflexivity.
  - split.
    + intros H. rewrite <- H. split; [apply UTF8_valid|apply UTF8_no_NUL].
    + intros [Hv Hn].
      rewrite UTF8_unfold, ToValidUTF8_fixes_valid by exact Hv.
      apply filter_notNUL_id, Hn.
Qed.

(** X9: a valid prefix does not influence how the rest is sanitized: the
    output for [a ++ b] is [a] without its NULs followed by the output for
    [b]. *)
Theorem X9_sanitizer_after_a_valid_prefix (a b : list byte) :
  ValidUTF8 a ->
  UTF8 (a ++ b) = filter notNUL a ++ UTF8 b.
Proof.
  intros Hv.
  rewrite !UTF8_unfold, !ToValidUTF8_loop.
  rewrite (toValidLoop_copies_valid a Hv) by apply Nat.le_refl.
  rewrite filter_app.
  destruct a; reflexivity.
Qed.

(** X9 at a concrete input: "ab" before the bytes 0xFF 0x00 "c". *)
Lemma X9_sanitizer_after_a_valid_prefix_witness :
  UTF8 ([x61; x62] ++ [xff; x00; x63])
  = filter notNUL [x61; x62] ++ UTF8 [xff; x00; x63].
Proof.
  apply (X9_sanitizer_after_a_valid_prefix [x61; x62] [xff; x00; x63]).
  apply valid_ascii; [reflexivity|].
  apply valid_ascii; [reflexivity|].
  apply valid_nil.
Defined.

(** ** Size *)

Lemma toValidLoop_length (fuel : nat) :
  forall (s : list byte) (invalid : bool),
    (List.length (toValidLoop fuel s replacement invalid)
     <= 3 * List.length s)%nat.
Proof.
  induction fuel as [|fuel IH]; intros s invalid; cbn [toValidLoop].
  - cbn [List.length]. lia.
  - destruct s as [|c t]; [cbn [List.length]; lia|].
    destruct (Byte.to_N c <? RuneSelf).
    + cbn [List.length]. specialize (IH t false). lia.
    + pose proof (decode_width_pos c t) as Hpos.
      destruct (DecodeRuneInString (c :: t)) as [rn wid]. cbn [snd] in Hpos.
      destruct (wid =? 1)%nat.
      * destruct invalid; cbn [negb].
        -- specialize (IH t true). cbn [List.length]. lia.
        -- rewrite length_app. specialize (IH t true).
           cbn [List.length replacement]. lia.
      * rewrite length_app, length_firstn.
        specialize (IH (skipn wid (c :: t)) false).
        rewrite length_skipn in IH. lia.
Qed.

Lemma filter_length_le {A : Type} (f : A -> bool) (l : list A) :
  (List.length (filter f l) <= List.length l)%nat.
Proof.
  induction l as [|a l IH]; [apply Nat.le_refl|].
  cbn [filter]. destruct (f a); cbn [List.length]; lia.
Qed.

(** X10: the output of the sanitizer is at most three times as long as its
    input (each invalid byte costs at most the three bytes of the
    replacement character), and no longer than the input when the input is
    valid. *)
Theorem X10_sanitizer_output_size (x : list byte) :
  (List.length (UTF8 x) <= 3 * List.length x)%nat
  /\ (ValidUTF8 x -> (List.length (UTF8 x) <= List.length x)%nat).
Proof.
  split.
  - rewrite UTF8_unfold, ToValidUTF8_loop.
    etransitivity; [apply filter_length_le|apply toValidLoop_length].
  - intros Hv. rewrite UTF8_unfold, ToValidUTF8_fixes_valid by exact Hv.
    apply filter_length_le.
Qed.

(** ** Runs of invalid bytes *)

(** X11: between valid text, a non-empty run of bytes that cannot start a
    UTF-8 sequence (0x80 to 0xC1, and 0xF5 to 0xFF) is replaced by exactly
    one replacement character, however long the run is. *)
Theorem X11_one_replacement_per_invalid_run (a l b : list byte) :
  ValidUTF8 a -> ValidUTF8 b ->
  l <> [] -> forallb strayByte l = true ->
  UTF8 (a ++ l ++ b)
  = filter notNUL a ++ replacement ++ filter notNUL b.
Proof.
  intros Ha Hb Hne Hl.
  rewrite (UTF8_after_valid a (l ++ b) Ha).
  f_equal.
  rewrite UTF8_unfold, ToValidUTF8_loop.
  rewrite (toValidLoop_stray_run l Hne Hl) by (try assumption; apply Nat.le_refl).
  rewrite filter_app. reflexivity.
Qed.

(** X11 at a concrete input: "a", then 0x80 0xFF 0xC0, then "b". *)
Lemma X11_one_replacement_per_invalid_run_witness :
  UTF8 ([x61] ++ [x80; xff; xc0] ++ [x62])
  = filter notNUL [x61] ++ replacement ++ filter notNUL [x62].
Proof.
  apply (X11_one_replacement_per_invalid_run [x61] [x80; xff; xc0] [x62]).
  - apply valid_ascii; [reflexivity|apply valid_nil].
  - apply valid_ascii; [reflexivity|apply valid_nil].
  - discriminate.
  - reflexivity.
Defined.

End SanitizerExtra.

Module RegexpExtra.
Import Regexp RegexpPositions RegexpProps.

(** ** Where a match lies in the input *)

Ltac chain Hu Hv Pu Pv :=
  split; [rewrite Hu, Hv, app_assoc; reflexivity|];
  split; [rewrite Pv, Pu, length_app; lia|].

Lemma matchRe_pos (r : regexp) : PosSound r.
Proof.
  unfold PosSound.
  induction r as [|f|a IHa b IHb|a IHa b IHb|a IHa lo hi|a IHa| |i a IHa];
    intros st k res H; cbn [matchRe] in H.
  - exists [], st. cbn [lang List.length]. rewrite Nat.add_0_r. auto.
  - destruct (rest st) as [|c t] eqn:Hr; [discriminate|].
    destruct (f c) eqn:Hf; [|discriminate].
    exists [c], (mkState (S (pos st)) (Some c) t (caps st)).
    split; [reflexivity|]. split; [cbn [pos List.length]; lia|].
    split; [|exact H]. exists c. auto.
  - apply IHa in H. destruct H as (u & st1 & Hu & Pu & La & H).
    apply IHb in H. destruct H as (v & st2 & Hv & Pv & Lb & H).
    exists (u ++ v), st2. chain Hu Hv Pu Pv.
    split; [|exact H]. exists u, v. auto.
  - destruct (matchRe a st k) as [x|] eqn:Ha.
    + injection H as <-. apply IHa in Ha.
      destruct Ha as (w & st1 & Hw & Pw & La & Hk).
      exists w, st1. cbn [lang]. auto.
    + apply IHb in H. destruct H as (w & st1 & Hw & Pw & Lb & Hk).
      exists w, st1. cbn [lang]. auto.
  - revert lo st k res H.
    induction hi as [|hi IH]; intros lo st k res H.
    + destruct lo; [|discriminate].
      exists [], st. split; [reflexivity|].
      split; [cbn [List.length]; lia|]. split; [|exact H].
      exists 0. split; [lia|reflexivity].
    + destruct lo as [|lo].
      * match type of H with
        | match ?m with _ => _ end = _ => destruct m as [x|] eqn:Ha
        end.
        -- injection H as <-. apply IHa in Ha.
           destruct Ha as (u & st1 & Hu & Pu & La & Hk).
           destruct (pos st1 =? pos st)%nat; [discriminate|].
           apply IH in Hk.
           destruct Hk as (v & st2 & Hv & Pv & (n & Hn & Pn) & Hk).
           exists (u ++ v), st2. chain Hu Hv Pu Pv.
           split; [|exact Hk].
           exists (S n). split; [lia|]. exists u, v. auto.
        -- exists [], st. split; [reflexivity|].
           split; [cbn [List.length]; lia|]. split; [|exact H].
           exists 0. split; [lia|reflexivity].
      * apply IHa in H. destruct H as (u & st1 & Hu & Pu & La & Hk).
        apply IH in Hk.
        destruct Hk as (v & st2 & Hv & Pv & (n & Hn & Pn) & Hk).
        exists (u ++ v), st2. chain Hu Hv Pu Pv.
        split; [|exact Hk].
        exists (S n). split; [lia|]. exists u, v. auto.
  - revert H. generalize (List.length (rest st)) as fuel. intros fuel.
    revert st k res.
    induction fuel as [|fuel IH]; intros st k res H.
    + exists [], st. split; [reflexivity|].
      split; [cbn [List.length]; lia|]. split; [|exact H].
      exists 0. reflexivity.
    + match type of H with
      | match ?m with _ => _ end = _ => destruct m as [x|] eqn:Ha
      end.
      * injection H as <-. apply IHa in Ha.
        destruct Ha as (u & st1 & Hu & Pu & La & Hk).
        destruct (pos st1 =? pos st)%nat; [discriminate|].
        apply IH in Hk. destruct Hk as (v & st2 & Hv & Pv & (n & Pn) & Hk).
        exists (u ++ v), st2. chain Hu Hv Pu Pv.
        split; [|exact Hk].
        exists (S n). exists u, v. auto.
      * exists [], st. split; [reflexivity|].
        split; [cbn [List.length]; lia|]. split; [|exact H].
        exists 0. reflexivity.
  - destruct (xorb _ _); [|discriminate].
    exists [], st. cbn [lang List.length]. rewrite Nat.add_0_r. auto.
  - apply IHa in H. destruct H as (w & st1 & Hw & Pw & La & Hk).
    eexists w, _. split; [|split; [|split; [exact La|exact Hk]]].
    + exact Hw.
    + exact Pw.
Qed.

Lemma search_pos r p pv rs start st1 :
  search r p pv rs = Some (start, st1) ->
  exists pre w,
    rs = pre ++ w ++ rest st1 /\ start = p + List.length pre
    /\ pos st1 = start + List.length w /\ lang r w.
Proof.
  revert p pv. induction rs as [|c t IH]; intros p pv H; cbn [search] in H.
  - destruct (matchRe r _ _) as [x|] eqn:Hm; [|discriminate].
    injection H as <- <-.
    apply matchRe_pos in Hm. destruct Hm as (w & st2 & Hw & Pw & L & Hk).
    injection Hk as <-. cbn [rest pos] in Hw, Pw.
    exists [], w. cbn [app List.length]. repeat split; auto; lia.
  - destruct (matchRe r _ _) as [x|] eqn:Hm.
    + injection H as <- <-.
      apply matchRe_pos in Hm. destruct Hm as (w & st2 & Hw & Pw & L & Hk).
      injection Hk as <-. cbn [rest pos] in Hw, Pw.
      exists [], w. cbn [app List.length]. repeat split; auto; lia.
    + apply IH in H. destruct H as (pre & w & Hrs & Hst & Hp & L).
      exists (c :: pre), w. rewrite Hrs. cbn [app List.length].
      repeat split; auto; lia.
Qed.

(** Every match [allMatches] delivers is a word of the language that lies
    in the input between the two offsets recorded for it. *)
Lemma allMatches_pos r fuel :
  forall p pv rs prevEnd consumed m,
    List.length consumed = p ->
    In m (allMatches fuel r p pv rs prevEnd) ->
    exists pre w post,
      consumed ++ rs = pre ++ w ++ post /\ List.length pre = fst m
      /\ pos (snd m) = fst m + List.length w /\ lang r w.
Proof.
  induction fuel as [|fuel IH]; intros p pv rs prevEnd consumed m Hc Hin;
    cbn [allMatches] in Hin; [destruct Hin|].
  destruct (search r p pv rs) as [[start st1]|] eqn:Hs; [|destruct Hin].
  apply search_pos in Hs. destruct Hs as (pre & w & Hrs & Hst & Hp & L).
  assert (Hhere : exists pre0 w0 post0,
             consumed ++ rs = pre0 ++ w0 ++ post0
             /\ List.length pre0 = fst (start, st1)
             /\ pos (snd (start, st1)) = fst (start, st1) + List.length w0
             /\ lang r w0).
  { exists (consumed ++ pre), w, (rest st1). cbn [fst snd].
    rewrite Hrs, length_app, <- app_assoc. repeat split; auto; lia. }
  destruct (pos st1 =? p)%nat eqn:Hempty.
  - apply in_app_or in Hin. destruct Hin as [Hin|Hin].
    + destruct (match prevEnd with Some e => negb (start =? e)%nat | None => true end);
        [|destruct Hin].
      destruct Hin as [<-|[]]. exact Hhere.
    + destruct rs as [|c t]; [destruct Hin|].
      apply (IH (S p) (Some c) t (Some (pos st1)) (consumed ++ [c]) m) in Hin.
      * rewrite <- app_assoc in Hin. exact Hin.
      * rewrite length_app. cbn [List.length]. lia.
  - destruct Hin as [<-|Hin]; [exact Hhere|].
    apply (IH (pos st1) (prev st1) (rest st1) (Some (pos st1))
             (consumed ++ pre ++ w) m) in Hin.
    + rewrite <- !app_assoc in Hin. rewrite Hrs. exact Hin.
    + rewrite !length_app. lia.
Qed.

Lemma substring_middle (pre w post : list ascii) :
  substring (List.length pre) (List.length w)
    (string_of_list_ascii (pre ++ w ++ post))
  = string_of_list_ascii w.
Proof.
  induction pre as [|c pre IH]; cbn [app List.length string_of_list_ascii substring].
  - induction w as [|d w IHw];
      cbn [app List.length string_of_list_ascii substring].
    + destruct (string_of_list_ascii post); reflexivity.
    + f_equal. exact IHw.
  - exact IH.
Qed.

Lemma slice_middle (s : string) (pre w post : list ascii) (from to : nat) :
  list_ascii_of_string s = pre ++ w ++ post ->
  List.length pre = from -> to = from + List.length w ->
  slice s from to = string_of_list_ascii w.
Proof.
  intros Hs <- ->. unfold slice.
  rewrite <- (string_of_list_ascii_of_string s), Hs.
  replace (List.length pre + List.length w - List.length pre)
    with (List.length w) by lia.
  apply substring_middle.
Qed.

(** Every string [FindAllString] returns is a piece of the input and a
    word of the expression. *)
Lemma FindAllString_In r s m :
  In m (FindAllString r s) ->
  exists pre w post,
    list_ascii_of_string s = pre ++ w ++ post
    /\ m = string_of_list_ascii w /\ lang r w.
Proof.
  unfold FindAllString. intros H. apply in_map_iff in H.
  destruct H as (x & <- & Hin).
  apply (allMatches_pos r _ 0 None _ None [] x eq_refl) in Hin.
  destruct Hin as (pre & w & post & Hs & Hpre & Hp & L).
  cbn [app] in Hs. exists pre, w, post.
  split; [exact Hs|]. split; [|exact L].
  apply (slice_middle s pre w post); auto.
Qed.

(** ** Patterns of the form [\b(a)\b] *)

(** A match of [\b(a)\b] records group 1 over the whole match. *)
Lemma bounded_match a p pv rs st1 :
  matchRe (bounded a) (mkState p pv rs []) (fun st => Some st) = Some st1 ->
  exists cs, caps st1 = (1, (p, pos st1)) :: cs.
Proof.
  unfold bounded. cbn [matchRe].
  destruct (xorb _ _); [|discriminate].
  intros H. apply matchRe_pos in H.
  destruct H as (w & st' & _ & _ & _ & Hk).
  destruct (xorb _ _); [|discriminate].
  injection Hk as <-. cbn [caps pos]. eexists. reflexivity.
Qed.

Lemma search_bounded a p pv rs start st1 :
  search (bounded a) p pv rs = Some (start, st1) ->
  exists cs, caps st1 = (1, (start, pos st1)) :: cs.
Proof.
  revert p pv. induction rs as [|c t IH]; intros p pv H; cbn [search] in H.
  - destruct (matchRe _ _ _) as [x|] eqn:Hm; [|discriminate].
    injection H as <- <-. eapply bounded_match, Hm.
  - destruct (matchRe _ _ _) as [x|] eqn:Hm.
    + injection H as <- <-. eapply bounded_match, Hm.
    + eapply IH, H.
Qed.

Lemma allMatches_bounded a fuel :
  forall p pv rs prevEnd m,
    In m (allMatches fuel (bounded a) p pv rs prevEnd) ->
    exists cs, caps (snd m) = (1, (fst m, pos (snd m))) :: cs.
Proof.
  induction fuel as [|fuel IH]; intros p pv rs prevEnd m Hin;
    cbn [allMatches] in Hin; [destruct Hin|].
  destruct (search (bounded a) p pv rs) as [[start st1]|] eqn:Hs;
    [|destruct Hin].
  apply search_bounded in Hs.
  destruct (pos st1 =? p)%nat.
  - apply in_app_or in Hin. destruct Hin as [Hin|Hin].
    + destruct (match prevEnd with Some e => negb (start =? e)%nat | None => true end);
        [|destruct Hin].
      destruct Hin as [<-|[]]. exact Hs.
    + destruct rs as [|c t]; [destruct Hin|]. eapply IH, Hin.
  - destruct Hin as [<-|Hin]; [exact Hs|]. eapply IH, Hin.
Qed.

(** For a pattern [\b(a)\b] whose [a] has no group of its own, every match
    [FindAllStringSubmatch] returns is the pair of the whole match and the
    capture, both the same piece of the input, a word of [a]. *)
Lemma FindAllStringSubmatch_bounded a s m :
  numSubexp a = 0 ->
  In m (FindAllStringSubmatch (bounded a) s) ->
  exists pre w post,
    list_ascii_of_string s = pre ++ w ++ post
    /\ m = [string_of_list_ascii w; string_of_list_ascii w] /\ lang a w.
Proof.
  intros Ha. unfold FindAllStringSubmatch. intros H. apply in_map_iff in H.
  destruct H as (x & <- & Hin).
  pose proof (allMatches_bounded a _ _ _ _ _ x Hin) as (cs & Hcaps).
  apply (allMatches_pos (bounded a) _ 0 None _ None [] x eq_refl) in Hin.
  destruct Hin as (pre & w & post & Hs & Hpre & Hp & L).
  cbn [app] in Hs. exists pre, w, post.
  split; [exact Hs|].
  assert (Hw : slice s (fst x) (pos (snd x)) = string_of_list_ascii w)
    by (apply (slice_middle s pre w post); auto).
  split.
  - unfold bounded. cbn [numSubexp]. rewrite Ha. cbn [Nat.max seq map].
    unfold groupText. rewrite Hcaps. cbn [find fst Nat.eqb]. rewrite Hw.
    reflexivity.
  - unfold bounded in L. cbn [lang] in L.
    destruct L as (u & v & -> & -> & (u' & v' & -> & Lu & ->)).
    cbn [app]. rewrite app_nil_r. exact Lu.
Qed.

End RegexpExtra.

Module DetectorExtra.
Import GoError Regexp RegexpPositions Detectors DetectorSteps DetectorWire
  DetectorProps RegexpProps RegexpExtra PreFilterProps.
Local Open Scope string_scope.

(** ** Tracing requests and results along the steps *)

Section TraceFacts.
Variable E : Env.
Variable success : Response -> bool.
Variable link : Request -> string -> Prop.
Variable bypass : Response + error -> Prop.
Variable plainBypass : Prop.
Variable t : DetectorType.
Variable verify : bool.
Variable raws : list string.
Variable net0 : Net.

Local Abbreviation Step' := (Step E success link bypass plainBypass t verify).
Local Abbreviation Traced' := (Traced link t raws).

Lemma Traced_start : Traced' 0 net0 ([], net0).
Proof.
  exists []. cbn [fst snd List.length]. rewrite app_nil_r.
  repeat split; auto.
Qed.

Lemma Traced_weaken n m st :
  n <= m -> Traced' n net0 st -> Traced' m net0 st.
Proof.
  intros Hle (added & Hnet & Hlen & Hreq & Hres).
  exists added. repeat split; auto; lia.
Qed.

Lemma Traced_exchange n st req raw :
  In raw raws -> link req raw ->
  Traced' n net0 st ->
  forall o rs,
    Forall (fun r => DetectorType_ r = t /\ In (Raw r) raws) rs ->
    Traced' (S n) net0 ((fst st ++ rs)%list, (snd st ++ [(req, o)])%list).
Proof.
  intros Hin Hl (added & Hnet & Hlen & Hreq & Hres) o rs Hrs.
  exists (added ++ [(req, o)])%list. cbn [fst snd].
  split; [rewrite Hnet, app_assoc; reflexivity|].
  split; [rewrite length_app; cbn [List.length]; lia|].
  split.
  - apply Forall_app. split; [exact Hreq|].
    apply Forall_cons; [|apply Forall_nil]. exists raw. auto.
  - apply Forall_app. auto.
Qed.

Lemma Step_Traced n raw st st' :
  In raw raws -> Traced' n net0 st -> Step' raw st st' ->
  Traced' (S n) net0 st'.
Proof.
  intros Hin HT HS.
  assert (Hnew : forall v,
             Forall (fun r => DetectorType_ r = t /\ In (Raw r) raws)
                    [setVerified (newResult t raw) v]).
  { intros v. apply Forall_cons; [|apply Forall_nil]. split; [reflexivity|exact Hin]. }
  destruct HS as [|Hv Hp|req Hv Hl Hn|req Hv Hl Hn Hb|req res Hv Hl Ho Hs].
  - apply (Traced_weaken n); [lia|exact HT].
  - apply (Traced_weaken n); [lia|].
    destruct HT as (added & Hnet & Hlen & Hreq & Hres).
    exists added. unfold emit. cbn [fst snd]. repeat split; auto.
    apply Forall_app. split; [exact Hres|apply (Hnew false)].
  - pose proof (Traced_exchange n st req raw Hin Hl HT (outcome E st req) []
                  (Forall_nil _)) as H.
    rewrite app_nil_r in H. exact H.
  - apply (Traced_exchange n st req raw Hin Hl HT (outcome E st req)
             [newResult t raw] (Hnew false)).
  - apply (Traced_exchange n st req raw Hin Hl HT (outcome E st req)
             [setVerified (newResult t raw) true] (Hnew true)).
Qed.

(** A loop whose turns each add at most [b] requests. *)
Lemma Traced_blocks {A : Type} (f : LoopState -> A -> LoopState) (b : nat)
    (xs : list A) :
  (forall st x n, In x xs -> Traced' n net0 st -> Traced' (n + b) net0 (f st x)) ->
  forall n st,
    Traced' n net0 st ->
    Traced' (n + List.length xs * b) net0 (fold_left f xs st).
Proof.
  induction xs as [|x xs IH]; intros Hf n st HT; cbn [fold_left List.length].
  - apply (Traced_weaken n); [lia|exact HT].
  - apply (Traced_weaken (n + b + List.length xs * b)); [lia|].
    apply IH.
    + intros st0 y m Hy. apply Hf. right. exact Hy.
    + apply Hf; [left; reflexivity|exact HT].
Qed.

(** A loop each of whose turns leaves the state alone or is a step for one
    of the candidates. *)
Lemma Traced_fold {A : Type} (f : LoopState -> A -> LoopState)
    (rawOf : A -> string) (xs : list A) :
  (forall st x, In x xs ->
     f st x = st \/ (In (rawOf x) raws /\ Step' (rawOf x) st (f st x))) ->
  forall n st,
    Traced' n net0 st ->
    Traced' (n + List.length xs) net0 (fold_left f xs st).
Proof.
  intros Hf n st HT.
  replace (n + List.length xs) with (n + List.length xs * 1) by lia.
  apply Traced_blocks; [|exact HT].
  intros st0 x m Hx HT0.
  destruct (Hf st0 x Hx) as [->|[Hin HS]].
  - apply (Traced_weaken m); [lia|exact HT0].
  - replace (m + 1) with (S m) by lia. eapply Step_Traced; eassumption.
Qed.

Lemma Traced_forEach {A : Type} (body : LoopState -> A -> Flow)
    (raw : string) (xs : list A) :
  In raw raws ->
  (forall st x, In x xs -> Step' raw st (flowState (body st x))) ->
  forall n st,
    Traced' n net0 st ->
    Traced' (n + List.length xs) net0 (flowState (forEach body xs st)).
Proof.
  intros Hin. induction xs as [|x xs IH]; intros Hf n st HT;
    cbn [forEach flowState List.length].
  - apply (Traced_weaken n); [lia|exact HT].
  - pose proof (Hf st x (or_introl eq_refl)) as HS.
    destruct (body st x) as [st'|st' e]; cbn [flowState] in *.
    + replace (n + S (List.length xs)) with (S n + List.length xs) by lia.
      apply IH; [intros st0 y Hy; apply Hf; right; exact Hy|].
      eapply Step_Traced; eassumption.
    + apply (Traced_weaken (S n)); [lia|].
      eapply Step_Traced; eassumption.
Qed.

Lemma Traced_clean n rs net :
  Traced' n net0 (rs, net) -> Traced' n net0 (CleanResults rs, net).
Proof.
  intros (added & Hnet & Hlen & Hreq & Hres).
  exists added. cbn [fst snd] in *. repeat split; auto.
  apply Forall_forall. intros r Hr. apply CleanResults_In in Hr.
  revert r Hr. apply Forall_forall, Hres.
Qed.

End TraceFacts.

(** ** Each loop body sends the request of its detector *)

Ltac wireTac :=
  unfold abuseipdbWire, walkscoreWire, text2dataWire, verifierWire,
    paypalWire, currencycloudWire, oktaWire;
  first [ reflexivity
        | eexists; split; [eassumption|reflexivity] ].

Ltac stepWire :=
  first
    [ apply StepSkip
    | apply stepSkip; reflexivity
    | apply StepPlain; [assumption || reflexivity | left; exact I]
    | eapply stepVerified;
      [reflexivity | assumption || reflexivity | wireTac | eassumption | successTac]
    | eapply stepDropped;
      [reflexivity | assumption || reflexivity | wireTac | eassumption | successTac]
    | eapply stepUnverified;
      [reflexivity | assumption || reflexivity | wireTac | eassumption | successTac
      | bypassTac] ].

Lemma walkscore_candidate_wire E verify st m :
  Step E walkscoreSuccess walkscoreWire isNetworkError True
    DetectorType_WalkScore verify (capture m) st
    (Walkscore.candidate E verify st m).
Proof. unfold Walkscore.candidate. openCandidate; stepWire. Qed.

Lemma abuseipdb_candidate_wire E verify st m :
  Step E abuseipdbSuccess abuseipdbWire abuseipdbBypass True
    DetectorType_AbuseIPDB verify (capture m) st
    (Abuseipdb.candidate E verify st m).
Proof. unfold Abuseipdb.candidate. openCandidate; stepWire. Qed.

Lemma text2data_candidate_wire E verify st m :
  Step E text2dataSuccess (text2dataWire E) text2dataBypass True
    DetectorType_Text2Data verify (capture m) st
    (Text2data.candidate E verify st m).
Proof. unfold Text2data.candidate. openCandidate; stepWire. Qed.

Lemma verifier_candidate_wire E verify raw st m users :
  In (TrimSpace (nth 1 m "")) users ->
  Step E statusSuccess (verifierWire users) isNetworkError True
    DetectorType_Verifier verify raw st
    (Verifier.candidate E verify raw st m).
Proof. intros Hin. unfold Verifier.candidate. openCandidate; stepWire. Qed.

Lemma paypaloauth_candidate_wire E verify raw st m ids :
  In (TrimSpace (nth 1 m "")) ids ->
  Step E statusSuccess (paypalWire E ids) isNetworkError True
    DetectorType_PaypalOauth verify raw st
    (Paypaloauth.candidate E verify raw st m).
Proof. intros Hin. unfold Paypaloauth.candidate. openCandidate; stepWire. Qed.

Lemma currencycloud_candidate_wire E verify raw st m emails :
  In (TrimSpace (nth 1 m "")) emails ->
  Step E currencycloudSuccess (currencycloudWire emails) isNetworkError True
    DetectorType_CurrencyCloud verify raw st
    (Currencycloud.candidate E verify raw st m).
Proof. intros Hin. unfold Currencycloud.candidate. openCandidate; stepWire. Qed.

Lemma okta_candidate_wire E verify token st domain domains :
  In domain domains ->
  Step E statusSuccess (oktaWire domains) neverBypass False DetectorType_Okta
    verify token st (flowState (Okta.candidate E verify token st domain)).
Proof.
  intros Hin. unfold Okta.candidate, NewRequestWithContext, Do. cbv zeta.
  destruct verify.
  - destruct (requestError E _ _); [apply StepSkip|].
    match goal with
    | |- context [transport E ?n ?r] =>
        destruct (transport E n r) as [resp|e] eqn:Ho
    end; cbv beta iota.
    + destruct (is2xx (StatusCode resp)) eqn:Hs;
        cbn [Verified setVerified newResult negb andb Raw flowState].
      * stepWire.
      * destruct (IsKnownFalsePositive E token (DefaultFalsePositives E) true)
          eqn:Hr; cbn [flowState]; stepWire.
    + cbn [flowState]. stepWire.
  - cbn [Verified newResult negb andb Raw].
    destruct (IsKnownFalsePositive E token (DefaultFalsePositives E) true)
      eqn:Hr; cbn [flowState].
    + apply stepSkip. reflexivity.
    + destruct st as [rs net]. cbn [fst snd].
      apply StepPlain; [reflexivity|right; exact Hr].
Qed.

(** ** The detectors with one pattern *)

Lemma capture_In (ms : list (list string)) (m : list string) :
  In m ms -> hasCapture m = true -> In (capture m) (captures ms).
Proof.
  intros Hin Hc. unfold captures. apply in_map, filter_In. auto.
Qed.

Ltac plainTurn stepLemma :=
  let st := fresh "st" in
  let m := fresh "m" in
  let Hin := fresh "Hin" in
  let Hc := fresh "Hc" in
  intros st m Hin;
  destruct (hasCapture m) eqn:Hc;
  [ right; split; [apply capture_In; assumption|apply stepLemma]
  | left; unfold hasCapture in Hc;
    unfold Abuseipdb.candidate, Walkscore.candidate, Text2data.candidate;
    rewrite Hc; reflexivity ].

Ltac plainTraced stepLemma :=
  cbn [results requests fst snd];
  apply Traced_clean; rewrite <- surjective_pairing;
  match goal with
  | |- Traced _ _ _ (List.length ?ms) _ (fold_left ?body ?ms _) =>
      eapply Traced_fold with (f := body) (rawOf := capture) (n := 0);
      [plainTurn stepLemma|apply Traced_start]
  end.

(** X12: abuseipdb, walkscore and text2data send at most one request per
    match of their key pattern, and every request they send is the fixed
    vendor request (method, URL, headers, body as written in the source)
    filled in with the trimmed capture of one of those matches; every
    result they return has the detector's own type and such a capture as
    its raw value. *)
Theorem X12_single_pattern_detectors_requests_and_results
    (E : Env) (verify : bool) (data : string) (net0 : Net) :
  let found r := FindAllStringSubmatch r data in
  let traced link t ms (o : Outcome) :=
    Traced link t (captures ms) (List.length ms) net0 (results o, requests o) in
  traced abuseipdbWire DetectorType_AbuseIPDB (found (Abuseipdb.keyPat E))
    (Abuseipdb.FromData E verify data net0)
  /\ traced walkscoreWire DetectorType_WalkScore (found (Walkscore.keyPat E))
       (Walkscore.FromData E verify data net0)
  /\ traced (text2dataWire E) DetectorType_Text2Data (found (Text2data.keyPat E))
       (Text2data.FromData E verify data net0).
Proof.
  cbv zeta. split; [|split].
  - unfold Abuseipdb.FromData. plainTraced abuseipdb_candidate_wire.
  - unfold Walkscore.FromData. plainTraced walkscore_candidate_wire.
  - unfold Text2data.FromData. plainTraced text2data_candidate_wire.
Qed.

(** ** The detectors that pair two patterns *)

Ltac pairedTurn stepLemma ms :=
  let st := fresh "st" in
  let m := fresh "m" in
  let n := fresh "n" in
  let Hin := fresh "Hin" in
  let HT := fresh "HT" in
  let Hc := fresh "Hc" in
  intros st m n Hin HT;
  unfold Verifier.perMatch, Paypaloauth.perMatch, Currencycloud.perMatch;
  destruct (hasCapture m) eqn:Hc; unfold hasCapture in Hc; rewrite Hc;
  cbn [negb];
  [ match goal with
    | |- Traced ?link ?t ?raws _ ?net0 (fold_left ?body ?ids _) =>
        eapply Traced_fold
          with (f := body) (rawOf := fun _ : list string => capture m);
        [|exact HT];
        let st' := fresh "st" in
        let id := fresh "id" in
        let Hid := fresh "Hid" in
        let Hd := fresh "Hd" in
        intros st' id Hid;
        destruct (hasCapture id) eqn:Hd;
        [ right; split;
          [apply (capture_In ms); assumption
          |apply stepLemma; apply capture_In; assumption]
        | left; unfold hasCapture in Hd;
          unfold Verifier.candidate, Paypaloauth.candidate,
            Currencycloud.candidate;
          rewrite Hd; reflexivity ]
    end
  | eapply Traced_weaken; [|exact HT]; lia ].

Ltac pairedTraced stepLemma :=
  cbn [results requests fst snd];
  apply Traced_clean; rewrite <- surjective_pairing;
  match goal with
  | |- Traced ?link ?t ?raws (List.length ?ms * List.length ?ids) ?net0
         (fold_left ?body ?ms _) =>
      eapply Traced_blocks
        with (f := body) (b := List.length ids) (n := 0);
      [pairedTurn stepLemma ms|apply Traced_start]
  end.

Lemma paypaloauth_Traced E verify data net0 :
  Traced (paypalWire E (captures (FindAllStringSubmatch Paypaloauth.idPat data)))
    DetectorType_PaypalOauth
    (captures (FindAllStringSubmatch Paypaloauth.keyPat data))
    (List.length (FindAllStringSubmatch Paypaloauth.keyPat data)
     * List.length (FindAllStringSubmatch Paypaloauth.idPat data))
    net0
    (results (Paypaloauth.FromData E verify data net0),
     requests (Paypaloauth.FromData E verify data net0)).
Proof.
  unfold Paypaloauth.FromData. pairedTraced paypaloauth_candidate_wire.
Qed.

(** X13: verifier, paypaloauth and currencycloud send at most one request
    per pair of a key match and a match of their second pattern; every
    request is the fixed vendor request filled in with the capture of a key
    match and the capture of a match of the second pattern; every result
    has the detector's own type and the capture of a key match as its raw
    value. *)
Theorem X13_paired_detectors_requests_and_results
    (E : Env) (verify : bool) (data : string) (net0 : Net) :
  let found r := FindAllStringSubmatch r data in
  let traced link t ms ids (o : Outcome) :=
    Traced (link (captures ids)) t (captures ms)
      (List.length ms * List.length ids) net0 (results o, requests o) in
  traced verifierWire DetectorType_Verifier
    (found (Verifier.keyPat E)) (found (Verifier.emailPat E))
    (Verifier.FromData E verify data net0)
  /\ traced (paypalWire E) DetectorType_PaypalOauth
       (found Paypaloauth.keyPat) (found Paypaloauth.idPat)
       (Paypaloauth.FromData E verify data net0)
  /\ traced currencycloudWire DetectorType_CurrencyCloud
       (found (Currencycloud.keyPat E)) (found Currencycloud.emailPat)
       (Currencycloud.FromData E verify data net0).
Proof.
  cbv zeta. split; [|split].
  - unfold Verifier.FromData. pairedTraced verifier_candidate_wire.
  - apply paypaloauth_Traced.
  - unfold Currencycloud.FromData. pairedTraced currencycloud_candidate_wire.
Qed.

(** ** okta *)

Lemma string_of_list_ascii_app (a b : list ascii) :
  string_of_list_ascii (a ++ b)
  = string_of_list_ascii a ++ string_of_list_ascii b.
Proof.
  induction a as [|c a IH]; cbn [app string_of_list_ascii String.append];
    congruence.
Qed.

Lemma string_of_list_ascii_length (a : list ascii) :
  String.length (string_of_list_ascii a) = List.length a.
Proof.
  induction a as [|c a IH]; cbn [string_of_list_ascii String.length List.length];
    congruence.
Qed.

Lemma power_class (f : ascii -> bool) (n : nat) (w : list ascii) :
  power (lang (Class f)) n w -> List.length w = n /\ forallb f w = true.
Proof.
  revert w. induction n as [|n IH]; intros w; cbn [power].
  - intros ->. auto.
  - intros (u & v & -> & (c & -> & Hc) & Hv).
    destruct (IH v Hv) as [Hl Hf]. cbn [app List.length forallb].
    rewrite Hc, Hf, Hl. auto.
Qed.

Lemma lang_oktaToken (w : list ascii) :
  lang Okta.tokenPat w -> isOktaToken (string_of_list_ascii w).
Proof.
  unfold Okta.tokenPat. cbn [lang].
  intros (u & v & -> & Hu & (n & Hn & Hp)).
  apply lang_literal in Hu. subst u.
  apply power_class in Hp. destruct Hp as [Hl Hf].
  exists (string_of_list_ascii v).
  split; [apply (string_of_list_ascii_app (list_ascii_of_string "00") v)|].
  split; [rewrite string_of_list_ascii_length; lia|].
  unfold allChars. rewrite list_ascii_of_string_of_list_ascii. exact Hf.
Qed.

Lemma lang_oktaDomain (w : list ascii) :
  lang Okta.domainPat w -> isOktaDomain (string_of_list_ascii w).
Proof.
  unfold Okta.domainPat.
  intros (label & v & -> & (n & Hn & Hp) & (o & v1 & -> & Ho & (opt & com & -> & Hopt & Hcom))).
  apply lang_literal in Ho, Hcom. subst o com.
  apply power_class in Hp. destruct Hp as [Hl Hf].
  assert (Hs : In (string_of_list_ascii
                     (list_ascii_of_string ".okta"
                      ++ opt ++ list_ascii_of_string ".com"))
                  oktaSuffixes).
  { destruct Hopt as (k & Hk & Hpow).
    destruct k as [|[|k]]; [| |lia]; cbn [power] in Hpow.
    - subst opt. left. reflexivity.
    - destruct Hpow as (u & v & -> & [Hu|Hu] & ->);
        apply lang_literal in Hu; subst u.
      + right. left. reflexivity.
      + right. right. left. reflexivity. }
  exists (string_of_list_ascii label), (string_of_list_ascii
            (list_ascii_of_string ".okta" ++ opt ++ list_ascii_of_string ".com")).
  split; [apply string_of_list_ascii_app|].
  split; [exact Hs|].
  split; [rewrite string_of_list_ascii_length; lia|].
  unfold allChars. rewrite list_ascii_of_string_of_list_ascii. exact Hf.
Qed.

Lemma okta_matches_shape (data : string) :
  Forall isOktaToken (FindAllString Okta.tokenPat data)
  /\ Forall isOktaDomain (FindAllString Okta.domainPat data).
Proof.
  split; apply Forall_forall; intros m Hm; apply FindAllString_In in Hm;
    destruct Hm as (pre & w & post & _ & -> & L).
  - apply lang_oktaToken, L.
  - apply lang_oktaDomain, L.
Qed.

Lemma okta_Traced E verify data net0 :
  let tokens := FindAllString Okta.tokenPat data in
  let domains := FindAllString Okta.domainPat data in
  Traced (oktaWire domains) DetectorType_Okta tokens
    (List.length tokens * List.length domains) net0
    (results (Okta.FromData E verify data net0),
     requests (Okta.FromData E verify data net0)).
Proof.
  cbv zeta. rewrite okta_outcome.
  set (tokens := FindAllString Okta.tokenPat data).
  set (domains := FindAllString Okta.domainPat data).
  assert (Hgen : forall toks, incl toks tokens ->
            forall n st,
              Traced (oktaWire domains) DetectorType_Okta tokens n net0 st ->
              Traced (oktaWire domains) DetectorType_Okta tokens
                (n + List.length toks * List.length domains) net0
                (flowState (forEach (Okta.perToken E verify data) toks st))).
  { induction toks as [|token toks IH]; intros Hsub n st HT;
      cbn [forEach flowState List.length].
    - eapply Traced_weaken; [|exact HT]. lia.
    - unfold Okta.perToken at 1. fold domains.
      assert (Hinner :
        Traced (oktaWire domains) DetectorType_Okta tokens
          (n + List.length domains) net0
          (flowState (forEach (Okta.candidate E verify token) domains st))).
      { eapply Traced_forEach with (raw := token); [| |exact HT].
        - apply Hsub. left. reflexivity.
        - intros st0 d Hd. apply okta_candidate_wire, Hd. }
      destruct (forEach (Okta.candidate E verify token) domains st)
        as [st'|st' e]; cbn [flowState] in *.
      + eapply Traced_weaken;
          [|apply (IH (fun x Hx => Hsub x (or_intror Hx)) _ _ Hinner)].
        cbn [Nat.mul]. lia.
      + eapply Traced_weaken; [|exact Hinner]. cbn [Nat.mul]. lia. }
  apply (Hgen tokens (incl_refl _) 0 ([], net0)), Traced_start.
Qed.

(** X14: the okta detector sends a token only in a GET request to
    [https://<domain>/api/v1/groups?limit=1] with the header
    "Authorization: SSWS <token>", where the token is a match of the token
    pattern in the data and the domain a match of the domain pattern in the
    data, at most one request per pair of them.  Every such token is "00"
    followed by forty characters of [a-zA-Z0-9_-]; every such domain is one
    to forty characters of [a-z0-9-] followed by ".okta.com",
    ".oktapreview.com" or ".okta-emea.com".  Every result has type Okta and
    one of these tokens as its raw value. *)
Theorem X14_okta_requests_and_results
    (E : Env) (verify : bool) (data : string) (net0 : Net) :
  let tokens := FindAllString Okta.tokenPat data in
  let domains := FindAllString Okta.domainPat data in
  Traced (oktaWire domains) DetectorType_Okta tokens
    (List.length tokens * List.length domains) net0
    (results (Okta.FromData E verify data net0),
     requests (Okta.FromData E verify data net0))
  /\ Forall isOktaToken tokens
  /\ Forall isOktaDomain domains.
Proof.
  cbv zeta. split; [apply okta_Traced|apply okta_matches_shape].
Qed.

(** ** okta: errors *)

Lemma forEach_Returned {A : Type} (body : LoopState -> A -> Flow)
    (xs : list A) (st st' : LoopState) (e : error) :
  forEach body xs st = Returned st' e ->
  exists x st0, In x xs /\ body st0 x = Returned st' e.
Proof.
  revert st. induction xs as [|x xs IH]; intros st; cbn [forEach];
    [discriminate|].
  destruct (body st x) as [st1|st1 e1] eqn:Hb.
  - intros H. destruct (IH _ H) as (y & st0 & Hy & Hr).
    exists y, st0. split; [right; exact Hy|exact Hr].
  - intros [= <- <-]. exists x, st. split; [left; reflexivity|exact Hb].
Qed.

Lemma okta_candidate_Returned E verify token st domain st' e :
  Okta.candidate E verify token st domain = Returned st' e ->
  verify = true
  /\ (requestError E "GET" ("https://" ++ domain ++ "/api/v1/groups?limit=1")
      = Some e
      \/ exists pre req, snd st' = (pre ++ [(req, inr e)])%list).
Proof.
  unfold Okta.candidate, NewRequestWithContext, Do. cbv zeta.
  destruct verify.
  - destruct (requestError E _ _) as [e0|] eqn:Hre; cbv beta iota.
    + intros [= <- <-]. split; [reflexivity|]. left. reflexivity.
    + match goal with
      | |- context [transport E ?n ?r] =>
          destruct (transport E n r) as [resp|e1] eqn:Ho
      end; cbv beta iota.
      * destruct (is2xx (StatusCode resp));
          cbn [Verified setVerified newResult negb andb Raw];
          [discriminate|].
        destruct (IsKnownFalsePositive E token (DefaultFalsePositives E) true);
          discriminate.
      * intros [= <- <-]. split; [reflexivity|]. right.
        eexists _, _. reflexivity.
  - cbn [Verified newResult negb andb Raw].
    destruct (IsKnownFalsePositive E token (DefaultFalsePositives E) true);
      discriminate.
Qed.

(** X15: the okta detector returns an error only in a verifying scan, and
    the error is then either the one met when building the request for one
    of the matched domains, or the network error of the last request made;
    the scan stops there.  Without verification the error is nil. *)
Theorem X15_okta_error_is_the_first_failure
    (E : Env) (verify : bool) (data : string) (net0 : Net) (e : error) :
  err (Okta.FromData E verify data net0) = Some e ->
  verify = true
  /\ ((exists domain,
         In domain (FindAllString Okta.domainPat data)
         /\ requestError E "GET"
              ("https://" ++ domain ++ "/api/v1/groups?limit=1") = Some e)
      \/ exists pre req,
           requests (Okta.FromData E verify data net0)
           = (pre ++ [(req, inr e)])%list).
Proof.
  unfold Okta.FromData.
  destruct (forEach _ _ _) as [st|st e0] eqn:Hf; cbn [err requests fst snd];
    [discriminate|].
  intros [= ->].
  apply forEach_Returned in Hf. destruct Hf as (token & st0 & _ & Hp).
  unfold Okta.perToken in Hp.
  apply forEach_Returned in Hp. destruct Hp as (domain & st1 & Hd & Hc).
  apply okta_candidate_Returned in Hc. destruct Hc as [Hv [Hre|Hnet]].
  - split; [exact Hv|]. left. exists domain. auto.
  - split; [exact Hv|]. right. exact Hnet.
Qed.

(** X15 at a concrete input: on [oktaData], when no request can be
    built. *)
Lemma X15_okta_error_is_the_first_failure_witness :
  true = true
  /\ ((exists domain,
         In domain (FindAllString Okta.domainPat oktaData)
         /\ requestError noRequestEnv "GET"
              ("https://" ++ domain ++ "/api/v1/groups?limit=1")
            = Some (Errorf "net/http: invalid method"))
      \/ exists pre req,
           requests (Okta.FromData noRequestEnv true oktaData [])
           = (pre ++ [(req, inr (Errorf "net/http: invalid method"))])%list).
Proof.
  apply (X15_okta_error_is_the_first_failure noRequestEnv true oktaData []
           (Errorf "net/http: invalid method")).
  vm_compute. reflexivity.
Defined.

(** ** okta without verification *)

Lemma okta_plain_inner E token domains (st : LoopState) :
  forEach (Okta.candidate E false token) domains st
  = Running ((fst st
              ++ (if rejected E token then []
                  else map (fun _ => newResult DetectorType_Okta token)
                           domains))%list,
             snd st).
Proof.
  revert st. induction domains as [|d domains IH]; intros st; cbn [forEach map].
  - destruct (rejected E token); rewrite app_nil_r; destruct st; reflexivity.
  - unfold Okta.candidate at 1. cbv zeta beta iota.
    cbn [Verified newResult negb andb Raw]. fold (rejected E token).
    destruct (rejected E token) eqn:Hr; rewrite IH; cbn [fst snd emit].
    + reflexivity.
    + unfold emit. cbn [fst snd]. rewrite <- app_assoc. reflexivity.
Qed.

(** X16: without verification the okta detector makes no request and
    returns no error, and its results are, token by token in the order of
    the matches, each token the classifier accepts repeated once per match
    of the domain pattern: duplicates are not removed, and without a domain
    in the data nothing is reported. *)
Theorem X16_okta_without_verification
    (E : Env) (data : string) (net0 : Net) :
  Okta.FromData E false data net0
  = ((oktaPlainResults E (FindAllString Okta.tokenPat data)
        (FindAllString Okta.domainPat data), None), net0).
Proof.
  unfold Okta.FromData, oktaPlainResults.
  generalize (FindAllString Okta.tokenPat data) as tokens.
  assert (Hgen : forall tokens (st : LoopState),
            forEach (Okta.perToken E false data) tokens st
            = Running ((fst st
                        ++ flat_map
                             (fun token =>
                                if rejected E token then []
                                else map (fun _ => newResult DetectorType_Okta token)
                                         (FindAllString Okta.domainPat data))
                             tokens)%list, snd st)).
  { induction tokens as [|token tokens IH]; intros st; cbn [forEach flat_map].
    - rewrite app_nil_r. destruct st. reflexivity.
    - unfold Okta.perToken at 1. rewrite okta_plain_inner, IH.
      cbn [fst snd]. rewrite <- app_assoc. reflexivity. }
  intros tokens. rewrite Hgen. reflexivity.
Qed.

(** ** Verification and the keyword *)

(** X17: in abuseipdb, walkscore, okta and text2data a result is marked
    verified only after a response with a 2xx status to a request, made
    during the same call, that carries the credential of that result; and
    called with verify = false these detectors make no request and mark no
    result verified. *)
Theorem X17_verification_needs_a_2xx_response
    (E : Env) (verify : bool) (data : string) (net0 : Net) :
  let quiet (o : Outcome) :=
    requests o = net0 /\ Forall (fun r => Verified r = false) (results o) in
  (VerifiedOnlyAfter2xx abuseipdbLink net0 (Abuseipdb.FromData E verify data net0)
   /\ VerifiedOnlyAfter2xx walkscoreLink net0
        (Walkscore.FromData E verify data net0)
   /\ VerifiedOnlyAfter2xx oktaLink net0 (Okta.FromData E verify data net0)
   /\ VerifiedOnlyAfter2xx (text2dataLink E) net0
        (Text2data.FromData E verify data net0))
  /\ quiet (Abuseipdb.FromData E false data net0)
  /\ quiet (Walkscore.FromData E false data net0)
  /\ quiet (Okta.FromData E false data net0)
  /\ quiet (Text2data.FromData E false data net0).
Proof.
  cbv zeta. split.
  - split; [apply (Backed_2xx abuseipdbSuccess);
            [successIs2xx|apply abuseipdb_Kept]|].
    split; [apply (Backed_2xx walkscoreSuccess);
            [successIs2xx|apply walkscore_Kept]|].
    split; [apply (Backed_2xx statusSuccess); [successIs2xx|apply okta_Kept]|].
    apply (Backed_2xx text2dataSuccess); [successIs2xx|apply text2data_Kept].
  - split; [apply (abuseipdb_Kept E false data net0); reflexivity|].
    split; [apply (walkscore_Kept E false data net0); reflexivity|].
    split; [apply (okta_Kept E false data net0); reflexivity|].
    apply (text2data_Kept E false data net0); reflexivity.
Qed.

(** X18: in verifier and paypaloauth a result is marked verified only
    after a response with a 2xx status to a request, made during the same
    call, that carries the credential of that result; and called with
    verify = false verifier, paypaloauth and currencycloud make no request
    and mark no result verified. *)
Theorem X18_paired_verification_needs_a_2xx_response
    (E : Env) (verify : bool) (data : string) (net0 : Net) :
  let quiet (o : Outcome) :=
    requests o = net0 /\ Forall (fun r => Verified r = false) (results o) in
  (VerifiedOnlyAfter2xx verifierLink net0 (Verifier.FromData E verify data net0)
   /\ VerifiedOnlyAfter2xx (paypalLink E) net0
        (Paypaloauth.FromData E verify data net0))
  /\ quiet (Verifier.FromData E false data net0)
  /\ quiet (Paypaloauth.FromData E false data net0)
  /\ quiet (Currencycloud.FromData E false data net0).
Proof.
  cbv zeta. split.
  - split; [apply (Backed_2xx statusSuccess);
            [successIs2xx|apply verifier_Kept]|].
    apply (Backed_2xx statusSuccess); [successIs2xx|apply paypaloauth_Kept].
  - split; [apply (verifier_Kept E false data net0); reflexivity|].
    split; [apply (paypaloauth_Kept E false data net0); reflexivity|].
    apply (currencycloud_Kept E false data net0); reflexivity.
Qed.

(** X19: whenever the okta detector returns a result, the lowercased data
    contains its keyword "okta": the domain pattern, without which nothing
    is reported, spells it. *)
Theorem X19_okta_results_need_the_keyword
    (E : Env) (verify : bool) (data : string) (net0 : Net) :
  results (Okta.FromData E verify data net0) <> [] ->
  In "okta" Okta.Keywords /\ Contains (ToLower data) "okta" = true.
Proof.
  intros H. split; [left; reflexivity|].
  pose proof (okta_prefilter_sound E verify data net0 H) as Hp.
  unfold passesPreFilter, Okta.Keywords in Hp. cbn [existsb] in Hp.
  rewrite orb_false_r in Hp. exact Hp.
Qed.

(** X19 at a concrete input: [oktaData]. *)
Lemma X19_okta_results_need_the_keyword_witness :
  In "okta" Okta.Keywords /\ Contains (ToLower oktaData) "okta" = true.
Proof.
  apply (X19_okta_results_need_the_keyword (sampleEnv (answer 200 "")) false
           oktaData []).
  vm_compute. discriminate.
Defined.

(** ** Failures that are swallowed *)

Ltac swallowTac :=
  unfold Swallowed, paypalRequest, currencycloudRequest, text2dataRequest,
    Paypaloauth.candidate, Currencycloud.candidate, Text2data.candidate,
    NewRequestWithContext, Do;
  cbn [List.length Nat.eqb negb nth withHeaders];
  destruct (requestError _ _ _); cbn [withHeaders]; [reflexivity|];
  cbv zeta beta iota;
  match goal with
  | |- context [transport ?E ?n ?r] => destruct (transport E n r)
  end; [exact I|reflexivity].

(** X20: paypaloauth, currencycloud and text2data never return an error.
    In their loop bodies a request that cannot be built drops the candidate
    without a result and without a request, and a request that fails on the
    network leaves the candidate reported unverified, the classifier not
    being asked. *)
Theorem X20_failures_are_swallowed
    (E : Env) (verify : bool) (data : string) (net : Net) :
  err (Paypaloauth.FromData E verify data net) = None
  /\ err (Currencycloud.FromData E verify data net) = None
  /\ err (Text2data.FromData E verify data net) = None
  /\ (forall raw st whole id,
        Swallowed E (paypalRequest E (TrimSpace id) raw) st
          (newResult DetectorType_PaypalOauth raw)
          (Paypaloauth.candidate E true raw st [whole; id]))
  /\ (forall raw st whole email,
        Swallowed E (currencycloudRequest E (TrimSpace email) raw) st
          (newResult DetectorType_CurrencyCloud raw)
          (Currencycloud.candidate E true raw st [whole; email]))
  /\ (forall st whole key,
        Swallowed E (text2dataRequest E (TrimSpace key)) st
          (newResult DetectorType_Text2Data (TrimSpace key))
          (Text2data.candidate E true st [whole; key])).
Proof.
  split; [reflexivity|]. split; [reflexivity|]. split; [reflexivity|].
  split; [|split].
  - intros raw st whole id. swallowTac.
  - intros raw st whole email. swallowTac.
  - intros st whole key. swallowTac.
Qed.

(** ** paypaloauth: what the patterns capture *)

Lemma paypalChar_not_space (c : ascii) :
  paypalChar c = true \/ isChar "-" c = true -> isSpace c = false.
Proof.
  destruct c as [b0 b1 b2 b3 b4 b5 b6 b7].
  destruct b0, b1, b2, b3, b4, b5, b6, b7; vm_compute;
    intros [H|H]; first [reflexivity | discriminate H].
Qed.

Lemma TrimSpace_no_space (s : string) :
  forallb (fun c => negb (isSpace c)) (list_ascii_of_string s) = true ->
  TrimSpace s = s.
Proof.
  intros H. unfold TrimSpace.
  assert (Hl : trimLeft s = s).
  { destruct s as [|c s]; [reflexivity|].
    cbn [list_ascii_of_string forallb] in H.
    apply andb_true_iff in H. destruct H as [Hc _].
    apply negb_true_iff in Hc. cbn [trimLeft]. rewrite Hc. reflexivity. }
  rewrite Hl. clear Hl.
  induction s as [|c s IH]; [reflexivity|].
  cbn [list_ascii_of_string forallb] in H.
  apply andb_true_iff in H. destruct H as [Hc Hs].
  apply negb_true_iff in Hc. cbn [trimRight].
  rewrite Hc, (IH Hs). reflexivity.
Qed.

Lemma forallb_impl {A : Type} (f g : A -> bool) (l : list A) :
  (forall a, f a = true -> g a = true) ->
  forallb f l = true -> forallb g l = true.
Proof.
  intros Hfg. induction l as [|a l IH]; [reflexivity|].
  cbn [forallb]. rewrite !andb_true_iff. intros [Ha Hl]. auto.
Qed.

Lemma lang_paypalSecret (n k : nat) (w : list ascii) :
  lang (Seq (Repeat Paypaloauth.idChar n n)
          (Seq (Class (isChar "-")) (Repeat Paypaloauth.idChar k k))) w ->
  isPaypalSecret n k (string_of_list_ascii w)
  /\ TrimSpace (string_of_list_ascii w) = string_of_list_ascii w.
Proof.
  unfold Paypaloauth.idChar. cbn [lang].
  intros (u & r & -> & (n' & Hn & Pu) & (d & v & -> & (c & -> & Hc) & (k' & Hk & Pv))).
  apply power_class in Pu, Pv. destruct Pu as [Lu Fu]. destruct Pv as [Lv Fv].
  unfold isChar in Hc. pose proof Hc as Hdash.
  apply Ascii.eqb_eq in Hc. subst c.
  split.
  - exists (string_of_list_ascii u), (string_of_list_ascii v).
    split; [rewrite string_of_list_ascii_app; reflexivity|].
    rewrite !string_of_list_ascii_length. unfold allChars.
    rewrite !list_ascii_of_string_of_list_ascii.
    repeat split; [lia|lia|exact Fu|exact Fv].
  - apply TrimSpace_no_space.
    rewrite list_ascii_of_string_of_list_ascii, forallb_app.
    cbn [app forallb].
    assert (Hns : forall a, paypalChar a = true -> negb (isSpace a) = true).
    { intros a Ha. rewrite (paypalChar_not_space a); [reflexivity|left; exact Ha]. }
    rewrite (forallb_impl _ _ u Hns Fu), (forallb_impl _ _ v Hns Fv).
    rewrite (paypalChar_not_space "-"); [reflexivity|right; reflexivity].
Qed.

Lemma paypal_captures (n k : nat) (data : string) :
  Forall (isPaypalSecret n k)
    (captures (FindAllStringSubmatch
                 (bounded (Seq (Repeat Paypaloauth.idChar n n)
                             (Seq (Class (isChar "-"))
                                (Repeat Paypaloauth.idChar k k)))) data)).
Proof.
  apply Forall_forall. intros x Hx. unfold captures in Hx.
  apply in_map_iff in Hx. destruct Hx as (m & <- & Hm).
  apply filter_In in Hm. destruct Hm as [Hm _].
  apply FindAllStringSubmatch_bounded in Hm; [|reflexivity].
  destruct Hm as (pre & w & post & _ & -> & L).
  apply lang_paypalSecret in L. destruct L as [Hs Ht].
  unfold capture. cbn [nth]. rewrite Ht. exact Hs.
Qed.

(** X21: what the paypaloauth detector takes as a key is always 69
    characters of [A-Za-z0-9_.], a dash and 10 more such characters, and
    what it takes as an id 7 such characters, a dash and 72 more: every
    result has a raw value of the first shape, and every request carries
    in its Authorization header the encoding of an id and a key of these
    shapes joined by a colon. *)
Theorem X21_paypaloauth_secret_shapes
    (E : Env) (verify : bool) (data : string) (net0 : Net) :
  let o := Paypaloauth.FromData E verify data net0 in
  Forall (fun r => isPaypalSecret 69 10 (Raw r)) (results o)
  /\ exists added : Net,
       requests o = (net0 ++ added)%list
       /\ Forall (fun ex =>
                    exists id key,
                      isPaypalSecret 7 72 id /\ isPaypalSecret 69 10 key
                      /\ In ("Authorization",
                             "Basic " ++ base64Encode E (id ++ ":" ++ key))
                            (Header (fst ex)))
                 added.
Proof.
  cbv zeta.
  pose proof (paypal_captures 69 10 data) as Hkeys.
  pose proof (paypal_captures 7 72 data) as Hids.
  fold Paypaloauth.keyPat in Hkeys. fold Paypaloauth.idPat in Hids.
  destruct (paypaloauth_Traced E verify data net0)
    as (added & Hnet & _ & Hreq & Hres).
  cbn [fst snd] in Hnet, Hres.
  rewrite Forall_forall in Hkeys, Hids.
  split.
  - apply Forall_forall. intros r Hr.
    rewrite Forall_forall in Hres. apply Hkeys, (Hres r Hr).
  - exists added. split; [exact Hnet|].
    apply Forall_forall. intros ex Hex.
    rewrite Forall_forall in Hreq.
    destruct (Hreq ex Hex) as (key & Hkey & id & Hid & ->).
    exists id, key. split; [apply Hids, Hid|]. split; [apply Hkeys, Hkey|].
    cbn [Header]. right. right. right. left. reflexivity.
Qed.

End DetectorExtra.
